(** * Base16 palettes and VS Code themes: colour matching and templating

    A shallow embedding of the colour normaliser, the distance engine, the
    palette index, the theme tree walker, the templatizer
    ([scripts/vscode.py], [scripts/template_generator.py]) and the theme
    materializer ([scripts/theme_builder.py]), with the properties the
    specification states about them.

    Conventions.
    - A Python [str] is a list of characters; a character is a code point
      below 256 (Latin-1), which is what [ascii] has room for.
    - A Python [float] is a binary64 number, Rocq's primitive [float].
    - A Python [dict] that is iterated is an association list in insertion
      order ([dict_set] overwrites in place or appends); a [dict] that is
      only looked up is a [gmap].
    - A function that can raise returns an [outcome].
    - Console output is no part of a result.  The progress lines with a
      fixed text are left out; the one line that interpolates a colour and
      a slot name is kept for what may stop the run: the console reads
      the interpolated text as markup ([print_replacing]). *)

From Stdlib Require Import ZArith Ascii String DecimalString List Floats Uint63 Lia Bool.
From stdpp Require Import base option list gmap strings.

Set Warnings "-register-all".

Local Open Scope Z_scope.
Local Open Scope list_scope.

(** ** Python strings *)

Abbreviation pystr := (list ascii) (only parsing).

(** String literals are written as Rocq strings and read as character lists. *)
Coercion list_ascii_of_string : string >-> list.

Definition code (c : ascii) : Z := Z.of_N (N_of_ascii c).
Definition chr (n : Z) : ascii := ascii_of_N (Z.to_N n).

(** [str.lower()] on one character: A-Z, and the Latin-1 capitals
    U+00C0..U+00DE except the multiplication sign U+00D7. *)
Definition lower_char (c : ascii) : ascii :=
  let n := code c in
  if (65 <=? n) && (n <=? 90) then chr (n + 32)
  else if (192 <=? n) && (n <=? 222) && negb (n =? 215) then chr (n + 32)
  else c.

Definition py_lower (s : pystr) : pystr := map lower_char s.

(** [str.isspace()] on one character, the set [str.strip()] removes. *)
Definition py_isspace (c : ascii) : bool :=
  let n := code c in
  ((9 <=? n) && (n <=? 13)) || ((28 <=? n) && (n <=? 32))
  || (n =? 133) || (n =? 160).

Fixpoint lstrip_while (p : ascii -> bool) (s : pystr) : pystr :=
  match s with
  | [] => []
  | c :: r => if p c then lstrip_while p r else s
  end.

Definition rstrip_while (p : ascii -> bool) (s : pystr) : pystr :=
  rev (lstrip_while p (rev s)).

(** [s.strip()] *)
Definition py_strip (s : pystr) : pystr :=
  rstrip_while py_isspace (lstrip_while py_isspace s).

Definition is_char (c d : ascii) : bool := (code c =? code d).

(** [s.lstrip("#")]: every leading [#] goes, not only the first. *)
Definition py_lstrip_hash (s : pystr) : pystr := lstrip_while (is_char "#") s.

(** [s[i:j]] for [0 <= i <= j]. *)
Definition slice (i j : nat) (s : pystr) : pystr := take (j - i) (drop i s).

Definition startswith_hash (s : pystr) : bool :=
  match s with
  | c :: _ => is_char "#" c
  | [] => false
  end.

Definition pystr_eqb (a b : pystr) : bool := bool_decide (a = b).

(** ** Exceptions *)

(** [OutsideFragment] is not a Python exception: it marks an input this
    development gives no account of (Jinja syntax beyond plain placeholders,
    the text form of a Python object, console markup beyond the tag [[/]]). *)
Inductive exn : Type :=
| ValueError
| TypeError
| UndefinedError (name : list ascii)
| TemplateNotFoundError (template_path : list ascii)
| MarkupError
| OutsideFragment.

Inductive outcome (A : Type) : Type :=
| Ok (a : A)
| Raise (e : exn).
Arguments Ok {A} a.
Arguments Raise {A} e.

#[global] Instance outcome_ret : MRet outcome := fun A a => Ok a.
#[global] Instance outcome_bind : MBind outcome := fun A B f m =>
  match m with
  | Ok a => f a
  | Raise e => Raise e
  end.

#[global] Instance outcome_fmap : FMap outcome := fun A B f m =>
  match m with
  | Ok a => Ok (f a)
  | Raise e => Raise e
  end.

Definition returns {A} (m : outcome A) : Prop := exists a, m = Ok a.

(** ** [int(s, 16)] *)

(** Blanks [int] skips at both ends of its argument. *)
Definition int_isspace (c : ascii) : bool :=
  let n := code c in
  ((9 <=? n) && (n <=? 13)) || (n =? 32) || (n =? 133) || (n =? 160).

Definition hex_digit (c : ascii) : option Z :=
  let n := code c in
  if (48 <=? n) && (n <=? 57) then Some (n - 48)
  else if (97 <=? n) && (n <=? 102) then Some (n - 87)
  else if (65 <=? n) && (n <=? 70) then Some (n - 55)
  else None.

(** The digit scan: digits and single underscores between them.  [prev_us]
    says the previous character was an underscore; the result is the value
    read and what is left of the text, or [None] on a doubled or trailing
    underscore. *)
Fixpoint scan_hex (prev_us : bool) (acc : Z) (s : pystr) : option (Z * pystr) :=
  match s with
  | [] => if prev_us then None else Some (acc, [])
  | c :: r =>
      if is_char "_" c then
        if prev_us then None else scan_hex true acc r
      else
        match hex_digit c with
        | Some d => scan_hex false (16 * acc + d) r
        | None => if prev_us then None else Some (acc, s)
        end
  end.

Definition int_base16 (s : pystr) : outcome Z :=
  let s := lstrip_while int_isspace s in
  let '(sign, s) :=
    match s with
    | c :: r => if is_char "+" c then (1, r)
                else if is_char "-" c then (-1, r) else (1, s)
    | [] => (1, s)
    end in
  let s :=
    match s with
    | z :: x :: r =>
        if is_char "0" z && (is_char "x" x || is_char "X" x) then
          match r with
          | u :: r' => if is_char "_" u then r' else r
          | [] => r
          end
        else s
    | _ => s
    end in
  match s with
  | [] => Raise ValueError
  | c :: _ =>
      if is_char "_" c then Raise ValueError
      else
        match scan_hex false 0 s with
        | None => Raise ValueError
        | Some (v, rest) =>
            if bool_decide (rest = s) then Raise ValueError
            else
              match lstrip_while int_isspace rest with
              | [] => Ok (sign * v)
              | _ => Raise ValueError
              end
        end
  end.

(** ** Colour normaliser ([scripts/vscode.py]) *)

Definition normalize_color (color : pystr) : pystr :=
  match color with
  | [] => []
  | _ => py_lstrip_hash (py_strip (py_lower color))
  end.

Definition strip_alpha (color : pystr) : pystr :=
  let normalized := normalize_color color in
  if (length normalized =? 8)%nat then take 6 normalized else normalized.

Definition hex_to_rgb (hex_color : pystr) : outcome (Z * Z * Z) :=
  let normalized := normalize_color hex_color in
  if (6 <=? length normalized)%nat then
    r ← int_base16 (slice 0 2 normalized);
    g ← int_base16 (slice 2 4 normalized);
    b ← int_base16 (slice 4 6 normalized);
    mret (r, g, b)
  else mret (0, 0, 0).

(** ** Distance engine *)

(** [float(n)] for an integer [0 <= n < 2^53], where it is exact. *)
Definition float_of_Z (n : Z) : float := PrimFloat.of_uint63 (Uint63.of_Z n).

Definition rgb_distance (color1 color2 : pystr) : outcome float :=
  '(r1, g1, b1) ← hex_to_rgb (strip_alpha color1);
  '(r2, g2, b2) ← hex_to_rgb (strip_alpha color2);
  mret (PrimFloat.sqrt
          (float_of_Z ((r1 - r2) ^ 2 + (g1 - g2) ^ 2 + (b1 - b2) ^ 2))).

(** ** Python dictionaries in insertion order *)

Abbreviation dict V := (list (list ascii * V)) (only parsing).

Fixpoint dict_get {V} (d : dict V) (k : pystr) : option V :=
  match d with
  | [] => None
  | (k', v) :: r => if pystr_eqb k' k then Some v else dict_get r k
  end.

(** [d[k] = v]: an existing key keeps its place, a new one goes last. *)
Fixpoint dict_set {V} (d : dict V) (k : pystr) (v : V) : dict V :=
  match d with
  | [] => [(k, v)]
  | (k', v') :: r => if pystr_eqb k' k then (k', v) :: r else (k', v') :: dict_set r k v
  end.

Definition dict_has {V} (d : dict V) (k : pystr) : bool :=
  match dict_get d k with Some _ => true | None => false end.

Definition dict_keys {V} (d : dict V) : list pystr := map fst d.

(** A well-formed dictionary has each key once. *)
Definition dict_wf {V} (d : dict V) : Prop := NoDup (dict_keys d).

(** ** JSON documents, as [json.load] returns them *)

Inductive json : Type :=
| JNull
| JBool (b : bool)
| JInt (n : Z)
| JFloat (f : float)
| JStr (s : list ascii)
| JArr (items : list json)
| JObj (items : list (list ascii * json)).

Section Engine.

(** The CIEDE2000 routine of the coloraide library,
    [Color(a).delta_e(Color(b), method="2000")]: [None] stands for any
    exception it raises (an unparsable colour). *)
Variable color_delta_e : pystr -> pystr -> option float.

Definition delta_e_distance (color1 color2 : pystr) : option float :=
  let c1 := strip_alpha color1 in
  let c2 := strip_alpha color2 in
  color_delta_e ("#" ++ c1) ("#" ++ c2).

(** ** Palette index *)

(** The state of the scan: [(closest_key, min_rgb_dist, min_delta_e)]. *)
Definition closest : Type := list ascii * float * option float.

Fixpoint closest_scan (target_stripped : pystr) (items : dict pystr)
    (st : closest) : outcome closest :=
  match items with
  | [] => mret st
  | (base16_key, base16_color) :: rest =>
      rgb_dist ← rgb_distance target_stripped base16_color;
      let '(_, min_rgb_dist, _) := st in
      if (rgb_dist <? min_rgb_dist)%float then
        closest_scan target_stripped rest
          (base16_key, rgb_dist, delta_e_distance target_stripped base16_color)
      else closest_scan target_stripped rest st
  end.

Definition find_closest_base16_color (target_color : pystr)
    (base16_palette : dict pystr) : outcome closest :=
  match base16_palette with
  | [] => mret (("unknown" : pystr), infinity, None)
  | _ =>
      let target_stripped := strip_alpha target_color in
      closest_scan target_stripped base16_palette (([] : pystr), infinity, None)
  end.

(** The scan state names a palette entry together with both of its
    distances to the target. *)
Definition tracks (target_stripped : pystr) (palette : dict pystr) (st : closest)
    : Prop :=
  exists color,
    In (fst (fst st), color) palette
    /\ rgb_distance target_stripped color = Ok (snd (fst st))
    /\ snd st = delta_e_distance target_stripped color.

(** ** Templatizer ([scripts/template_generator.py]) *)

Definition build_color_to_base16_map (base16_palette : dict pystr)
    : gmap (list ascii) (list ascii * bool) :=
  fold_left
    (fun color_map '(base16_key, color) =>
       <[normalize_color color := (base16_key, true)]> color_map)
    base16_palette ∅.

(** The f-string ["{{{{ {key} }}}}"]. *)
Definition placeholder (key : pystr) : pystr := "{{ " ++ key ++ " }}".

(** The placeholder followed by the alpha digits of an 8-character colour. *)
Definition with_alpha (key normalized : pystr) : pystr :=
  if (length normalized =? 8)%nat then placeholder key ++ slice 6 8 normalized
  else placeholder key.

Definition is_sentinel (color : pystr) : bool :=
  bool_decide (py_lower color ∈ [("#0000" : pystr); ("#00000000" : pystr)]).

(** ** The progress line of a fuzzy replacement

    [console.print] of the rich library reads its text as markup: a text in
    square brackets is a tag, [[dim]] opens a style, [[/dim]] closes the
    style of that name and [[/]] the style opened last; a closing tag with
    no style to close raises [MarkupError].  The line of the fuzzy branch,
    [f"  [dim]Replacing similar color {color} with {closest_key} (Delta E: {delta_e:.2f})[/dim]"],
    interpolates the colour and the slot name, so their brackets are read
    as markup too.  The number is written with digits, a sign and a point,
    or as [inf] or [nan]: it holds no bracket, and no tag can span it.

    [implicit_closes s] counts the tags [[/]] of a text whose opening
    brackets all belong to such a tag, none of them escaped by a backslash
    before it; it is [None] for a text with any other opening bracket. *)
Fixpoint implicit_closes (s : pystr) : option nat :=
  match s with
  | [] => Some 0%nat
  | c :: rest =>
      if is_char "[" c then
        match rest with
        | c1 :: c2 :: rest' =>
            if is_char "/" c1 && is_char "]" c2
            then S <$> implicit_closes rest'
            else None
        | _ => None
        end
      else if is_char "\" c then
        match rest with
        | c1 :: _ => if is_char "[" c1 then None else implicit_closes rest
        | [] => Some 0%nat
        end
      else implicit_closes rest
  end.

(** A text with no opening bracket adds no tag to the line. *)
Definition bracket_free (s : pystr) : bool :=
  forallb (fun c => negb (is_char "[" c)) s.

(** The [console.print] of the fuzzy branch.  With no tag but its own two
    the line is printed.  A tag [[/]] in the colour or in the slot name
    closes [[dim]], and the next closing tag (another [[/]], or the
    [[/dim]] that ends the line) has nothing to close.  Other brackets are
    outside the fragment: whether rich prints them or raises depends on its
    style names. *)
Definition print_replacing (color closest_key : pystr) : outcome unit :=
  match implicit_closes color, implicit_closes closest_key with
  | Some O, Some O => mret tt
  | Some _, Some _ => Raise MarkupError
  | _, _ => Raise OutsideFragment
  end.

Definition replace_color_with_variable (color : pystr)
    (color_map : gmap (list ascii) (list ascii * bool))
    (base16_palette : dict pystr) (threshold : option float) : outcome pystr :=
  match color with
  | [] => mret color
  | _ =>
    if is_sentinel color then mret color
    else
      let original_color := color in
      let normalized := normalize_color color in
      let stripped := strip_alpha color in
      match color_map !! stripped with
      | Some (base16_key, _) => mret (with_alpha base16_key normalized)
      | None =>
          match threshold with
          | Some t =>
              if (0 <? t)%float then
                '(closest_key, rgb_dist, delta_e) ←
                  find_closest_base16_color color base16_palette;
                match delta_e with
                | Some d =>
                    if (d <=? t)%float then
                      _ ← print_replacing color closest_key;
                      mret (with_alpha closest_key normalized)
                    else mret original_color
                | None => mret original_color
                end
              else mret original_color
          | None => mret original_color
          end
      end
  end.

(** ** Theme tree walker *)

Definition walk_items {A B} (f : A -> outcome B)
    : list (list ascii * A) -> outcome (list (list ascii * B)) :=
  fix walk l :=
    match l with
    | [] => mret []
    | (k, v) :: r => v' ← f v; r' ← walk r; mret ((k, v') :: r')
    end.

Definition walk_list {A B} (f : A -> outcome B) : list A -> outcome (list B) :=
  fix walk l :=
    match l with
    | [] => mret []
    | item :: r => item' ← f item; r' ← walk r; mret (item' :: r')
    end.

(** A dictionary has each key once, so the comprehension
    [{k: f(v) for k, v in value.items()}] rebuilds the items in order. *)
Fixpoint process_theme_value (value : json)
    (color_map : gmap (list ascii) (list ascii * bool))
    (base16_palette : dict pystr) (threshold : option float) : outcome json :=
  match value with
  | JStr s =>
      if startswith_hash s then
        JStr <$> replace_color_with_variable s color_map base16_palette threshold
      else mret value
  | JObj items =>
      JObj <$>
        walk_items
          (fun v => process_theme_value v color_map base16_palette threshold)
          items
  | JArr items =>
      JArr <$>
        walk_list
          (fun item => process_theme_value item color_map base16_palette threshold)
          items
  | _ => mret value
  end.

Definition generate_template (theme_data : dict json)
    (base16_palette : dict pystr) (threshold : option float)
    : outcome (dict json) :=
  let color_map := build_color_to_base16_map base16_palette in
  let template_data : dict json := [] in
  let template_data :=
    if dict_has theme_data "name"
    then dict_set template_data "name" (JStr "{{ theme_name }}")
    else template_data in
  let template_data :=
    if dict_has theme_data "type"
    then dict_set template_data "type" (JStr "{{ theme_type }}")
    else template_data in
  template_data ←
    match dict_get theme_data "colors" with
    | Some colors =>
        colors' ← process_theme_value colors color_map base16_palette threshold;
        mret (dict_set template_data "colors" colors')
    | None => mret template_data
    end;
  template_data ←
    match dict_get theme_data "tokenColors" with
    | Some token_colors =>
        token_colors' ←
          process_theme_value token_colors color_map base16_palette threshold;
        mret (dict_set template_data "tokenColors" token_colors')
    | None => mret template_data
    end;
  mret template_data.

End Engine.

(** ** Palette sources, as [yaml.safe_load] returns them

    Documents built from null, booleans, integers, strings and mappings with
    string keys. *)

Inductive yaml : Type :=
| YNull
| YBool (b : bool)
| YInt (n : Z)
| YStr (s : list ascii)
| YMap (items : list (list ascii * yaml)).

(** [repr(n)] of an integer. *)
Definition decimal (n : Z) : pystr := NilEmpty.string_of_int (Z.to_int n).

(** [str(v)], which a placeholder writes for the value bound to it. *)
Definition py_str (v : yaml) : outcome pystr :=
  match v with
  | YStr s => mret s
  | YNull => mret ("None" : pystr)
  | YBool true => mret ("True" : pystr)
  | YBool false => mret ("False" : pystr)
  | YInt n => mret (decimal n)
  | YMap _ => Raise OutsideFragment
  end.

(** [d.update(other)]: a mapping is merged key by key; an empty string has
    nothing to merge; a non-empty string yields one-character items and
    null, booleans and integers are not iterable. *)
Definition dict_update (d : dict yaml) (other : yaml) : outcome (dict yaml) :=
  match other with
  | YMap items => mret (fold_left (fun acc '(k, v) => dict_set acc k v) items d)
  | YStr [] => mret d
  | YStr _ => Raise ValueError
  | _ => Raise TypeError
  end.

(** [data.get(key, fallback)] *)
Definition dict_get_default {V} (d : dict V) (k : pystr) (fallback : V) : V :=
  match dict_get d k with Some v => v | None => fallback end.

(** ** Theme materializer ([scripts/theme_builder.py]) *)

(** [parse_base16_palette] after [yaml.safe_load]: [data] is the loaded
    mapping. *)
Definition parse_base16_palette (data : dict yaml) : outcome (dict yaml) :=
  let result : dict yaml :=
    [ (("theme_name" : pystr), dict_get_default data "name" (YStr "Unknown Theme"));
      (("theme_type" : pystr), dict_get_default data "variant" (YStr "dark")) ] in
  let palette := dict_get_default data "palette" (YMap []) in
  dict_update result palette.

(** [parse_base16_palette] of [scripts/vscode.py], which the templatizer
    uses: the palette sub-mapping alone. *)
Module vscode.
Definition parse_base16_palette (data : dict yaml) : yaml :=
  dict_get_default data "palette" (YMap []).
End vscode.

(** *** The Jinja2 environment and templates

    The part of Jinja2 the materializer relies on: templates made of literal
    text and [{{ name }}] placeholders.  Anything else in a template source
    (blocks, comments, expressions, whitespace control) is
    [OutsideFragment]. *)

Inductive undefined_kind : Type :=
| Undefined        (* the library default: an unbound name prints as nothing *)
| StrictUndefined. (* an unbound name raises when printed *)

Record Environment : Type := {
  trim_blocks : bool;
  lstrip_blocks : bool;
  undefined : undefined_kind
}.

Inductive node : Type :=
| TemplateData (data : list ascii)
| Name (name : list ascii).

Record Template : Type := {
  environment : Environment;
  body : list node
}.

(** The names every environment binds by itself; each prints as the text
    form of a Python object. *)
Definition DEFAULT_NAMESPACE : list pystr :=
  [ ("range" : pystr); ("dict" : pystr); ("lipsum" : pystr);
    ("cycler" : pystr); ("joiner" : pystr); ("namespace" : pystr) ].

(** Names the expression grammar reads as constants or operators, and
    [self]. *)
Definition reserved_names : list pystr :=
  [ ("true" : pystr); ("false" : pystr); ("True" : pystr); ("False" : pystr);
    ("none" : pystr); ("None" : pystr); ("not" : pystr); ("and" : pystr);
    ("or" : pystr); ("in" : pystr); ("is" : pystr); ("if" : pystr);
    ("else" : pystr); ("self" : pystr) ].

Definition CR : ascii := chr 13.
Definition LF : ascii := chr 10.

(** The lexer reads every line end as a line feed and drops one at the very
    end ([keep_trailing_newline] is off). *)
Fixpoint unify_newlines (s : pystr) : pystr :=
  match s with
  | [] => []
  | c :: r =>
      if is_char CR c then
        match r with
        | d :: r' => if is_char LF d then LF :: unify_newlines r'
                     else LF :: unify_newlines r
        | [] => [LF]
        end
      else c :: unify_newlines r
  end.

Definition drop_trailing_newline (s : pystr) : pystr :=
  match rev s with
  | c :: r => if is_char LF c then rev r else s
  | [] => s
  end.

Definition normalize_newlines (s : pystr) : pystr :=
  drop_trailing_newline (unify_newlines s).

Definition is_ident_start (c : ascii) : bool :=
  let n := code c in
  ((65 <=? n) && (n <=? 90)) || ((97 <=? n) && (n <=? 122)) || (n =? 95).

Definition is_ident_char (c : ascii) : bool :=
  is_ident_start c || ((48 <=? code c) && (code c <=? 57)).

(** Literal text is gathered into maximal runs. *)
Definition cons_data (c : ascii) (nodes : list node) : list node :=
  match nodes with
  | TemplateData d :: r => TemplateData (c :: d) :: r
  | _ => TemplateData [c] :: nodes
  end.

Inductive lex_state : Type :=
| InData
| TagOpen                          (* after the opening braces, before the name *)
| InName (rev_name : list ascii)   (* reading the name, kept reversed *)
| AfterName (name : list ascii).   (* after the name, before the closing braces *)

Definition close_tag (name : pystr) (rest : outcome (list node))
    : outcome (list node) :=
  if bool_decide (name ∈ reserved_names) then Raise OutsideFragment
  else cons (Name name) <$> rest.

Fixpoint lex (st : lex_state) (s : pystr) : outcome (list node) :=
  match s with
  | [] => match st with InData => mret [] | _ => Raise OutsideFragment end
  | c :: r =>
      match st with
      | InData =>
          if is_char "{" c then
            match r with
            | d :: r' =>
                if is_char "{" d then lex TagOpen r'
                else if is_char "%" d || is_char "#" d then Raise OutsideFragment
                else cons_data c <$> lex InData r
            | [] => cons_data c <$> lex InData r
            end
          else cons_data c <$> lex InData r
      | TagOpen =>
          if py_isspace c then lex TagOpen r
          else if is_ident_start c then lex (InName [c]) r
          else Raise OutsideFragment
      | InName acc =>
          if is_ident_char c then lex (InName (c :: acc)) r
          else if py_isspace c then lex (AfterName (rev acc)) r
          else if is_char "}" c then
            match r with
            | d :: r' =>
                if is_char "}" d then close_tag (rev acc) (lex InData r')
                else Raise OutsideFragment
            | [] => Raise OutsideFragment
            end
          else Raise OutsideFragment
      | AfterName name =>
          if py_isspace c then lex (AfterName name) r
          else if is_char "}" c then
            match r with
            | d :: r' =>
                if is_char "}" d then close_tag name (lex InData r')
                else Raise OutsideFragment
            | [] => Raise OutsideFragment
            end
          else Raise OutsideFragment
      end
  end.

(** [env.from_string(source)] *)
Definition from_string (env : Environment) (source : pystr) : outcome Template :=
  nodes ← lex InData (normalize_newlines source);
  mret {| environment := env; body := nodes |}.

(** [load_template]: [fs] gives the text of the file at a path, if there is
    one. *)
Definition load_template (fs : pystr -> option pystr) (template_path : pystr)
    : outcome Template :=
  match fs template_path with
  | None => Raise (TemplateNotFoundError template_path)
  | Some source =>
      let env := {| trim_blocks := true; lstrip_blocks := true;
                    undefined := Undefined |} in
      from_string env source
  end.

(** What [{{ name }}] prints: the value bound by the caller, before the
    environment's own names; an unbound name goes by the environment's
    [undefined]. *)
Definition resolve (env : Environment) (context : dict yaml) (name : pystr)
    : outcome pystr :=
  if pystr_eqb name "self" then Raise OutsideFragment
  else
    match dict_get context name with
    | Some v => py_str v
    | None =>
        if bool_decide (name ∈ DEFAULT_NAMESPACE) then Raise OutsideFragment
        else
          match undefined env with
          | Undefined => mret []
          | StrictUndefined => Raise (UndefinedError name)
          end
    end.

Definition render_node (env : Environment) (context : dict yaml) (n : node)
    : outcome pystr :=
  match n with
  | TemplateData d => mret d
  | Name name => resolve env context name
  end.

(** [template.render] once the keywords are bound. *)
Definition render (template : Template) (context : dict yaml) : outcome pystr :=
  parts ← walk_list (render_node (environment template) context) (body template);
  mret (concat parts).

(** [render_theme] calls [template.render] with the palette as keyword
    arguments: the keyword [self] collides with the method's own
    parameter, a [TypeError] raised before anything is rendered.  The keys
    of a [dict yaml] are strings and the placeholders of a [Template] are
    names: a mapping key that is not a string, and an expression inside a
    placeholder, which raise [TypeError] in Python too, are not in these
    types. *)
Definition render_theme (template : Template) (palette_data : dict yaml)
    : outcome pystr :=
  if dict_has palette_data "self" then Raise TypeError
  else render template palette_data.

(** ** Template text ([format_jinja2_template])

    [json.dumps(data, indent=4, ensure_ascii=False)]. *)

Definition hex_char (n : Z) : ascii :=
  if n <? 10 then chr (48 + n) else chr (87 + n).

Definition backslash : ascii := chr 92.
Definition dquote : ascii := chr 34.

(** One character inside a JSON string. *)
Definition escape_char (c : ascii) : pystr :=
  let n := code c in
  if n =? 34 then [backslash; dquote]
  else if n =? 92 then [backslash; backslash]
  else if n =? 8 then [backslash; "b"%char]
  else if n =? 12 then [backslash; "f"%char]
  else if n =? 10 then [backslash; "n"%char]
  else if n =? 13 then [backslash; "r"%char]
  else if n =? 9 then [backslash; "t"%char]
  else if n <? 32 then
    [backslash; "u"%char; "0"%char; "0"%char]
    ++ [hex_char (n / 16); hex_char (n mod 16)]
  else [c].

Definition quote : pystr := [dquote].

Definition encode_basestring (s : pystr) : pystr :=
  quote ++ concat (map escape_char s) ++ quote.

Definition newline_indent (level : nat) : pystr :=
  LF :: repeat " "%char (4 * level).

(** The items of a non-empty container, each on its own line. *)
Definition encode_block (open_ close_ : pystr) (level : nat) (items : list pystr)
    : pystr :=
  match items with
  | [] => open_ ++ close_
  | first :: rest =>
      open_ ++ newline_indent (S level) ++ first
      ++ concat (map (fun item => "," ++ newline_indent (S level) ++ item) rest)
      ++ newline_indent level ++ close_
  end.

Section Dumps.

(** The text [json.dumps] writes for a float: [float.__repr__], or [NaN],
    [Infinity], [-Infinity]. *)
Variable float_repr : float -> pystr.

Fixpoint encode (level : nat) (v : json) : pystr :=
  match v with
  | JNull => "null"
  | JBool true => "true"
  | JBool false => "false"
  | JInt n => decimal n
  | JFloat f => float_repr f
  | JStr s => encode_basestring s
  | JArr items => encode_block "[" "]" level (map (encode (S level)) items)
  | JObj items =>
      encode_block "{" "}" level
        (map (fun '(k, item) => encode_basestring k ++ ": " ++ encode (S level) item)
             items)
  end.

Definition format_jinja2_template (data : dict json) : pystr :=
  encode 0 (JObj data).

End Dumps.

(** ** Measures used in the statements *)

(** [check] holds at [count] consecutive integers from [n] on. *)
Fixpoint all_from (check : Z -> bool) (count : nat) (n : Z) : bool :=
  match count with
  | O => true
  | S count' => check n && all_from check count' (n + 1)
  end.

Definition finite_sqrt (n : Z) : bool :=
  (PrimFloat.sqrt (float_of_Z n) <? infinity)%float.

Definition all_ascii : list ascii := map ascii_of_nat (seq 0 256).

Definition two_digits_bounded (a b : ascii) : bool :=
  match int_base16 [a; b] with
  | Ok v => (-15 <=? v) && (v <=? 255)
  | Raise _ => true
  end.


(** [same_shape v v']: the two documents differ at most in strings that
    begin with [#]. *)
Inductive same_shape : json -> json -> Prop :=
| shape_null : same_shape JNull JNull
| shape_bool b : same_shape (JBool b) (JBool b)
| shape_int n : same_shape (JInt n) (JInt n)
| shape_float f : same_shape (JFloat f) (JFloat f)
| shape_str s s' :
    (startswith_hash s = false -> s' = s) -> same_shape (JStr s) (JStr s')
| shape_arr items items' :
    Forall2 same_shape items items' -> same_shape (JArr items) (JArr items')
| shape_obj items items' :
    Forall2 (fun kv kv' => fst kv = fst kv' /\ same_shape (snd kv) (snd kv'))
      items items' ->
    same_shape (JObj items) (JObj items').

(** A string occurrence, found by the child positions that lead to it. *)
Fixpoint leaf_at (path : list nat) (v : json) : option pystr :=
  match path, v with
  | [], JStr s => Some s
  | i :: p, JArr items => items !! i ≫= leaf_at p
  | i :: p, JObj items => items !! i ≫= fun kv => leaf_at p (snd kv)
  | _, _ => None
  end.

(** The number of string occurrences at which two documents of the same
    shape differ. *)
Definition sum_pairs {A} (f : A -> A -> nat) : list A -> list A -> nat :=
  fix go l l' :=
    match l, l' with
    | x :: r, x' :: r' => (f x x' + go r r')%nat
    | _, _ => O
    end.

Fixpoint changed (v v' : json) : nat :=
  match v, v' with
  | JStr s, JStr s' => if pystr_eqb s s' then 0%nat else 1%nat
  | JArr items, JArr items' => sum_pairs changed items items'
  | JObj items, JObj items' =>
      sum_pairs (fun kv kv' => changed (snd kv) (snd kv')) items items'
  | _, _ => O
  end.

(** What a placeholder node contributes to the output when it prints. *)
Definition node_text (context : dict yaml) (n : node) : pystr :=
  match n with
  | TemplateData d => d
  | Name name =>
      match dict_get context name with
      | Some v => match py_str v with Ok s => s | Raise _ => [] end
      | None => []
      end
  end.

(** A node the development can print: a placeholder is not [self], has a
    printable value when bound, and is not a default global when unbound. *)
Definition printable (context : dict yaml) (n : node) : Prop :=
  match n with
  | TemplateData _ => True
  | Name name =>
      name <> ("self" : pystr)
      /\ match dict_get context name with
         | Some v => returns (py_str v)
         | None => name ∉ DEFAULT_NAMESPACE
         end
  end.

(** ** Sample data for the scenarios *)

(** Stand-ins for the colour library: one that always fails, one that
    always answers [d]. *)
Definition delta_none : pystr -> pystr -> option float := fun _ _ => None.
Definition delta_const (d : float) : pystr -> pystr -> option float :=
  fun _ _ => Some d.

Definition rose_palette : dict pystr :=
  [ (("base08" : pystr), ("#eb6f92" : pystr));
    (("base0A" : pystr), ("#ea9a97" : pystr));
    (("base0B" : pystr), ("#3e8fb0" : pystr)) ].

Definition yaml_of_palette (palette : dict pystr) : yaml :=
  YMap (map (fun '(k, v) => (k, YStr v)) palette).

Definition rose_source : dict yaml :=
  [ (("name" : pystr), YStr "Rose Pine Moon");
    (("variant" : pystr), YStr "dark");
    (("palette" : pystr), yaml_of_palette rose_palette) ].

(** A file system with one file. *)
Definition single_file (path source : pystr) : pystr -> option pystr :=
  fun p => if pystr_eqb p path then Some source else None.

(** The environment [load_template] builds. *)
Definition loader_environment : Environment :=
  {| trim_blocks := true; lstrip_blocks := true; undefined := Undefined |}.

Definition accent_template : Template :=
  {| environment := loader_environment;
     body := [Name "theme_name"; TemplateData ": "; Name "accent"; TemplateData ";"] |}.

Definition rose_context : dict yaml :=
  [ (("theme_name" : pystr), YStr "Rose Pine Moon");
    (("theme_type" : pystr), YStr "dark");
    (("base08" : pystr), YStr "#eb6f92");
    (("base0A" : pystr), YStr "#ea9a97");
    (("base0B" : pystr), YStr "#3e8fb0") ].

(** ** Round trip through the template text *)

(** A character [json.dumps] writes as it is. *)
Definition json_verbatim (c : ascii) : bool :=
  (32 <=? code c) && negb (code c =? 34) && negb (code c =? 92).

(** A character that is written as it is and cannot start a Jinja tag. *)
Definition plain_char (c : ascii) : bool :=
  json_verbatim c && negb (is_char "{" c).

Definition plain (s : pystr) : Prop := Forall (fun c => plain_char c = true) s.

(** A name the lexer reads as a placeholder. *)
Definition jinja_name (name : pystr) : Prop :=
  match name with
  | [] => False
  | c :: r =>
      is_ident_start c = true
      /\ Forall (fun d => is_ident_char d = true) r
      /\ name ∉ reserved_names
  end.

(** The four fields of the template schema, in the order
    [generate_template] writes them. *)
Definition closed_schema (theme_data : dict json) : dict json :=
  let fields : dict json := [] in
  let fields :=
    match dict_get theme_data "name" with
    | Some name => dict_set fields "name" name
    | None => fields
    end in
  let fields :=
    match dict_get theme_data "type" with
    | Some type => dict_set fields "type" type
    | None => fields
    end in
  let fields :=
    match dict_get theme_data "colors" with
    | Some colors => dict_set fields "colors" colors
    | None => fields
    end in
  match dict_get theme_data "tokenColors" with
  | Some token_colors => dict_set fields "tokenColors" token_colors
  | None => fields
  end.

Definition schema_keys : list pystr :=
  [ ("name" : pystr); ("type" : pystr); ("colors" : pystr); ("tokenColors" : pystr) ].

(** Stand-in for the float printer in scenarios whose documents hold no
    float. *)
Definition sample_float_repr : float -> pystr := fun _ => ("0.0" : pystr).

(** Templatize, write the template text, load it, bind the palette. *)
Definition round_trip (color_delta_e : pystr -> pystr -> option float)
    (float_repr : float -> pystr) (theme_data : dict json)
    (base16_palette : dict pystr) (source : dict yaml) : outcome pystr :=
  template_data ← generate_template color_delta_e theme_data base16_palette None;
  let template_str := format_jinja2_template float_repr template_data in
  palette_data ← parse_base16_palette source;
  template ← load_template (single_file "generated-theme.json.j2" template_str)
                "generated-theme.json.j2";
  render_theme template palette_data.

Definition aliased_palette : dict pystr :=
  [ (("base0A" : pystr), ("#ea9a97" : pystr));
    (("base0F" : pystr), ("#EA9A97" : pystr)) ].

Definition aliased_source : dict yaml :=
  [ (("name" : pystr), YStr "Rose");
    (("variant" : pystr), YStr "dark");
    (("palette" : pystr), yaml_of_palette aliased_palette) ].

Definition cursor_theme (color : pystr) : dict json :=
  [ (("name" : pystr), JStr "Rose");
    (("type" : pystr), JStr "dark");
    (("colors" : pystr), JObj [(("editorCursor.foreground" : pystr), JStr color)]) ].

(** Lexing a source and rendering the result. *)
Definition render_source (env : Environment) (context : dict yaml)
    (source : pystr) : outcome pystr :=
  nodes ← lex InData source;
  render {| environment := env; body := nodes |} context.

(** Text in which no brace opens a tag: each [{] is followed by a character
    other than [{], [%] and [#]. *)
Fixpoint inert (s : pystr) : bool :=
  match s with
  | [] => true
  | c :: r =>
      if is_char "{" c then
        match r with
        | d :: _ => negb (is_char "{" d || is_char "%" d || is_char "#" d) && inert r
        | [] => false
        end
      else inert r
  end.

(** [written], read at the start of a template source, prints [printed]
    and leaves the rest of the source to be read as before. *)
Definition renders_as (env : Environment) (context : dict yaml)
    (written printed : pystr) : Prop :=
  forall rest,
    render_source env context (written ++ rest)
    = app printed <$> render_source env context rest.

(** Checks over every character, run once. *)
Definition escape_has_no_cr (c : ascii) : bool :=
  forallb (fun d => negb (is_char CR d)) (escape_char c).

Definition verbatim_is_kept (c : ascii) : bool :=
  implb (json_verbatim c) (bool_decide (escape_char c = [c])).

Definition ident_is_verbatim (c : ascii) : bool :=
  implb (is_ident_char c) (json_verbatim c && negb (py_isspace c)).

Definition plain_is_quiet (c : ascii) : bool :=
  implb (plain_char c) (json_verbatim c && negb (is_char "{" c) && negb (is_char CR c)).

Definition brace_free (s : pystr) : Prop := Forall (fun c => is_char "{" c = false) s.
Definition no_cr (s : pystr) : Prop := Forall (fun c => is_char CR c = false) s.
Definition verbatim (s : pystr) : Prop := Forall (fun c => json_verbatim c = true) s.

(** What [json.dumps] writes for a string, between the quotes. *)
Definition escaped (s : pystr) : pystr := concat (map escape_char s).

(** A key or string whose JSON text opens no Jinja tag: in the text
    between the quotes (the closing one included) no brace is followed by
    a brace, a percent sign or a hash.  Quotes, backslashes, control
    characters and single braces are allowed. *)
Definition quiet (s : pystr) : Prop := inert (encode_basestring s) = true.

(** The slot [replace_color_with_variable] puts in the place of a colour
    when there is no threshold: the one the exact index binds to the
    alpha-stripped colour, for a colour that is neither empty nor a
    sentinel. *)
Definition exact_slot (palette : dict pystr) (color : pystr) : option pystr :=
  match color with
  | [] => None
  | _ =>
      if is_sentinel color then None
      else fst <$> (build_color_to_base16_map palette !! strip_alpha color)
  end.

(** The alpha digits [with_alpha] writes after the placeholder. *)
Definition alpha_digits (color : pystr) : pystr :=
  let normalized := normalize_color color in
  if (length normalized =? 8)%nat then slice 6 8 normalized else [].

(** A string of the theme that the round trip gives back.  A string the
    templatizer keeps (one that does not begin with [#], a sentinel, a
    colour with no exact match) has a quiet JSON text.  A colour with an
    exact match is spelled as the palette spells the matched slot's value,
    followed by the colour's own alpha digits as the normaliser leaves
    them; the slot has a placeholder name, [json.dumps] writes the slot's
    value as it is, and the alpha digits open no Jinja tag. *)
Definition restored (palette : dict pystr) (s : pystr) : Prop :=
  match (if startswith_hash s then exact_slot palette s else None) with
  | Some key =>
      jinja_name key
      /\ exists value,
           dict_get palette key = Some value
           /\ verbatim value
           /\ s = value ++ alpha_digits s
           /\ inert (escaped (alpha_digits s) ++ quote) = true
  | None => quiet s
  end.

(** A document whose keys are quiet and whose strings are restored. *)
Inductive restorable (palette : dict pystr) : json -> Prop :=
| restorable_null : restorable palette JNull
| restorable_bool b : restorable palette (JBool b)
| restorable_int n : restorable palette (JInt n)
| restorable_float f : restorable palette (JFloat f)
| restorable_str s : restored palette s -> restorable palette (JStr s)
| restorable_arr items :
    Forall (restorable palette) items -> restorable palette (JArr items)
| restorable_obj items :
    Forall (fun kv => quiet (fst kv) /\ restorable palette (snd kv)) items ->
    restorable palette (JObj items).

(** A metadata field of the theme, when present, is a string whose JSON
    text is what the placeholder prints for the value the binding context
    holds under [placeholder_name]. *)
Definition metadata_restored (theme_data : dict json) (field : pystr)
    (context : dict yaml) (placeholder_name : pystr) : Prop :=
  forall v, dict_get theme_data field = Some v ->
    exists s bound,
      v = JStr s
      /\ dict_get context placeholder_name = Some bound
      /\ py_str bound = Ok (escaped s).

(** A section of the theme, when present, is restorable. *)
Definition section_restorable (palette : dict pystr) (theme_data : dict json)
    (field : pystr) : Prop :=
  forall v, dict_get theme_data field = Some v -> restorable palette v.

(** A theme with an alpha colour, a colour of no slot, a sentinel and a
    text with quotes, a backslash and braces. *)
Definition mixed_theme : dict json :=
  [ (("name" : pystr), JStr "Rose Pine Moon");
    (("type" : pystr), JStr "dark");
    (("colors" : pystr),
     JObj [ (("editorCursor.foreground" : pystr), JStr "#ea9a97e6");
            (("editor.background" : pystr), JStr "#123456");
            (("widget.shadow" : pystr), JStr "#0000");
            (("a {key}" : pystr),
             JStr (("say " : pystr) ++ [dquote] ++ ("hi" : pystr) ++ [dquote]
                   ++ (" to {x} and a\b" : pystr))) ]);
    (("tokenColors" : pystr),
     JArr [ JObj [ (("scope" : pystr), JStr "comment");
                   (("settings" : pystr),
                    JObj [(("foreground" : pystr), JStr "#3e8fb0")]) ] ]) ].

(** A field that may be absent, as a dictionary of at most one item. *)
Definition opt_field {V} (key : pystr) (value : option V) : dict V :=
  match value with
  | Some v => [(key, v)]
  | None => []
  end.

(** The fields [generate_template] writes, given its two walked sections. *)
Definition template_fields (theme_data : dict json) (colors tokens : option json)
    : dict json :=
  opt_field "name"
    ((fun _ => JStr (placeholder "theme_name")) <$> dict_get theme_data "name")
  ++ opt_field "type"
       ((fun _ => JStr (placeholder "theme_type")) <$> dict_get theme_data "type")
  ++ opt_field "colors" colors
  ++ opt_field "tokenColors" tokens.

(** The walk of a section that may be absent. *)
Definition process_section (color_delta_e : pystr -> pystr -> option float)
    (section : option json) (base16_palette : dict pystr)
    (threshold : option float) : outcome (option json) :=
  match section with
  | Some v =>
      Some <$> process_theme_value color_delta_e v
                 (build_color_to_base16_map base16_palette) base16_palette threshold
  | None => mret None
  end.

(** A palette whose one slot is named by the console tag [[/]], and a theme
    with the colour of that slot and a colour near it. *)
Definition tag_palette : dict pystr :=
  [ (("[/]" : pystr), ("#ea9a97" : pystr)) ].

Definition near_miss_theme : dict json :=
  [ (("colors" : pystr),
     JObj [ (("editorCursor.foreground" : pystr), JStr "#ea9a97");
            (("editor.foreground" : pystr), JStr "#ee9e9b") ]) ].

Definition cursor_colors (color : pystr) : json :=
  JObj [(("editorCursor.foreground" : pystr), JStr color)].

Definition cursor_template (color : pystr) : dict json :=
  [ (("name" : pystr), JStr "{{ theme_name }}");
    (("type" : pystr), JStr "{{ theme_type }}");
    (("colors" : pystr), cursor_colors color) ].

Definition rose_theme : dict json :=
  [ (("name" : pystr), JStr "Rose Pine Moon");
    (("type" : pystr), JStr "dark");
    (("colors" : pystr),
     JObj [ (("editor.background" : pystr), JStr "#ea9a97");
            (("errorForeground" : pystr), JStr "#eb6f92");
            (("editor.tabSize" : pystr), JInt 4);
            (("semanticHighlighting" : pystr), JBool true) ]);
    (("tokenColors" : pystr),
     JArr [ JObj [ (("scope" : pystr), JArr [JStr "string"; JStr "string.quoted"]);
                   (("settings" : pystr),
                    JObj [(("foreground" : pystr), JStr "#3e8fb0")]) ] ]) ].
(** * The rest of the scripts

    The colour analyzer of [scripts/vscode.py] ([color_for_display],
    [parse_vscode_theme], [build_color_frequency_map],
    [map_vscode_to_base16], [_build_summary_text]), the output name
    [scripts/theme_builder.py] derives, and the repository address
    [scripts/fetcher.py] reads. *)

(** ** Colour display ([scripts/vscode.py]) *)

Definition color_for_display (color : pystr) : pystr :=
  match color with
  | [] => "#000000"
  | _ =>
      if pystr_eqb (py_lower color) "#0000" then "#000000"
      else
        let stripped := strip_alpha color in
        match stripped with
        | [] => "#000000"
        | _ => "#" ++ stripped
        end
  end.

(** ** Well-formed colours *)

(** A string of hexadecimal digits, and the number it writes. *)
Definition hex_digits (s : pystr) : Prop :=
  Forall (fun c => is_Some (hex_digit c)) s.

Definition hex_value (s : pystr) : Z :=
  fold_left (fun acc c => 16 * acc + default 0 (hex_digit c)) s 0.

(** Checks over every character or pair of characters, run once. *)
Definition digit_pair_decodes (a b : ascii) : bool :=
  match hex_digit a, hex_digit b with
  | Some x, Some y =>
      match int_base16 [a; b] with
      | Ok v => v =? 16 * x + y
      | Raise _ => false
      end
  | _, _ => true
  end.

Definition digit_lowers (c : ascii) : bool :=
  match hex_digit c with
  | Some d =>
      match hex_digit (lower_char c) with
      | Some d' => (d =? d') && (0 <=? d) && (d <=? 15)
      | None => false
      end
      && negb (py_isspace (lower_char c)) && negb (is_char "#" (lower_char c))
  | None => true
  end.

Definition lower_twice (c : ascii) : bool :=
  bool_decide (lower_char (lower_char c) = lower_char c).

(** The largest distance between two colours of six digits. *)
Definition black_white : float := PrimFloat.sqrt (float_of_Z 195075).

Definition sqrt_in_range (n : Z) : bool :=
  (PrimFloat.sqrt (float_of_Z n) <=? black_white)%float.

Definition sqrt_positive (n : Z) : bool :=
  (0 <=? PrimFloat.sqrt (float_of_Z n))%float
  && ((n =? 0) || (0 <? PrimFloat.sqrt (float_of_Z n))%float).

(** ** Theme colours by key path ([parse_vscode_theme])

    The values of a loaded theme are used as Python uses them: a test
    [key in value], a subscript [value[key]], an iteration, a join.  What
    raises [AttributeError] or [KeyError] in Python (exceptions [exn] does
    not list) is [OutsideFragment] here. *)

Fixpoint startswith (prefix s : pystr) : bool :=
  match prefix, s with
  | [], _ => true
  | p :: prefix', c :: r => is_char p c && startswith prefix' r
  | _ :: _, [] => false
  end.

(** [needle in s] for two strings. *)
Fixpoint contains_text (needle s : pystr) : bool :=
  startswith needle s
  || match s with
     | [] => false
     | _ :: r => contains_text needle r
     end.

(** [key in container]: a key of an object, an item of an array, a part of
    a string; nothing else can be searched. *)
Definition contains (container : json) (key : pystr) : outcome bool :=
  match container with
  | JObj items => mret (dict_has items key)
  | JArr items =>
      mret (existsb (fun v => match v with
                              | JStr s => pystr_eqb s key
                              | _ => false
                              end) items)
  | JStr s => mret (contains_text key s)
  | _ => Raise TypeError
  end.

(** [container[key]] for a string [key]: only an object has such items. *)
Definition subscript (container : json) (key : pystr) : outcome json :=
  match container with
  | JObj items =>
      match dict_get items key with
      | Some v => mret v
      | None => Raise OutsideFragment
      end
  | _ => Raise TypeError
  end.

(** [container.get(key, fallback)] *)
Definition get_default (container : json) (key : pystr) (fallback : json)
    : outcome json :=
  match container with
  | JObj items => mret (dict_get_default items key fallback)
  | _ => Raise OutsideFragment
  end.

(** [for item in value]: the items of an array, the keys of an object, the
    characters of a string. *)
Definition iterate (value : json) : outcome (list json) :=
  match value with
  | JArr items => mret items
  | JObj items => mret (map (fun kv => JStr (fst kv)) items)
  | JStr s => mret (map (fun c => JStr [c]) s)
  | _ => Raise TypeError
  end.

(** [sep.join(parts)] *)
Definition join (sep : pystr) (parts : list pystr) : pystr :=
  match parts with
  | [] => []
  | first :: rest => first ++ concat (map (app sep) rest)
  end.

Definition as_str (v : json) : outcome pystr :=
  match v with
  | JStr s => mret s
  | _ => Raise TypeError
  end.

(** [scope_str]: a string scope stands for the list that holds it alone;
    an empty or null scope gives the token's position. *)
Definition scope_str (scope : json) (idx : nat) : outcome pystr :=
  let position : pystr := "token[" ++ decimal (Z.of_nat idx) ++ "]" in
  match scope with
  | JStr s => mret (join ", " [s])
  | JArr [] => mret position
  | JArr items => parts ← walk_list as_str items; mret (join ", " parts)
  | JObj [] => mret position
  | JObj items => mret (join ", " (dict_keys items))
  | JNull => mret position
  | JBool b => if b then Raise TypeError else mret position
  | JInt n => if n =? 0 then mret position else Raise TypeError
  | JFloat f => if (f =? 0)%float then mret position else Raise TypeError
  end.

(** The colour entries of the [colors] section: the strings that begin
    with [#]. *)
Definition scan_colors (colors : dict json) (color_map : dict json) : dict json :=
  fold_left
    (fun color_map '(key, value) =>
       match value with
       | JStr s =>
           if startswith_hash s then dict_set color_map ("colors." ++ key) value
           else color_map
       | _ => color_map
       end)
    colors color_map.

(** One entry of [tokenColors], at position [idx]. *)
Definition scan_token (idx : nat) (token : json) (color_map : dict json)
    : outcome (dict json) :=
  has_settings ← contains token "settings";
  if has_settings : bool then
    settings ← subscript token "settings";
    scope ← get_default token "scope" (JArr []);
    scope_text ← scope_str scope idx;
    has_foreground ← contains settings "foreground";
    color_map ←
      (if has_foreground : bool then
         foreground ← subscript settings "foreground";
         mret (dict_set color_map
                 ("tokenColors[" ++ scope_text ++ "].foreground") foreground)
       else mret color_map);
    has_background ← contains settings "background";
    if has_background : bool then
      background ← subscript settings "background";
      mret (dict_set color_map
              ("tokenColors[" ++ scope_text ++ "].background") background)
    else mret color_map
  else mret color_map.

Fixpoint scan_tokens (idx : nat) (tokens : list json) (color_map : dict json)
    : outcome (dict json) :=
  match tokens with
  | [] => mret color_map
  | token :: rest =>
      color_map ← scan_token idx token color_map;
      scan_tokens (S idx) rest color_map
  end.

(** [parse_vscode_theme] after [json.load]: [theme] is the loaded object. *)
Definition parse_vscode_theme (theme : dict json) : outcome (dict json) :=
  let color_map : dict json := [] in
  color_map ←
    match dict_get theme "colors" with
    | Some (JObj colors) => mret (scan_colors colors color_map)
    | Some _ => Raise OutsideFragment
    | None => mret color_map
    end;
  match dict_get theme "tokenColors" with
  | Some token_colors =>
      tokens ← iterate token_colors;
      scan_tokens 0 tokens color_map
  | None => mret color_map
  end.

(** A theme of the shape the editor documents: [colors] an object,
    [tokenColors] an array of objects whose [settings] is an object and
    whose [scope] is a string or an array of strings. *)
Definition schema_scope (scope : json) : Prop :=
  match scope with
  | JStr _ => True
  | JArr items => Forall (fun v => exists s, v = JStr s) items
  | _ => False
  end.

Definition schema_token (token : json) : Prop :=
  match token with
  | JObj items =>
      match dict_get items "settings" with
      | Some (JObj _) | None => True
      | Some _ => False
      end
      /\ match dict_get items "scope" with
         | Some scope => schema_scope scope
         | None => True
         end
  | _ => False
  end.

Definition schema_theme (theme : dict json) : Prop :=
  match dict_get theme "colors" with
  | Some (JObj _) | None => True
  | Some _ => False
  end
  /\ match dict_get theme "tokenColors" with
     | Some (JArr tokens) => Forall schema_token tokens
     | Some _ => False
     | None => True
     end.

(** The two forms of key the analyzer writes. *)
Definition colors_key (k : pystr) : Prop := exists key : pystr, k = "colors." ++ key.

Definition token_key (k : pystr) : Prop :=
  exists scope : pystr,
    k = "tokenColors[" ++ scope ++ "].foreground"
    \/ k = "tokenColors[" ++ scope ++ "].background".

(** ** Colour usage ([build_color_frequency_map], [map_vscode_to_base16]) *)

(** [d[k].append(x)] on a [defaultdict(list)]. *)
Definition dict_append {V} (d : dict (list V)) (k : pystr) (x : V) : dict (list V) :=
  dict_set d k (dict_get_default d k [] ++ [x]).

Definition build_color_frequency_map (vscode_colors : dict pystr)
    : dict (list pystr) :=
  fold_left
    (fun frequency_map '(key, color) =>
       let normalized := normalize_color color in
       match normalized with
       | [] => frequency_map
       | _ => dict_append frequency_map normalized key
       end)
    vscode_colors [].

(** The palette read backwards, from normalised colour to slot. *)
Definition base16_lookup (base16_palette : dict pystr)
    : gmap (list ascii) (list ascii) :=
  fold_left
    (fun lookup '(base16_key, color) => <[normalize_color color := base16_key]> lookup)
    base16_palette ∅.

(** One theme colour: into the bucket of its slot, or among the unmapped. *)
Definition map_entry (lookup : gmap (list ascii) (list ascii))
    (state : dict (list (list ascii * list ascii)) * list (list ascii * list ascii))
    (entry : list ascii * list ascii)
    : dict (list (list ascii * list ascii)) * list (list ascii * list ascii) :=
  let '(mapping, unmapped) := state in
  let '(vscode_key, color) := entry in
  let normalized := normalize_color color in
  match lookup !! normalized with
  | Some base16_key => (dict_append mapping base16_key (vscode_key, color), unmapped)
  | None =>
      let stripped := strip_alpha color in
      match stripped, lookup !! stripped with
      | _ :: _, Some base16_key =>
          (dict_append mapping base16_key (vscode_key, color), unmapped)
      | _, _ => (mapping, unmapped ++ [(vscode_key, color)])
      end
  end.

Definition map_vscode_to_base16 (vscode_colors base16_palette : dict pystr)
    : dict (list (list ascii * list ascii)) :=
  let lookup := base16_lookup base16_palette in
  let '(mapping, unmapped) :=
    fold_left (map_entry lookup) vscode_colors ([], []) in
  match unmapped with
  | [] => mapping
  | _ => dict_set mapping "unmapped" unmapped
  end.

(** Theme colours by key path, for the scenarios. *)
Definition rose_colors : dict pystr :=
  [ (("colors.editor.background" : pystr), ("#ea9a97" : pystr));
    (("colors.errorForeground" : pystr), ("#eb6f92" : pystr));
    (("colors.editorCursor.foreground" : pystr), ("#EA9A97e6" : pystr));
    (("colors.focusBorder" : pystr), ("#123456" : pystr));
    (("tokenColors[string].foreground" : pystr), ("#3e8fb0" : pystr)) ].

(** ** The output file name ([main] of [scripts/theme_builder.py])

    The name [main] gives the rendered theme: the one asked for on the
    command line, else the palette's [slug], else the theme name in lower
    case with dashes for spaces and no apostrophe; [.json] ends it. *)

(** [s.endswith(suffix)] *)
Definition endswith (suffix s : pystr) : bool := startswith (rev suffix) (rev s).

(** Python truth of a loaded YAML value. *)
Definition yaml_truthy (v : yaml) : bool :=
  match v with
  | YNull => false
  | YBool b => b
  | YInt n => negb (n =? 0)
  | YStr s => match s with [] => false | _ => true end
  | YMap items => match items with [] => false | _ => true end
  end.

(** [s.replace(old, new)] for a one-character [old]. *)
Definition replace_char (old : ascii) (new : pystr) (s : pystr) : pystr :=
  concat (map (fun c => if is_char old c then new else [c]) s).

(** [arg] is [args.output_name] ([None] when the option is not given),
    [data] the palette source read again, [palette_data] the binding
    context.  A theme name that is not a string has no [lower] method
    ([AttributeError]): [OutsideFragment]. *)
Definition output_name (arg : option pystr) (data palette_data : dict yaml)
    : outcome pystr :=
  match arg with
  | Some ((_ :: _) as output_name) =>
      if endswith ".json" output_name then mret output_name
      else mret (output_name ++ ".json")
  | _ =>
      let slug := dict_get_default data "slug" YNull in
      if yaml_truthy slug then
        slug_text ← py_str slug;
        mret (slug_text ++ ".json")
      else
        match dict_get palette_data "theme_name" with
        | Some (YStr name) =>
            mret (replace_char "'" [] (replace_char " " "-" (py_lower name))
                  ++ ".json")
        | _ => Raise OutsideFragment
        end
  end.

(** ** The repository address ([GitHubRepo] of [scripts/fetcher.py]) *)

Module fetcher.

Record GitHubRepo : Type := {
  owner : list ascii;
  repo : list ascii;
  ref : list ascii;
  path : list ascii
}.

(** The longest run of characters that satisfy [p] at the start of [s], and
    what follows it: what a greedy character class matches when the next
    part of the pattern cannot begin with a character of the class. *)
Fixpoint span (p : ascii -> bool) (s : pystr) : pystr * pystr :=
  match s with
  | [] => ([], [])
  | c :: r =>
      if p c then let '(run, rest) := span p r in (c :: run, rest)
      else ([], s)
  end.

(** A literal part of the pattern. *)
Fixpoint literal (text s : pystr) : option pystr :=
  match text, s with
  | [], _ => Some s
  | t :: text', c :: r => if is_char t c then literal text' r else None
  | _ :: _, [] => None
  end.

(** The class [[^/]] and the dot, which matches all but a line feed. *)
Definition not_slash (c : ascii) : bool := negb (is_char "/" c).
Definition dot (c : ascii) : bool := negb (is_char LF c).

(** [GitHubRepo(url)]: [re.match] of
    [https://github\.com/([^/]+)/([^/]+)/tree/([^/]+)/(.+)] at the start
    of [url]; the four groups are the fields. *)
Definition GitHubRepo_init (url : pystr) : outcome GitHubRepo :=
  match literal "https://github.com/" url with
  | None => Raise ValueError
  | Some s =>
      let '(owner, s) := span not_slash s in
      match owner, literal "/" s with
      | _ :: _, Some s =>
          let '(repo, s) := span not_slash s in
          match repo, literal "/tree/" s with
          | _ :: _, Some s =>
              let '(ref, s) := span not_slash s in
              match ref, literal "/" s with
              | _ :: _, Some s =>
                  let '(path, _) := span dot s in
                  match path with
                  | _ :: _ =>
                      mret {| owner := owner; repo := repo; ref := ref; path := path |}
                  | [] => Raise ValueError
                  end
              | _, _ => Raise ValueError
              end
          | _, _ => Raise ValueError
          end
      | _, _ => Raise ValueError
      end
  end.

Definition REPO_PATH : pystr :=
  "https://github.com/tinted-theming/schemes/tree/spec-0.11/base16".

(** A group [[^/]+], and the group [.+]. *)
Definition segment (s : pystr) : Prop :=
  s <> [] /\ Forall (fun c => not_slash c = true) s.

Definition line (s : pystr) : Prop :=
  s <> [] /\ Forall (fun c => dot c = true) s.

End fetcher.

(** ** The summary of the analysis ([_build_summary_text]) *)

(** [sum(len(v) for v in buckets)] *)
Definition sum_len {A} (buckets : list (list A)) : nat :=
  fold_left (fun acc v => (acc + length v)%nat) buckets 0%nat.

(** [l.sort(key=lambda x: len(x[1]), reverse=True)]: the sort is stable, so
    an item goes after the items at least as long that came before it. *)
Fixpoint insert_by_len {A B} (x : A * list B) (sorted : list (A * list B))
    : list (A * list B) :=
  match sorted with
  | [] => [x]
  | y :: rest =>
      if (length (snd y) <? length (snd x))%nat then x :: sorted
      else y :: insert_by_len x rest
  end.

Definition sort_by_len {A B} (l : list (A * list B)) : list (A * list B) :=
  fold_left (fun sorted x => insert_by_len x sorted) l [].

(** The unmapped colours, each once, with the first key that uses it. *)
Definition unique_colors (unmapped : list (list ascii * list ascii))
    : list (list ascii * list ascii) :=
  fold_left
    (fun unmapped_colors '(key, color) =>
       if existsb (pystr_eqb color) (map fst unmapped_colors) then unmapped_colors
       else unmapped_colors ++ [(color, key)])
    unmapped [].

(** [f"{n}"] for a count. *)
Definition count_text (n : nat) : pystr := decimal (Z.of_nat n).

Section Summary.

Variable color_delta_e : pystr -> pystr -> option float.

(** [(similar_count, different_count)] after the colours of
    [unmapped_colors]. *)
Fixpoint count_similar (unmapped_colors : list (list ascii * list ascii))
    (base16_palette : dict pystr) (counts : nat * nat) : outcome (nat * nat) :=
  match unmapped_colors with
  | [] => mret counts
  | (color, _) :: rest =>
      '(_, _, delta_e) ← find_closest_base16_color color_delta_e color base16_palette;
      let '(similar_count, different_count) := counts in
      count_similar rest base16_palette
        match delta_e with
        | Some d =>
            if (d <? 10)%float then (S similar_count, different_count)
            else (similar_count, S different_count)
        | None => counts
        end
  end.

Definition _build_summary_text (base16_palette : dict pystr)
    (vscode_to_base16 : dict (list (list ascii * list ascii)))
    (frequency_map : dict (list (list ascii))) : outcome pystr :=
  let total_vscode_keys := sum_len (map snd vscode_to_base16) in
  let mapped_keys :=
    sum_len (map snd (filter (fun kv => fst kv <> ("unmapped" : pystr))
                        vscode_to_base16)) in
  let unmapped_keys := length (dict_get_default vscode_to_base16 "unmapped" []) in
  let base16_used :=
    length (filter (fun k => dict_has vscode_to_base16 k = true
                             /\ k <> ("unmapped" : pystr))
              (dict_keys base16_palette)) in
  let base16_total := length base16_palette in
  let repeated :=
    sort_by_len (filter (fun kv => (1 < length (snd kv))%nat) frequency_map) in
  let unmapped_colors :=
    match dict_get vscode_to_base16 "unmapped" with
    | Some unmapped => unique_colors unmapped
    | None => []
    end in
  '(similar_count, different_count) ←
    count_similar unmapped_colors base16_palette (0%nat, 0%nat);
  let lines : list pystr :=
    [ "Total VS Code theme keys: " ++ count_text total_vscode_keys;
      "Mapped to base16: " ++ count_text mapped_keys;
      "Unmapped colors: " ++ count_text unmapped_keys;
      ([] : pystr);
      "Base16 palette colors used: " ++ count_text base16_used ++ "/"
      ++ count_text base16_total ] in
  let lines :=
    match unmapped_colors with
    | [] => lines
    | _ =>
        let unique_unmapped := length unmapped_colors in
        lines
        ++ [ ([] : pystr);
             ("Unmapped color similarity:" : pystr);
             "  - Similar (Delta E < 10): " ++ count_text similar_count ++ "/"
             ++ count_text unique_unmapped;
             "  - Different (Delta E >= 10): " ++ count_text different_count ++ "/"
             ++ count_text unique_unmapped ]
    end in
  let lines := lines ++ [ ([] : pystr); ("Most repeated colors:" : pystr) ] in
  let lines :=
    lines
    ++ map (fun '(color, keys) =>
              "  - #" ++ color ++ ": used " ++ count_text (length keys) ++ " times")
         (take 3 repeated) in
  mret (join [LF] lines).

End Summary.

(** The summary of the sample analysis, line by line. *)
Definition rose_summary : list (list ascii) :=
  [ ("Total VS Code theme keys: 5" : pystr);
    ("Mapped to base16: 4" : pystr);
    ("Unmapped colors: 1" : pystr);
    ([] : pystr);
    ("Base16 palette colors used: 3/3" : pystr);
    ([] : pystr);
    ("Unmapped color similarity:" : pystr);
    ("  - Similar (Delta E < 10): 0/1" : pystr);
    ("  - Different (Delta E >= 10): 0/1" : pystr);
    ([] : pystr);
    ("Most repeated colors:" : pystr) ].

(** A palette with a slot called [unmapped]. *)
Definition unmapped_palette : dict pystr :=
  [ (("unmapped" : pystr), ("#eb6f92" : pystr)) ].

(** A colour of six hexadecimal digits, with or without a [#] before them
    and further digits after them. *)
Definition well_formed (color : pystr) : Prop :=
  exists h rest : pystr,
    (color = "#" ++ h ++ rest \/ color = h ++ rest)
    /\ hex_digits h /\ length h = 6%nat /\ hex_digits rest.

(** * Properties *)

(** ** Sanity checks of the embedding *)

Example lower_mixed : py_lower "#EA9a97" = ("#ea9a97" : pystr).
Proof. reflexivity. Qed.

Example normalize_blank : normalize_color "  #Ea9A97 " = ("ea9a97" : pystr).
Proof. reflexivity. Qed.

Example normalize_hashes : normalize_color "##ea9a97" = ("ea9a97" : pystr).
Proof. reflexivity. Qed.

Example int_base16_cases :
  int_base16 "fF" = Ok 255 /\ int_base16 " a" = Ok 10 /\ int_base16 "-a" = Ok (-10)
  /\ int_base16 "0x" = Raise ValueError /\ int_base16 "0x_1f " = Ok 31
  /\ int_base16 "1_" = Raise ValueError /\ int_base16 "1__0" = Raise ValueError
  /\ int_base16 "1_0" = Ok 16 /\ int_base16 "zz" = Raise ValueError.
Proof. repeat split; reflexivity. Qed.

Example hex_to_rgb_rose : hex_to_rgb "#ea9a97" = Ok (234, 154, 151).
Proof. reflexivity. Qed.

Example hex_to_rgb_short : hex_to_rgb "#fff" = Ok (0, 0, 0).
Proof. reflexivity. Qed.

Example rgb_distance_black_white :
  rgb_distance "#000000" "#ffffff" = Ok (PrimFloat.sqrt 195075%float).
Proof. vm_compute. reflexivity. Qed.

(** ** Colour normaliser *)

Lemma length_lstrip_while p s : (length (lstrip_while p s) <= length s)%nat.
Proof.
  induction s as [|c r IH]; simpl; [lia|].
  destruct (p c); simpl; lia.
Qed.

(** C5, as stated, fails: a normalised colour of nine digits is at least
    eight long, and [strip_alpha] returns it whole instead of its first six
    digits. *)
Lemma strip_alpha_keeps_nine_digits :
  (8 <= length (normalize_color "#ea9a97e6f"))%nat
  /\ strip_alpha "#ea9a97e6f" = ("ea9a97e6f" : pystr)
  /\ take 6 (normalize_color "#ea9a97e6f") = ("ea9a97" : pystr).
Proof. repeat split; vm_compute; lia. Qed.

(** C5, amended: [strip_alpha] normalises its argument and keeps the first
    six characters when the normalised colour is exactly eight characters
    long; any other normalised colour, longer ones included, is returned as
    it is. *)
Theorem strip_alpha_exactly_eight (color : pystr) :
  (length (normalize_color color) = 8%nat ->
     strip_alpha color = take 6 (normalize_color color)
     /\ length (strip_alpha color) = 6%nat)
  /\ (length (normalize_color color) <> 8%nat ->
     strip_alpha color = normalize_color color).
Proof.
  unfold strip_alpha. split; intros H.
  - rewrite H. simpl. split; [reflexivity|].
    rewrite length_take. lia.
  - destruct (Nat.eqb_spec (length (normalize_color color)) 8); [contradiction|reflexivity].
Qed.

(** C1: a colour whose digits are not hexadecimal makes [hex_to_rgb] raise
    [ValueError], and [rgb_distance] with it, where the claim has the black
    triple; with a threshold the error ends the whole tree walk.  A
    too-short colour does decode to black. *)
Theorem hex_to_rgb_non_hex_raises :
  hex_to_rgb "#zzzzzz" = Raise ValueError
  /\ rgb_distance "#zzzzzz" "#000000" = Raise ValueError
  /\ process_theme_value (delta_const 1.5)
       (JArr [JStr "#ea9a97"; JStr "#zzzzzz"])
       (build_color_to_base16_map rose_palette) rose_palette (Some 5%float)
     = Raise ValueError
  /\ hex_to_rgb "#fff" = Ok (0, 0, 0).
Proof. repeat split; vm_compute; reflexivity. Qed.

(** ** Order of binary64 numbers *)

Ltac compare_cases :=
  repeat match goal with
  | |- context [Z.compare ?a ?b] => destruct (Z.compare_spec a b); subst
  | H : context [Z.compare ?a ?b] |- _ => destruct (Z.compare_spec a b); subst
  | |- context [Pos.compare_cont Eq ?a ?b] =>
      change (Pos.compare_cont Eq a b) with (Pos.compare a b);
      destruct (Pos.compare_spec a b); subst
  | H : context [Pos.compare_cont Eq ?a ?b] |- _ =>
      change (Pos.compare_cont Eq a b) with (Pos.compare a b) in H;
      destruct (Pos.compare_spec a b); subst
  end; simpl in *; try discriminate; try reflexivity; try lia.

Lemma SFleb_trans a b c :
  SFleb a b = true -> SFleb b c = true -> SFleb a c = true.
Proof.
  unfold SFleb.
  destruct a as [[|]|[|]| |[|] ma ea], b as [[|]|[|]| |[|] mb eb],
    c as [[|]|[|]| |[|] mc ec];
    simpl; try discriminate; try reflexivity; intros H1 H2; compare_cases.
Qed.

Lemma SFltb_leb_trans a b c :
  SFltb a b = true -> SFleb b c = true -> SFltb a c = true.
Proof.
  unfold SFleb, SFltb.
  destruct a as [[|]|[|]| |[|] ma ea], b as [[|]|[|]| |[|] mb eb],
    c as [[|]|[|]| |[|] mc ec];
    simpl; try discriminate; try reflexivity; intros H1 H2; compare_cases.
Qed.

Lemma float_leb_trans (a b c : float) :
  (a <=? b)%float = true -> (b <=? c)%float = true -> (a <=? c)%float = true.
Proof. rewrite !FloatAxioms.leb_spec. apply SFleb_trans. Qed.

Lemma float_ltb_leb_trans (a b c : float) :
  (a <? b)%float = true -> (b <=? c)%float = true -> (a <? c)%float = true.
Proof. rewrite !FloatAxioms.ltb_spec, !FloatAxioms.leb_spec. apply SFltb_leb_trans. Qed.

(** ** The RGB distance is a finite number

    Two-character slices decode to a value between -15 ("-f") and 255, so
    the sum of squares stays below 218701; each square root in that range
    is checked to be below infinity. *)

Lemma all_from_spec check count :
  forall n m, all_from check count n = true ->
    n <= m < n + Z.of_nat count -> check m = true.
Proof.
  induction count as [|count IH]; intros n m H Hm; [lia|].
  simpl in H. apply andb_true_iff in H as [H1 H2].
  destruct (Z.eq_dec m n) as [->|Hne]; [exact H1|].
  apply (IH (n + 1)); [exact H2|lia].
Qed.

Lemma finite_sqrt_checked : all_from finite_sqrt (Z.to_nat 218701) 0 = true.
Proof. vm_compute. reflexivity. Qed.

Lemma finite_sqrt_below n : 0 <= n <= 218700 -> finite_sqrt n = true.
Proof.
  intros Hn.
  apply (all_from_spec finite_sqrt (Z.to_nat 218701) 0); [apply finite_sqrt_checked|].
  rewrite Z2Nat.id; lia.
Qed.

Lemma in_all_ascii (a : ascii) : In a all_ascii.
Proof.
  unfold all_ascii. apply in_map_iff. exists (nat_of_ascii a). split.
  - apply ascii_nat_embedding.
  - apply in_seq. pose proof (nat_ascii_bounded a). lia.
Qed.

Lemma two_digits_checked :
  forallb (fun a => forallb (two_digits_bounded a) all_ascii) all_ascii = true.
Proof. vm_compute. reflexivity. Qed.

Lemma int_base16_two_digits a b v :
  int_base16 [a; b] = Ok v -> -15 <= v <= 255.
Proof.
  intros H. pose proof two_digits_checked as Hall.
  rewrite forallb_forall in Hall. specialize (Hall a (in_all_ascii a)).
  rewrite forallb_forall in Hall. specialize (Hall b (in_all_ascii b)).
  unfold two_digits_bounded in Hall. rewrite H in Hall. lia.
Qed.

Lemma hex_to_rgb_bounds s r g b :
  hex_to_rgb s = Ok (r, g, b) ->
  -15 <= r <= 255 /\ -15 <= g <= 255 /\ -15 <= b <= 255.
Proof.
  unfold hex_to_rgb. destruct (Nat.leb_spec 6 (length (normalize_color s))) as [Hlen|Hlen].
  - destruct (normalize_color s) as [|c0 [|c1 [|c2 [|c3 [|c4 [|c5 rest]]]]]];
      simpl in Hlen; try lia.
    unfold slice; simpl. rewrite take_0.
    destruct (int_base16 [c0; c1]) as [r'|] eqn:Hr; simpl; [|easy].
    destruct (int_base16 [c2; c3]) as [g'|] eqn:Hg; simpl; [|easy].
    destruct (int_base16 [c4; c5]) as [b'|] eqn:Hb; simpl; [|easy].
    intros [= <- <- <-].
    repeat split; eapply int_base16_two_digits; eassumption.
  - intros [= <- <- <-]. lia.
Qed.

Lemma channel_gap_bound a b :
  -15 <= a <= 255 -> -15 <= b <= 255 -> 0 <= (a - b) ^ 2 <= 72900.
Proof.
  intros Ha Hb. rewrite Z.pow_2_r.
  assert (Hd : -270 <= a - b <= 270) by lia.
  revert Hd. generalize (a - b). intros d Hd. nia.
Qed.

Lemma rgb_distance_finite a b d :
  rgb_distance a b = Ok d -> (d <? infinity)%float = true.
Proof.
  unfold rgb_distance.
  destruct (hex_to_rgb (strip_alpha a)) as [[[r1 g1] b1]|] eqn:H1; simpl; [|easy].
  destruct (hex_to_rgb (strip_alpha b)) as [[[r2 g2] b2]|] eqn:H2; simpl; [|easy].
  intros [= <-].
  apply hex_to_rgb_bounds in H1 as (Hr1 & Hg1 & Hb1).
  apply hex_to_rgb_bounds in H2 as (Hr2 & Hg2 & Hb2).
  apply finite_sqrt_below.
  pose proof (channel_gap_bound r1 r2 Hr1 Hr2).
  pose proof (channel_gap_bound g1 g2 Hg1 Hg2).
  pose proof (channel_gap_bound b1 b2 Hb1 Hb2).
  lia.
Qed.

(** ** Induction on documents *)

Lemma json_ind' (P : json -> Prop)
  (Hnull : P JNull)
  (Hbool : forall b, P (JBool b))
  (Hint : forall n, P (JInt n))
  (Hfloat : forall f, P (JFloat f))
  (Hstr : forall s, P (JStr s))
  (Harr : forall items, Forall P items -> P (JArr items))
  (Hobj : forall items, Forall (fun kv => P (snd kv)) items -> P (JObj items)) :
  forall v, P v.
Proof.
  fix IH 1. intros [| | | | |items|items].
  - exact Hnull.
  - apply Hbool.
  - apply Hint.
  - apply Hfloat.
  - apply Hstr.
  - apply Harr. induction items as [|x r IHr]; constructor; [apply IH|exact IHr].
  - apply Hobj. induction items as [|[k x] r IHr]; constructor; [apply IH|exact IHr].
Qed.

Lemma walk_list_lookup {A B} (f : A -> outcome B) l l' :
  walk_list f l = Ok l' ->
  length l' = length l
  /\ forall i x, l !! i = Some x -> exists x', l' !! i = Some x' /\ f x = Ok x'.
Proof.
  revert l'. induction l as [|x r IH]; simpl; intros l' H.
  - injection H as <-. split; [reflexivity|]. intros i y Hy. destruct i; discriminate.
  - destruct (f x) as [x'|] eqn:Hx; simpl in H; [|discriminate].
    destruct (walk_list f r) as [r'|] eqn:Hr; simpl in H; [|discriminate].
    injection H as <-. destruct (IH r' eq_refl) as [Hlen Hat]. split.
    + simpl. congruence.
    + intros [|i] y Hy; simpl in *.
      * injection Hy as <-. eauto.
      * eauto.
Qed.

Lemma walk_items_lookup {A B} (f : A -> outcome B) l l' :
  walk_items f l = Ok l' ->
  map fst l' = map fst l
  /\ forall i k x, l !! i = Some (k, x) ->
       exists x', l' !! i = Some (k, x') /\ f x = Ok x'.
Proof.
  revert l'. induction l as [|[k x] r IH]; simpl; intros l' H.
  - injection H as <-. split; [reflexivity|]. intros i k y Hy. destruct i; discriminate.
  - destruct (f x) as [x'|] eqn:Hx; simpl in H; [|discriminate].
    destruct (walk_items f r) as [r'|] eqn:Hr; simpl in H; [|discriminate].
    injection H as <-. destruct (IH r' eq_refl) as [Hkeys Hat]. split.
    + simpl. congruence.
    + intros [|i] k0 y Hy; simpl in *.
      * injection Hy as <- <-. eauto.
      * eauto.
Qed.

Lemma walk_list_total {A B} (f : A -> outcome B) l :
  Forall (fun x => returns (f x)) l -> returns (walk_list f l).
Proof.
  induction 1 as [|x r [x' Hx] _ [r' Hr]]; simpl.
  - eexists; reflexivity.
  - rewrite Hx; simpl. rewrite Hr; simpl. eexists; reflexivity.
Qed.

Lemma walk_items_total {A B} (f : A -> outcome B) l :
  Forall (fun kv => returns (f (snd kv))) l -> returns (walk_items f l).
Proof.
  induction 1 as [|[k x] r [x' Hx] _ [r' Hr]]; simpl in *.
  - eexists; reflexivity.
  - rewrite Hx; simpl. rewrite Hr; simpl. eexists; reflexivity.
Qed.


(** ** The template as a list of fields *)

Lemma generate_template_sections color_delta_e theme_data palette threshold :
  generate_template color_delta_e theme_data palette threshold
  = (colors ← process_section color_delta_e (dict_get theme_data "colors")
               palette threshold;
     tokens ← process_section color_delta_e (dict_get theme_data "tokenColors")
               palette threshold;
     mret (template_fields theme_data colors tokens)).
Proof.
  unfold generate_template, process_section, template_fields, dict_has.
  destruct (dict_get theme_data "name"), (dict_get theme_data "type");
    (destruct (dict_get theme_data "colors") as [colors|];
     [destruct (process_theme_value color_delta_e colors
                  (build_color_to_base16_map palette) palette threshold) as [colors'|];
      [|reflexivity]|]);
    (destruct (dict_get theme_data "tokenColors") as [tokens|];
     [destruct (process_theme_value color_delta_e tokens
                  (build_color_to_base16_map palette) palette threshold) as [tokens'|];
      [|reflexivity]|]);
    reflexivity.
Qed.

Lemma generate_template_fields color_delta_e theme_data palette threshold template_data :
  generate_template color_delta_e theme_data palette threshold = Ok template_data ->
  exists colors tokens,
    process_section color_delta_e (dict_get theme_data "colors") palette threshold
    = Ok colors
    /\ process_section color_delta_e (dict_get theme_data "tokenColors") palette threshold
       = Ok tokens
    /\ template_data = template_fields theme_data colors tokens.
Proof.
  rewrite generate_template_sections.
  destruct (process_section color_delta_e (dict_get theme_data "colors") palette threshold)
    as [colors|]; [|discriminate].
  destruct (process_section color_delta_e (dict_get theme_data "tokenColors")
              palette threshold) as [tokens|]; [|discriminate].
  intros [= <-]. eauto.
Qed.

Lemma template_fields_sections theme_data colors tokens :
  dict_get (template_fields theme_data colors tokens) "colors" = colors
  /\ dict_get (template_fields theme_data colors tokens) "tokenColors" = tokens.
Proof.
  unfold template_fields.
  destruct (dict_get theme_data "name"), (dict_get theme_data "type"),
    colors, tokens; split; reflexivity.
Qed.

Section EngineFacts.

Variable color_delta_e : pystr -> pystr -> option float.

Local Abbreviation find_closest := (find_closest_base16_color color_delta_e).
Local Abbreviation replace_color := (replace_color_with_variable color_delta_e).
Local Abbreviation process := (process_theme_value color_delta_e).
Local Abbreviation tracks := (tracks color_delta_e).

(** ** Nearest slot *)

Lemma closest_scan_tracks target palette items :
  forall st res,
    (forall entry, In entry items -> In entry palette) ->
    tracks target palette st ->
    closest_scan color_delta_e target items st = Ok res ->
    tracks target palette res.
Proof.
  induction items as [|[key color] rest IH]; simpl; intros st res Hsub Hst Hres.
  - injection Hres as <-. exact Hst.
  - destruct (rgb_distance target color) as [d|] eqn:Hd; simpl in Hres; [|discriminate].
    destruct st as [[k0 d0] de0].
    destruct (d <? d0)%float.
    + eapply IH; [| |exact Hres].
      * intros entry Hentry. apply Hsub. now right.
      * exists color. simpl. repeat split; [|exact Hd].
        apply Hsub. now left.
    + eapply IH; [| exact Hst |exact Hres].
      intros entry Hentry. apply Hsub. now right.
Qed.

Lemma closest_scan_from_infinity target palette key0 de0 res :
  palette <> [] ->
  closest_scan color_delta_e target palette (key0, infinity, de0) = Ok res ->
  tracks target palette res.
Proof.
  destruct palette as [|[key color] rest]; [congruence|]. intros _. simpl.
  destruct (rgb_distance target color) as [d|] eqn:Hd; simpl; [|discriminate].
  rewrite (rgb_distance_finite _ _ _ Hd). intros Hres.
  eapply closest_scan_tracks; [| |exact Hres].
  - intros entry Hentry. now right.
  - exists color. simpl. repeat split; [now left|exact Hd].
Qed.

Lemma closest_scan_total target items :
  forall st,
    Forall (fun entry => returns (rgb_distance target (snd entry))) items ->
    returns (closest_scan color_delta_e target items st).
Proof.
  induction items as [|[key color] rest IH]; simpl; intros st Hall.
  - eexists; reflexivity.
  - inversion Hall as [|? ? [d Hd] Hrest]; subst. simpl in Hd. rewrite Hd. simpl.
    destruct st as [[k0 d0] de0]. destruct (d <? d0)%float; apply IH; exact Hrest.
Qed.

(** C9: on a non-empty palette, whatever [find_closest_base16_color]
    returns names a palette entry, and both distances it returns are the
    distances between the alpha-stripped target and that very entry: the
    perceptual one is [delta_e_distance] of the two ([None] when that
    computation fails).  The function does return whenever every palette
    colour has an RGB distance to the target. *)
Theorem closest_distances_belong_to_key (target : pystr) (palette : dict pystr)
    (key : pystr) (rgb_dist : float) (delta_e : option float) :
  palette <> [] ->
  find_closest target palette = Ok (key, rgb_dist, delta_e) ->
  (exists color,
     In (key, color) palette
     /\ rgb_distance (strip_alpha target) color = Ok rgb_dist
     /\ delta_e = delta_e_distance color_delta_e (strip_alpha target) color)
  /\ (forall target' : pystr,
        Forall (fun entry =>
                  returns (rgb_distance (strip_alpha target') (snd entry))) palette ->
        returns (find_closest target' palette)).
Proof.
  intros Hne Hres. split.
  - unfold find_closest_base16_color in Hres.
    destruct palette as [|entry rest] eqn:Hpal; [congruence|]. rewrite <- Hpal in *.
    apply closest_scan_from_infinity in Hres; [|exact Hne].
    exact Hres.
  - intros target' Hall. unfold find_closest_base16_color.
    destruct palette as [|entry rest] eqn:Hpal; [congruence|]. rewrite <- Hpal in *.
    apply closest_scan_total. exact Hall.
Qed.

(** ** Sentinel tokens *)

(** C8: a colour that reads [#0000] or [#00000000] once lower-cased comes
    back unchanged, whatever the index, the palette and the threshold. *)
Theorem sentinel_passthrough (color : pystr)
    (color_map : gmap (list ascii) (list ascii * bool))
    (palette : dict pystr) (threshold : option float) :
  py_lower color = ("#0000" : pystr) \/ py_lower color = ("#00000000" : pystr) ->
  replace_color color color_map palette threshold = Ok color.
Proof.
  intros Hs. unfold replace_color_with_variable.
  destruct color as [|c r]; [reflexivity|].
  assert (is_sentinel (c :: r) = true) as ->; [|reflexivity].
  unfold is_sentinel. apply bool_decide_eq_true.
  destruct Hs as [-> | ->]; set_solver.
Qed.

(** ** Templatizer: one colour *)

(** Closes a goal whose hypothesis [H] says a colour was returned as it
    came, against the assumption that it changed. *)
Ltac same_ok H := cbv [mret outcome_ret] in H; congruence.

Lemma replace_no_threshold_returns color color_map palette :
  returns (replace_color color color_map palette None).
Proof.
  unfold replace_color_with_variable.
  destruct color as [|c r]; [eexists; reflexivity|].
  destruct (is_sentinel (c :: r)); [eexists; reflexivity|].
  destruct (color_map !! strip_alpha (c :: r)) as [[k b]|]; eexists; reflexivity.
Qed.

Lemma replace_empty_palette color threshold :
  replace_color color ∅ [] threshold = Ok color.
Proof.
  unfold replace_color_with_variable.
  destruct color as [|c r]; [reflexivity|].
  destruct (is_sentinel (c :: r)); [reflexivity|].
  rewrite lookup_empty.
  destruct threshold as [t|]; [|reflexivity].
  destruct (0 <? t)%float; reflexivity.
Qed.

Lemma replace_exact color color_map palette threshold key flag :
  color_map !! strip_alpha color = Some (key, flag) ->
  replace_color color color_map palette threshold
  = replace_color color color_map palette None.
Proof.
  intros Hexact. unfold replace_color_with_variable.
  destruct color as [|c r]; [reflexivity|].
  destruct (is_sentinel (c :: r)); [reflexivity|].
  rewrite Hexact. reflexivity.
Qed.

Lemma replace_fuzzy color color_map palette threshold r :
  replace_color color color_map palette threshold = Ok r ->
  r <> color ->
  color_map !! strip_alpha color = None ->
  exists t key rgb_dist delta_e,
    threshold = Some t /\ (0 <? t)%float = true
    /\ find_closest color palette = Ok (key, rgb_dist, Some delta_e)
    /\ (delta_e <=? t)%float = true
    /\ r = with_alpha key (normalize_color color).
Proof.
  unfold replace_color_with_variable. intros Hres Hne Hmiss.
  destruct color as [|c0 r0]; [same_ok Hres|].
  destruct (is_sentinel (c0 :: r0)); [same_ok Hres|].
  rewrite Hmiss in Hres.
  destruct threshold as [t|]; [|same_ok Hres].
  destruct (0 <? t)%float eqn:Hpos; [|same_ok Hres].
  destruct (find_closest (c0 :: r0) palette) as [[[key d] de]|] eqn:Hclosest;
    simpl in Hres; [|discriminate].
  destruct de as [de|]; [|same_ok Hres].
  destruct (de <=? t)%float eqn:Hle; [|same_ok Hres].
  destruct (print_replacing (c0 :: r0) key) as [[]|]; simpl in Hres; [|discriminate].
  injection Hres as <-. exists t, key, d, de. auto.
Qed.

Lemma implicit_closes_free (s : pystr) :
  bracket_free s = true -> implicit_closes s = Some 0%nat.
Proof.
  induction s as [|c rest IH]; [reflexivity|].
  unfold bracket_free. cbn [forallb]. intros [Hc Hrest]%andb_prop.
  cbn [implicit_closes]. apply negb_true_iff in Hc. rewrite Hc.
  destruct (is_char "\" c); [|exact (IH Hrest)].
  destruct rest as [|c1 rest']; [reflexivity|].
  pose proof Hrest as Hfree. cbn [forallb] in Hrest.
  apply andb_prop in Hrest as [Hc1 _]. apply negb_true_iff in Hc1.
  rewrite Hc1. exact (IH Hfree).
Qed.

Lemma print_replacing_free (color closest_key : pystr) :
  bracket_free color = true -> bracket_free closest_key = true ->
  print_replacing color closest_key = Ok tt.
Proof.
  intros Hcolor Hkey. unfold print_replacing.
  rewrite (implicit_closes_free _ Hcolor), (implicit_closes_free _ Hkey).
  reflexivity.
Qed.

(** A nearest slot with a perceptual distance is a slot of the palette. *)
Lemma find_closest_key target palette key rgb_dist delta_e :
  find_closest target palette = Ok (key, rgb_dist, Some delta_e) ->
  exists color, In (key, color) palette.
Proof.
  unfold find_closest_base16_color.
  destruct palette as [|entry rest] eqn:Hpal; [discriminate|].
  rewrite <- Hpal. intros Hres.
  apply closest_scan_from_infinity in Hres as (color & Hin & _);
    [|rewrite Hpal; discriminate].
  exists color. exact Hin.
Qed.

(** Two runs that return agree on what the lower threshold rewrites. *)
Lemma replace_monotone color color_map palette (t1 t2 : float) r r2 :
  (0 <? t1)%float = true -> (t1 <=? t2)%float = true ->
  replace_color color color_map palette (Some t1) = Ok r ->
  replace_color color color_map palette (Some t2) = Ok r2 ->
  r <> color -> r2 = r.
Proof.
  intros Hpos Hle. pose proof (float_ltb_leb_trans _ _ _ Hpos Hle) as Hpos2.
  unfold replace_color_with_variable.
  destruct color as [|c0 r0]; [congruence|].
  destruct (is_sentinel (c0 :: r0)); [congruence|].
  destruct (color_map !! strip_alpha (c0 :: r0)) as [[k b]|]; [congruence|].
  rewrite Hpos, Hpos2.
  destruct (find_closest (c0 :: r0) palette) as [[[key d] de]|]; simpl; [|discriminate].
  destruct de as [de|]; [|intros H1 _ Hne; same_ok H1].
  destruct (de <=? t1)%float eqn:H1; [|intros Hr _ Hne; same_ok Hr].
  rewrite (float_leb_trans _ _ _ H1 Hle). congruence.
Qed.

(** The higher threshold prints at most one more line for the colour: the
    run returns when that line holds no bracket of the colour's or of the
    slot's. *)
Lemma replace_returns_above color color_map palette (t1 t2 : float) r :
  (0 <? t1)%float = true -> (t1 <=? t2)%float = true ->
  replace_color color color_map palette (Some t1) = Ok r ->
  bracket_free color = true ->
  Forall (fun entry => bracket_free (fst entry) = true) palette ->
  returns (replace_color color color_map palette (Some t2)).
Proof.
  intros Hpos Hle Hrun Hcolor Hkeys.
  pose proof (float_ltb_leb_trans _ _ _ Hpos Hle) as Hpos2.
  revert Hrun. unfold replace_color_with_variable.
  destruct color as [|c0 r0]; [eexists; reflexivity|].
  destruct (is_sentinel (c0 :: r0)); [eexists; reflexivity|].
  destruct (color_map !! strip_alpha (c0 :: r0)) as [[k b]|]; [eexists; reflexivity|].
  rewrite Hpos, Hpos2.
  destruct (find_closest (c0 :: r0) palette) as [[[key d] de]|] eqn:Hclosest;
    simpl; [|discriminate].
  intros _. destruct de as [de|]; [|eexists; reflexivity].
  destruct (de <=? t2)%float; [|eexists; reflexivity].
  destruct (find_closest_key _ _ _ _ _ Hclosest) as (slot & Hin).
  rewrite List.Forall_forall in Hkeys.
  pose proof (Hkeys _ Hin) as Hkey. simpl in Hkey.
  rewrite (print_replacing_free _ _ Hcolor Hkey).
  eexists; reflexivity.
Qed.

(** ** Theme tree walker *)

Lemma process_leaf value color_map palette threshold value' :
  process value color_map palette threshold = Ok value' ->
  forall path s,
    leaf_at path value = Some s ->
    exists s',
      leaf_at path value' = Some s'
      /\ if startswith_hash s
         then replace_color s color_map palette threshold = Ok s'
         else s' = s.
Proof.
  intros Hrun path. revert value value' Hrun.
  induction path as [|i path IH]; intros value value' Hrun s Hleaf.
  - destruct value; simpl in Hleaf; try discriminate. injection Hleaf as ->.
    simpl in Hrun. destruct (startswith_hash s) eqn:Hs.
    + destruct (replace_color s color_map palette threshold) as [s'|];
        simpl in Hrun; [|discriminate].
      injection Hrun as <-. eauto.
    + injection Hrun as <-. eauto.
  - destruct value as [| | | | |items|items]; simpl in Hleaf; try discriminate.
    + simpl in Hrun.
      destruct (walk_list _ items) as [items'|] eqn:Hwalk; simpl in Hrun; [|discriminate].
      injection Hrun as <-.
      destruct (items !! i) as [x|] eqn:Hx; simpl in Hleaf; [|discriminate].
      apply walk_list_lookup in Hwalk as [_ Hat].
      destruct (Hat i x Hx) as (x' & Hx' & Hrunx).
      destruct (IH x x' Hrunx s Hleaf) as (s' & Hs' & Hrel).
      exists s'. simpl. rewrite Hx'. simpl. auto.
    + simpl in Hrun.
      destruct (walk_items _ items) as [items'|] eqn:Hwalk; simpl in Hrun; [|discriminate].
      injection Hrun as <-.
      destruct (items !! i) as [[k x]|] eqn:Hx; simpl in Hleaf; [|discriminate].
      apply walk_items_lookup in Hwalk as [_ Hat].
      destruct (Hat i k x Hx) as (x' & Hx' & Hrunx).
      destruct (IH x x' Hrunx s Hleaf) as (s' & Hs' & Hrel).
      exists s'. simpl. rewrite Hx'. simpl. auto.
Qed.

Lemma walk_list_related {A B} (f : A -> outcome B) (R : A -> B -> Prop) l :
  Forall (fun x => forall x', f x = Ok x' -> R x x') l ->
  forall l', walk_list f l = Ok l' -> Forall2 R l l'.
Proof.
  induction 1 as [|x r Hx _ IH]; simpl; intros l' Hl'.
  - injection Hl' as <-. constructor.
  - destruct (f x) as [x'|] eqn:Hfx; simpl in Hl'; [|discriminate].
    destruct (walk_list f r) as [r'|]; simpl in Hl'; [|discriminate].
    injection Hl' as <-. constructor; auto.
Qed.

Lemma walk_items_related {A B} (f : A -> outcome B) (R : A -> B -> Prop) l :
  Forall (fun kv => forall x', f (snd kv) = Ok x' -> R (snd kv) x') l ->
  forall l', walk_items f l = Ok l' ->
    Forall2 (fun kv kv' => fst kv = fst kv' /\ R (snd kv) (snd kv')) l l'.
Proof.
  induction 1 as [|[k x] r Hx _ IH]; simpl in *; intros l' Hl'.
  - injection Hl' as <-. constructor.
  - destruct (f x) as [x'|] eqn:Hfx; simpl in Hl'; [|discriminate].
    destruct (walk_items f r) as [r'|]; simpl in Hl'; [|discriminate].
    injection Hl' as <-. constructor; auto.
Qed.

Lemma walk_list_fixed {A} (f : A -> outcome A) l :
  Forall (fun x => f x = Ok x) l -> walk_list f l = Ok l.
Proof.
  induction 1 as [|x r Hx _ IH]; simpl; [reflexivity|].
  rewrite Hx. simpl. rewrite IH. reflexivity.
Qed.

Lemma walk_items_fixed {A} (f : A -> outcome A) l :
  Forall (fun kv => f (snd kv) = Ok (snd kv)) l -> walk_items f l = Ok l.
Proof.
  induction 1 as [|[k x] r Hx _ IH]; simpl in *; [reflexivity|].
  rewrite Hx. simpl. rewrite IH. reflexivity.
Qed.

Lemma process_same_shape color_map palette threshold value :
  forall value',
    process value color_map palette threshold = Ok value' ->
    same_shape value value'.
Proof.
  induction value as [| | | |s|items IH|items IH] using json_ind';
    simpl; intros value' Hrun.
  - injection Hrun as <-. constructor.
  - injection Hrun as <-. constructor.
  - injection Hrun as <-. constructor.
  - injection Hrun as <-. constructor.
  - destruct (startswith_hash s) eqn:Hs.
    + destruct (replace_color s color_map palette threshold) as [s'|];
        simpl in Hrun; [|discriminate].
      injection Hrun as <-. constructor. congruence.
    + injection Hrun as <-. constructor. reflexivity.
  - destruct (walk_list _ items) as [items'|] eqn:Hwalk; simpl in Hrun; [|discriminate].
    injection Hrun as <-. constructor.
    eapply walk_list_related; [|exact Hwalk]. exact IH.
  - destruct (walk_items _ items) as [items'|] eqn:Hwalk; simpl in Hrun; [|discriminate].
    injection Hrun as <-. constructor.
    eapply (walk_items_related _ same_shape); [|exact Hwalk]. exact IH.
Qed.

Lemma process_no_threshold_returns color_map palette value :
  returns (process value color_map palette None).
Proof.
  induction value as [| | | |s|items IH|items IH] using json_ind'; simpl;
    try (eexists; reflexivity).
  - destruct (startswith_hash s); [|eexists; reflexivity].
    destruct (replace_no_threshold_returns s color_map palette) as [s' ->].
    eexists; reflexivity.
  - destruct (walk_list_total
                (fun v => process v color_map palette None) items IH) as [items' ->].
    eexists; reflexivity.
  - destruct (walk_items_total
                (fun v => process v color_map palette None) items IH) as [items' ->].
    eexists; reflexivity.
Qed.

Lemma process_empty_palette threshold value :
  process value ∅ [] threshold = Ok value.
Proof.
  induction value as [| | | |s|items IH|items IH] using json_ind'; simpl;
    try reflexivity.
  - destruct (startswith_hash s); [|reflexivity].
    rewrite replace_empty_palette. reflexivity.
  - rewrite (walk_list_fixed (fun v => process v ∅ [] threshold) items IH).
    reflexivity.
  - rewrite (walk_items_fixed (fun v => process v ∅ [] threshold) items IH).
    reflexivity.
Qed.

Lemma process_identity color_map palette threshold value :
  (forall path s,
     leaf_at path value = Some s -> startswith_hash s = true ->
     replace_color s color_map palette threshold = Ok s) ->
  process value color_map palette threshold = Ok value.
Proof.
  induction value as [| | | |s|items IH|items IH] using json_ind';
    intros Hsame; simpl; try reflexivity.
  - destruct (startswith_hash s) eqn:Hs; [|reflexivity].
    rewrite (Hsame [] s eq_refl Hs). reflexivity.
  - rewrite (walk_list_fixed (fun v => process v color_map palette threshold) items);
      [reflexivity|].
    apply Forall_lookup. intros i x Hx.
    rewrite Forall_lookup in IH. apply (IH i x Hx).
    intros path s Hleaf. apply (Hsame (i :: path)). simpl. rewrite Hx. exact Hleaf.
  - rewrite (walk_items_fixed (fun v => process v color_map palette threshold) items);
      [reflexivity|].
    apply Forall_lookup. intros i [k x] Hx.
    rewrite Forall_lookup in IH. apply (IH i (k, x) Hx).
    intros path s Hleaf. apply (Hsame (i :: path)). simpl. rewrite Hx. exact Hleaf.
Qed.

(** C7: whatever [process_theme_value] returns has the structure of its
    input: objects keep their keys in order, arrays their length and
    order, scalars that are not strings and strings that do not begin with
    [#] are unchanged.  Without a threshold it returns on every document.
    When the colour rewrite leaves every colour of the document as it is,
    the walk returns the document itself; an empty palette is such a
    case. *)
Theorem walk_preserves_structure (value : json)
    (color_map : gmap (list ascii) (list ascii * bool))
    (palette : dict pystr) (threshold : option float) :
  (forall value',
     process value color_map palette threshold = Ok value' ->
     same_shape value value')
  /\ (exists value',
        process value color_map palette None = Ok value'
        /\ same_shape value value')
  /\ ((forall path s,
         leaf_at path value = Some s -> startswith_hash s = true ->
         replace_color s color_map palette threshold = Ok s) ->
      process value color_map palette threshold = Ok value)
  /\ process value ∅ [] threshold = Ok value.
Proof.
  split; [|split; [|split]].
  - apply process_same_shape.
  - destruct (process_no_threshold_returns color_map palette value) as [value' Hrun].
    exists value'. split; [exact Hrun|].
    eapply process_same_shape. exact Hrun.
  - apply process_identity.
  - apply process_empty_palette.
Qed.

(** ** Threshold *)

Lemma walk_list_monotone (f1 f2 : json -> outcome json) l :
  Forall (fun x => forall x1 x2, f1 x = Ok x1 -> f2 x = Ok x2 ->
            (changed x x1 <= changed x x2)%nat) l ->
  forall l1 l2, walk_list f1 l = Ok l1 -> walk_list f2 l = Ok l2 ->
    (sum_pairs changed l l1 <= sum_pairs changed l l2)%nat.
Proof.
  induction 1 as [|x r Hx _ IH]; simpl; intros l1 l2 Hl1 Hl2.
  - injection Hl1 as <-. injection Hl2 as <-. simpl. lia.
  - destruct (f1 x) as [x1|] eqn:Hf1; simpl in Hl1; [|discriminate].
    destruct (walk_list f1 r) as [r1|]; simpl in Hl1; [|discriminate].
    destruct (f2 x) as [x2|] eqn:Hf2; simpl in Hl2; [|discriminate].
    destruct (walk_list f2 r) as [r2|]; simpl in Hl2; [|discriminate].
    injection Hl1 as <-. injection Hl2 as <-.
    pose proof (Hx x1 x2 eq_refl eq_refl). pose proof (IH r1 r2 eq_refl eq_refl).
    simpl. lia.
Qed.

Lemma walk_items_monotone (f1 f2 : json -> outcome json) l :
  Forall (fun kv => forall x1 x2, f1 (snd kv) = Ok x1 -> f2 (snd kv) = Ok x2 ->
            (changed (snd kv) x1 <= changed (snd kv) x2)%nat) l ->
  forall l1 l2, walk_items f1 l = Ok l1 -> walk_items f2 l = Ok l2 ->
    (sum_pairs (fun kv kv' => changed (snd kv) (snd kv')) l l1
     <= sum_pairs (fun kv kv' => changed (snd kv) (snd kv')) l l2)%nat.
Proof.
  induction 1 as [|[k x] r Hx _ IH]; simpl in *; intros l1 l2 Hl1 Hl2.
  - injection Hl1 as <-. injection Hl2 as <-. simpl. lia.
  - destruct (f1 x) as [x1|] eqn:Hf1; simpl in Hl1; [|discriminate].
    destruct (walk_items f1 r) as [r1|]; simpl in Hl1; [|discriminate].
    destruct (f2 x) as [x2|] eqn:Hf2; simpl in Hl2; [|discriminate].
    destruct (walk_items f2 r) as [r2|]; simpl in Hl2; [|discriminate].
    injection Hl1 as <-. injection Hl2 as <-.
    pose proof (Hx x1 x2 eq_refl eq_refl). pose proof (IH r1 r2 eq_refl eq_refl).
    simpl. lia.
Qed.

Lemma process_monotone color_map palette (t1 t2 : float) value :
  (0 <? t1)%float = true -> (t1 <=? t2)%float = true ->
  forall value1 value2,
    process value color_map palette (Some t1) = Ok value1 ->
    process value color_map palette (Some t2) = Ok value2 ->
    (changed value value1 <= changed value value2)%nat.
Proof.
  intros Hpos Hle.
  induction value as [| | | |s|items IH|items IH] using json_ind';
    simpl; intros value1 value2 Hrun1 Hrun2.
  - injection Hrun1 as <-. injection Hrun2 as <-. lia.
  - injection Hrun1 as <-. injection Hrun2 as <-. lia.
  - injection Hrun1 as <-. injection Hrun2 as <-. lia.
  - injection Hrun1 as <-. injection Hrun2 as <-. lia.
  - destruct (startswith_hash s).
    + destruct (replace_color s color_map palette (Some t1)) as [s1|] eqn:H1;
        simpl in Hrun1; [|discriminate].
      destruct (replace_color s color_map palette (Some t2)) as [s2|] eqn:H2;
        simpl in Hrun2; [|discriminate].
      injection Hrun1 as <-. injection Hrun2 as <-.
      simpl. unfold pystr_eqb.
      destruct (decide (s = s1)) as [Heq|Hne].
      * rewrite (bool_decide_eq_true_2 _ Heq). lia.
      * rewrite (replace_monotone _ _ _ _ _ _ _ Hpos Hle H1 H2) by congruence. lia.
    + injection Hrun1 as <-. injection Hrun2 as <-. lia.
  - destruct (walk_list _ items) as [items1|] eqn:Hwalk1; simpl in Hrun1; [|discriminate].
    destruct (walk_list (fun item => process item color_map palette (Some t2)) items)
      as [items2|] eqn:Hwalk2; simpl in Hrun2; [|discriminate].
    injection Hrun1 as <-. injection Hrun2 as <-.
    exact (walk_list_monotone
             (fun v => process v color_map palette (Some t1))
             (fun v => process v color_map palette (Some t2))
             items IH items1 items2 Hwalk1 Hwalk2).
  - destruct (walk_items _ items) as [items1|] eqn:Hwalk1; simpl in Hrun1; [|discriminate].
    destruct (walk_items (fun v => process v color_map palette (Some t2)) items)
      as [items2|] eqn:Hwalk2; simpl in Hrun2; [|discriminate].
    injection Hrun1 as <-. injection Hrun2 as <-.
    exact (walk_items_monotone
             (fun v => process v color_map palette (Some t1))
             (fun v => process v color_map palette (Some t2))
             items IH items1 items2 Hwalk1 Hwalk2).
Qed.

Lemma process_occurrences_monotone color_map palette (t1 t2 : float)
    value value1 value2 :
  (0 <? t1)%float = true -> (t1 <=? t2)%float = true ->
  process value color_map palette (Some t1) = Ok value1 ->
  process value color_map palette (Some t2) = Ok value2 ->
  (forall path s s1,
     leaf_at path value = Some s ->
     leaf_at path value1 = Some s1 ->
     s1 <> s ->
     leaf_at path value2 = Some s1)
  /\ (changed value value1 <= changed value value2)%nat.
Proof.
  intros Hpos Hle Hrun1 Hrun2.
  split; [|exact (process_monotone _ _ _ _ _ Hpos Hle _ _ Hrun1 Hrun2)].
  intros path s s1 Hleaf Hleaf1 Hne.
  destruct (process_leaf _ _ _ _ _ Hrun1 path s Hleaf) as (s1' & Hs1' & Hrel1).
  assert (s1' = s1) as -> by congruence.
  destruct (process_leaf _ _ _ _ _ Hrun2 path s Hleaf) as (s2 & Hs2 & Hrel2).
  destruct (startswith_hash s); [|congruence].
  rewrite Hs2. f_equal.
  exact (replace_monotone _ _ _ _ _ _ _ Hpos Hle Hrel1 Hrel2 Hne).
Qed.

Lemma process_section_monotone palette (t1 t2 : float) section section1 section2 :
  (0 <? t1)%float = true -> (t1 <=? t2)%float = true ->
  process_section color_delta_e section palette (Some t1) = Ok section1 ->
  process_section color_delta_e section palette (Some t2) = Ok section2 ->
  forall value, section = Some value ->
    exists value1 value2,
      section1 = Some value1 /\ section2 = Some value2
      /\ (forall path s s1,
            leaf_at path value = Some s ->
            leaf_at path value1 = Some s1 ->
            s1 <> s ->
            leaf_at path value2 = Some s1)
      /\ (changed value value1 <= changed value value2)%nat.
Proof.
  intros Hpos Hle. unfold process_section. destruct section as [value|].
  - destruct (process value (build_color_to_base16_map palette) palette (Some t1))
      as [value1|] eqn:Hrun1; [|discriminate].
    destruct (process value (build_color_to_base16_map palette) palette (Some t2))
      as [value2|] eqn:Hrun2; [|discriminate].
    intros [= <-] [= <-] value' [= <-]. exists value1, value2.
    split; [reflexivity|]. split; [reflexivity|].
    exact (process_occurrences_monotone _ _ _ _ _ _ _ Hpos Hle Hrun1 Hrun2).
  - discriminate.
Qed.

(** A walk returns when the rewrite of each of its colours does. *)
Lemma process_returns color_map palette threshold value :
  (forall path s,
     leaf_at path value = Some s -> startswith_hash s = true ->
     returns (replace_color s color_map palette threshold)) ->
  returns (process value color_map palette threshold).
Proof.
  induction value as [| | | |s|items IH|items IH] using json_ind';
    intros Hleaves; simpl; try (eexists; reflexivity).
  - destruct (startswith_hash s) eqn:Hs; [|eexists; reflexivity].
    destruct (Hleaves [] s eq_refl Hs) as [s' ->]. eexists; reflexivity.
  - destruct (walk_list_total
                (fun v => process v color_map palette threshold) items)
      as [items' ->]; [|eexists; reflexivity].
    apply Forall_lookup. intros i x Hx.
    rewrite Forall_lookup in IH. apply (IH i x Hx).
    intros path s Hleaf. apply (Hleaves (i :: path)). simpl. rewrite Hx. exact Hleaf.
  - destruct (walk_items_total
                (fun v => process v color_map palette threshold) items)
      as [items' ->]; [|eexists; reflexivity].
    apply Forall_lookup. intros i [k x] Hx.
    rewrite Forall_lookup in IH. apply (IH i (k, x) Hx).
    intros path s Hleaf. apply (Hleaves (i :: path)). simpl. rewrite Hx. exact Hleaf.
Qed.

Lemma process_section_returns_above palette (t1 t2 : float) section section1 :
  (0 <? t1)%float = true -> (t1 <=? t2)%float = true ->
  process_section color_delta_e section palette (Some t1) = Ok section1 ->
  Forall (fun entry => bracket_free (fst entry) = true) palette ->
  (forall value path s,
     section = Some value -> leaf_at path value = Some s ->
     startswith_hash s = true -> bracket_free s = true) ->
  returns (process_section color_delta_e section palette (Some t2)).
Proof.
  intros Hpos Hle Hrun1 Hkeys Hleaves. unfold process_section in *.
  destruct section as [value|]; [|eexists; reflexivity].
  destruct (process value (build_color_to_base16_map palette) palette (Some t1))
    as [value1|] eqn:Hwalk1; [|discriminate].
  destruct (process_returns (build_color_to_base16_map palette) palette (Some t2) value)
    as [value2 ->]; [|eexists; reflexivity].
  intros path s Hleaf Hs.
  destruct (process_leaf _ _ _ _ _ Hwalk1 path s Hleaf) as (s1 & _ & Hrel).
  rewrite Hs in Hrel.
  exact (replace_returns_above _ _ _ _ _ _ Hpos Hle Hrel
           (Hleaves value path s eq_refl Hleaf Hs) Hkeys).
Qed.


End EngineFacts.

(** ** Witnesses for the engine *)

(** C9, at a concrete input: the nearest slot to [#ea9a98] in the sample
    palette. *)
Lemma closest_distances_witness :
  rose_palette <> []
  /\ find_closest_base16_color (delta_const 1.5) "#ea9a98" rose_palette
     = Ok (("base0A" : pystr), 1%float, Some 1.5%float)
  /\ (exists color,
        In (("base0A" : pystr), color) rose_palette
        /\ rgb_distance (strip_alpha "#ea9a98") color = Ok 1%float
        /\ Some 1.5%float
           = delta_e_distance (delta_const 1.5) (strip_alpha "#ea9a98") color).
Proof.
  assert (Hne : rose_palette <> []) by discriminate.
  assert (Hrun : find_closest_base16_color (delta_const 1.5) "#ea9a98" rose_palette
                 = Ok (("base0A" : pystr), 1%float, Some 1.5%float))
    by (vm_compute; reflexivity).
  split; [exact Hne|]. split; [exact Hrun|].
  exact (proj1 (closest_distances_belong_to_key (delta_const 1.5) "#ea9a98"
                  rose_palette "base0A" 1%float (Some 1.5%float) Hne Hrun)).
Defined.

(** C8, at a concrete input: the transparent token against a palette that
    holds black, with a threshold. *)
Lemma sentinel_passthrough_witness :
  (py_lower "#0000" = ("#0000" : pystr) \/ py_lower "#0000" = ("#00000000" : pystr))
  /\ replace_color_with_variable (delta_const 0) "#0000"
       (build_color_to_base16_map [(("base00" : pystr), ("#000000" : pystr))])
       [(("base00" : pystr), ("#000000" : pystr))] (Some 5%float)
     = Ok ("#0000" : pystr).
Proof.
  assert (H : py_lower "#0000" = ("#0000" : pystr)
              \/ py_lower "#0000" = ("#00000000" : pystr))
    by (left; reflexivity).
  split; [exact H|].
  exact (sentinel_passthrough (delta_const 0) "#0000"
           (build_color_to_base16_map [(("base00" : pystr), ("#000000" : pystr))])
           [(("base00" : pystr), ("#000000" : pystr))] (Some 5%float) H).
Defined.



(** ** The concrete alpha scenario *)

(** C4: with slot [base0A] at [#ea9a97], the colour [#ea9a97e6] becomes the
    placeholder followed at once by [e6], alone and inside a theme, and the
    template text [{{ base0A }}e6] bound to the same palette prints
    [#ea9a97e6]. *)
Theorem alpha_scenario (color_delta_e : pystr -> pystr -> option float) :
  replace_color_with_variable color_delta_e "#ea9a97e6"
    (build_color_to_base16_map rose_palette) rose_palette None
  = Ok ("{{ base0A }}e6" : pystr)
  /\ generate_template color_delta_e
       [(("colors" : pystr), JObj [(("editorCursor.foreground" : pystr), JStr "#ea9a97e6")])]
       rose_palette None
     = Ok [(("colors" : pystr),
            JObj [(("editorCursor.foreground" : pystr), JStr "{{ base0A }}e6")])]
  /\ (palette_data ← parse_base16_palette rose_source;
      template ← load_template (single_file "alpha.j2" "{{ base0A }}e6") "alpha.j2";
      render_theme template palette_data)
     = Ok ("#ea9a97e6" : pystr).
Proof. repeat split; vm_compute; reflexivity. Qed.

(** ** Dictionaries *)

Lemma pystr_eqb_eq (a b : pystr) : pystr_eqb a b = true <-> a = b.
Proof. unfold pystr_eqb. apply bool_decide_eq_true. Qed.

Lemma pystr_eqb_refl (a : pystr) : pystr_eqb a a = true.
Proof. apply pystr_eqb_eq. reflexivity. Qed.

Lemma pystr_eqb_neq (a b : pystr) : a <> b -> pystr_eqb a b = false.
Proof. unfold pystr_eqb. apply bool_decide_eq_false. Qed.

Lemma dict_get_cons {V} (d : dict V) k' v k :
  dict_get ((k', v) :: d) k = if pystr_eqb k' k then Some v else dict_get d k.
Proof. reflexivity. Qed.

Lemma dict_get_set_eq {V} (d : dict V) k v : dict_get (dict_set d k v) k = Some v.
Proof.
  induction d as [|[k' v'] r IH]; simpl.
  - rewrite pystr_eqb_refl. reflexivity.
  - destruct (pystr_eqb k' k) eqn:Hk; simpl; rewrite Hk; [reflexivity|exact IH].
Qed.

Lemma dict_get_set_ne {V} (d : dict V) k k' v :
  k <> k' -> dict_get (dict_set d k v) k' = dict_get d k'.
Proof.
  intros Hne. induction d as [|[k0 v0] r IH]; simpl.
  - rewrite pystr_eqb_neq by exact Hne. reflexivity.
  - destruct (pystr_eqb k0 k) eqn:Hk; simpl.
    + apply pystr_eqb_eq in Hk as ->.
      rewrite pystr_eqb_neq by exact Hne. reflexivity.
    + destruct (pystr_eqb k0 k'); [reflexivity|exact IH].
Qed.

Lemma dict_get_in {V} (d : dict V) k v : dict_get d k = Some v -> In (k, v) d.
Proof.
  induction d as [|[k' v'] r IH]; simpl; [discriminate|].
  destruct (pystr_eqb k' k) eqn:Hk.
  - apply pystr_eqb_eq in Hk as ->. intros [= ->]. now left.
  - intros H. right. auto.
Qed.

Lemma dict_get_none {V} (d : dict V) k :
  dict_get d k = None <-> ~ In k (dict_keys d).
Proof.
  induction d as [|[k' v'] r IH]; simpl.
  - split; [tauto|reflexivity].
  - destruct (pystr_eqb k' k) eqn:Hk.
    + apply pystr_eqb_eq in Hk as ->. split; [discriminate|tauto].
    + rewrite IH. split.
      * intros Hr [->|Hin]; [rewrite pystr_eqb_refl in Hk; discriminate|tauto].
      * tauto.
Qed.

Lemma dict_get_wf {V} (d : dict V) k v :
  dict_wf d -> In (k, v) d -> dict_get d k = Some v.
Proof.
  unfold dict_wf. induction d as [|[k' v'] r IH]; simpl; [tauto|].
  intros Hwf [[= -> ->]|Hin].
  - rewrite pystr_eqb_refl. reflexivity.
  - apply NoDup_cons in Hwf as [Hnotin Hwf].
    destruct (pystr_eqb k' k) eqn:Hk.
    + apply pystr_eqb_eq in Hk as ->. exfalso. apply Hnotin.
      apply list_elem_of_In. change (In k (map fst r)).
      apply in_map_iff. exists (k, v). auto.
    + auto.
Qed.

(** [d.update(items)]: keys missing from [items] keep their binding. *)
Lemma update_keeps {V} (items d : dict V) k :
  dict_get items k = None ->
  dict_get (fold_left (fun acc '(k, v) => dict_set acc k v) items d) k = dict_get d k.
Proof.
  revert d. induction items as [|[k0 v0] r IH]; simpl; intros d Hk; [reflexivity|].
  destruct (pystr_eqb k0 k) eqn:Hk0; [discriminate|].
  rewrite IH by exact Hk. apply dict_get_set_ne.
  intros ->. rewrite pystr_eqb_refl in Hk0. discriminate.
Qed.

(** [d.update(items)]: keys of a well-formed [items] get its binding. *)
Lemma update_binds {V} (items d : dict V) k v :
  dict_wf items -> dict_get items k = Some v ->
  dict_get (fold_left (fun acc '(k, v) => dict_set acc k v) items d) k = Some v.
Proof.
  unfold dict_wf. revert d.
  induction items as [|[k0 v0] r IH]; simpl; intros d Hwf Hk; [discriminate|].
  apply NoDup_cons in Hwf as [Hnotin Hwf].
  destruct (pystr_eqb k0 k) eqn:Hk0.
  - apply pystr_eqb_eq in Hk0 as ->. injection Hk as ->.
    rewrite update_keeps
      by (apply dict_get_none; intros Hin; apply Hnotin, list_elem_of_In, Hin).
    apply dict_get_set_eq.
  - apply IH; assumption.
Qed.

(** ** Binding context *)

(** What the parser binds: the palette's keys, then the two metadata keys. *)
Lemma parse_context_lookup (data : dict yaml) (palette : dict yaml) :
  dict_get_default data "palette" (YMap []) = YMap palette ->
  dict_wf palette ->
  exists context,
    parse_base16_palette data = Ok context
    /\ forall k,
         dict_get context k
         = match dict_get palette k with
           | Some v => Some v
           | None =>
               dict_get
                 [ (("theme_name" : pystr),
                    dict_get_default data "name" (YStr "Unknown Theme"));
                   (("theme_type" : pystr),
                    dict_get_default data "variant" (YStr "dark")) ] k
           end.
Proof.
  intros Hpal Hwf. unfold parse_base16_palette. rewrite Hpal. unfold dict_update.
  eexists. split; [reflexivity|].
  intros k. destruct (dict_get palette k) as [v|] eqn:Hk.
  - apply update_binds; assumption.
  - apply update_keeps; assumption.
Qed.

(** C10: for every source mapping whose palette entry, when present, is a
    well-formed mapping, the parser returns a context that binds
    [theme_name] and [theme_type]; unless a palette key of the same name
    overrides them, they hold the source's [name] and [variant], or
    [Unknown Theme] and [dark] when the source has none; every palette key
    is bound to the palette's value, and nothing else is bound. *)
Theorem parse_binds_metadata (data : dict yaml) (palette : dict yaml) :
  dict_get_default data "palette" (YMap []) = YMap palette ->
  dict_wf palette ->
  exists context,
    parse_base16_palette data = Ok context
    /\ dict_has context "theme_name" = true
    /\ dict_has context "theme_type" = true
    /\ (dict_get palette "theme_name" = None ->
        dict_get context "theme_name"
        = Some (match dict_get data "name" with
                | Some name => name
                | None => YStr "Unknown Theme"
                end))
    /\ (dict_get palette "theme_type" = None ->
        dict_get context "theme_type"
        = Some (match dict_get data "variant" with
                | Some variant => variant
                | None => YStr "dark"
                end))
    /\ (forall k v, dict_get palette k = Some v -> dict_get context k = Some v)
    /\ (forall k, dict_has context k = true ->
          k = ("theme_name" : pystr) \/ k = ("theme_type" : pystr)
          \/ dict_has palette k = true).
Proof.
  intros Hpal Hwf.
  destruct (parse_context_lookup data palette Hpal Hwf) as (context & Hrun & Hcases).
  exists context. split; [exact Hrun|].
  unfold dict_has. repeat split.
  - rewrite Hcases. destruct (dict_get palette _); reflexivity.
  - rewrite Hcases. destruct (dict_get palette _); reflexivity.
  - intros Hfree. rewrite Hcases, Hfree. reflexivity.
  - intros Hfree. rewrite Hcases, Hfree. reflexivity.
  - intros k v Hk. rewrite Hcases, Hk. reflexivity.
  - intros k Hk. rewrite Hcases in Hk. destruct (dict_get palette k) as [v|]; [auto|].
    rewrite !dict_get_cons in Hk.
    destruct (pystr_eqb "theme_name" k) eqn:H1; [apply pystr_eqb_eq in H1; auto|].
    destruct (pystr_eqb "theme_type" k) eqn:H2; [apply pystr_eqb_eq in H2; auto|].
    discriminate.
Qed.

(** C10, at a concrete input: a source with a palette and neither [name]
    nor [variant]. *)
Lemma parse_binds_metadata_witness :
  dict_get_default [(("palette" : pystr), yaml_of_palette rose_palette)]
    "palette" (YMap [])
  = yaml_of_palette rose_palette
  /\ dict_wf (map (fun '(k, v) => (k, YStr v)) rose_palette)
  /\ exists context,
       parse_base16_palette [(("palette" : pystr), yaml_of_palette rose_palette)]
       = Ok context
       /\ dict_get context "theme_name" = Some (YStr "Unknown Theme")
       /\ dict_get context "theme_type" = Some (YStr "dark")
       /\ dict_get context "base0A" = Some (YStr "#ea9a97").
Proof.
  assert (H1 : dict_get_default [(("palette" : pystr), yaml_of_palette rose_palette)]
                 "palette" (YMap [])
               = YMap (map (fun '(k, v) => (k, YStr v)) rose_palette))
    by reflexivity.
  assert (H2 : dict_wf (map (fun '(k, v) => (k, YStr v)) rose_palette)).
  { unfold dict_wf. refine (bool_decide_unpack _ _). vm_compute. exact I. }
  split; [exact H1|]. split; [exact H2|].
  destruct (parse_binds_metadata _ _ H1 H2)
    as (context & Hrun & _ & _ & Hname & Htype & Hslots & _).
  exists context. split; [exact Hrun|].
  split; [exact (Hname eq_refl)|]. split; [exact (Htype eq_refl)|].
  apply Hslots. reflexivity.
Defined.

(** ** Materializer *)

Lemma walk_list_map {A B} (f : A -> outcome B) (g : A -> B) l :
  Forall (fun x => f x = Ok (g x)) l -> walk_list f l = Ok (map g l).
Proof.
  induction 1 as [|x r Hx _ IH]; simpl; [reflexivity|].
  rewrite Hx. simpl. rewrite IH. reflexivity.
Qed.

Lemma load_template_environment fs path template :
  load_template fs path = Ok template ->
  environment template = loader_environment.
Proof.
  unfold load_template, from_string. destruct (fs path) as [source|]; [|discriminate].
  destruct (lex InData (normalize_newlines source)) as [nodes|]; simpl; [|discriminate].
  intros [= <-]. reflexivity.
Qed.

Lemma render_node_text env context n :
  undefined env = Undefined ->
  printable context n ->
  render_node env context n = Ok (node_text context n).
Proof.
  intros Hundef. destruct n as [d|name]; simpl; [reflexivity|].
  intros [Hself Hbound]. unfold resolve.
  rewrite pystr_eqb_neq by exact Hself.
  destruct (dict_get context name) as [v|].
  - destruct Hbound as [s ->]. reflexivity.
  - rewrite bool_decide_eq_false_2 by exact Hbound. rewrite Hundef. reflexivity.
Qed.

(** C2, as stated, fails: a placeholder that names neither a slot nor a
    metadata key raises nothing; the theme is rendered with nothing in its
    place. *)
Lemma unresolved_placeholder_prints_nothing :
  (palette_data ← parse_base16_palette rose_source;
   template ←
     load_template (single_file "theme.j2" "background: {{ base10 }};") "theme.j2";
   render_theme template palette_data)
  = Ok ("background: ;" : pystr).
Proof. vm_compute. reflexivity. Qed.

(** C2, amended: a template of literal text and placeholders that
    [load_template] loaded renders without error against a binding context
    built by [parse_base16_palette] (one with no key [self], whose bound
    placeholders hold scalars and whose unbound placeholders are not Jinja
    default globals): the output is the literal text with each bound
    placeholder replaced by its value, and each placeholder that names
    neither a palette slot nor a metadata key replaced by the empty
    string. *)
Theorem unbound_placeholder_renders_empty
    (fs : pystr -> option pystr) (path : pystr) (template : Template)
    (data : dict yaml) (palette_data : dict yaml) :
  load_template fs path = Ok template ->
  parse_base16_palette data = Ok palette_data ->
  dict_has palette_data "self" = false ->
  Forall (printable palette_data) (body template) ->
  render_theme template palette_data
  = Ok (concat (map (node_text palette_data) (body template)))
  /\ (forall name,
        In (Name name) (body template) ->
        dict_get palette_data name = None ->
        render_node (environment template) palette_data (Name name) = Ok []).
Proof.
  intros Hload _ Hself Hprint.
  apply load_template_environment in Hload.
  assert (Hundef : undefined (environment template) = Undefined)
    by (rewrite Hload; reflexivity).
  split.
  - unfold render_theme, render. rewrite Hself.
    rewrite (walk_list_map _ (node_text palette_data)); [reflexivity|].
    eapply Forall_impl; [exact Hprint|].
    intros n Hn. apply render_node_text; assumption.
  - intros name Hin Hfree.
    rewrite List.Forall_forall in Hprint. specialize (Hprint _ Hin).
    rewrite (render_node_text _ _ _ Hundef Hprint). simpl. rewrite Hfree. reflexivity.
Qed.

(** C2 amended, at a concrete input: [{{ accent }}] is not bound by the
    sample palette. *)
Lemma unbound_placeholder_witness :
  load_template (single_file "accent.j2" "{{ theme_name }}: {{ accent }};") "accent.j2"
  = Ok accent_template
  /\ parse_base16_palette rose_source = Ok rose_context
  /\ dict_has rose_context "self" = false
  /\ Forall (printable rose_context) (body accent_template)
  /\ render_theme accent_template rose_context = Ok ("Rose Pine Moon: ;" : pystr).
Proof.
  assert (H1 : load_template
                 (single_file "accent.j2" "{{ theme_name }}: {{ accent }};") "accent.j2"
               = Ok accent_template) by (vm_compute; reflexivity).
  assert (H2 : parse_base16_palette rose_source = Ok rose_context)
    by (vm_compute; reflexivity).
  assert (H3 : dict_has rose_context "self" = false) by (vm_compute; reflexivity).
  assert (H4 : Forall (printable rose_context) (body accent_template)).
  { repeat constructor; try discriminate.
    - eexists; reflexivity.
    - intros Hin. apply list_elem_of_In in Hin. simpl in Hin.
      repeat destruct Hin as [Hin|Hin]; try discriminate; contradiction. }
  split; [exact H1|]. split; [exact H2|]. split; [exact H3|]. split; [exact H4|].
  exact (proj1 (unbound_placeholder_renders_empty _ _ _ _ _ H1 H2 H3 H4)).
Defined.

(** ** Round trip *)


Section Rendering.

Variable env : Environment.
Variable context : dict yaml.

Local Abbreviation renders_as := (renders_as env context).
Local Abbreviation render_source := (render_source env context).

Lemma fmap_fmap_outcome {A B C} (f : A -> B) (g : B -> C) (m : outcome A) :
  g <$> (f <$> m) = (fun a => g (f a)) <$> m.
Proof. destruct m; reflexivity. Qed.

Lemma fmap_ext_outcome {A B} (f g : A -> B) (m : outcome A) :
  (forall a, f a = g a) -> f <$> m = g <$> m.
Proof. intros H. destruct m; simpl; [|reflexivity]. unfold fmap, outcome_fmap. now rewrite H. Qed.

Lemma render_cons_data c nodes :
  render {| environment := env; body := cons_data c nodes |} context
  = cons c <$> render {| environment := env; body := nodes |} context.
Proof.
  unfold render. simpl.
  destruct nodes as [|[d|name] r]; simpl.
  - reflexivity.
  - destruct (walk_list (render_node env context) r); reflexivity.
  - destruct (resolve env context name); simpl; [|reflexivity].
    destruct (walk_list (render_node env context) r); reflexivity.
Qed.

Lemma render_source_data c rest :
  lex InData (c :: rest) = cons_data c <$> lex InData rest ->
  render_source (c :: rest) = cons c <$> render_source rest.
Proof.
  unfold render_source. intros ->.
  destruct (lex InData rest) as [nodes|]; simpl; [|reflexivity].
  apply render_cons_data.
Qed.

Lemma render_source_char c rest :
  is_char "{" c = false ->
  render_source (c :: rest) = cons c <$> render_source rest.
Proof. intros Hc. apply render_source_data. simpl. rewrite Hc. reflexivity. Qed.

Lemma render_source_brace c d rest :
  (is_char "{" d || is_char "%" d || is_char "#" d) = false ->
  render_source (c :: d :: rest) = cons c <$> render_source (d :: rest).
Proof.
  intros Hd. apply render_source_data.
  apply orb_false_elim in Hd as [Hd H3]. apply orb_false_elim in Hd as [H1 H2].
  cbn [lex]. destruct (is_char "{" c); [|reflexivity].
  rewrite H1, H2, H3. reflexivity.
Qed.

Lemma renders_as_nil : renders_as [] [].
Proof. intros rest. simpl. destruct (render_source rest); reflexivity. Qed.

Lemma renders_as_app a' a b' b :
  renders_as a' a -> renders_as b' b -> renders_as (a' ++ b') (a ++ b).
Proof.
  intros Ha Hb rest. rewrite <- app_assoc, Ha, Hb, fmap_fmap_outcome.
  apply fmap_ext_outcome. intros x. apply app_assoc.
Qed.

Lemma renders_as_inert s : inert s = true -> renders_as s s.
Proof.
  induction s as [|c r IH]; intros Hs rest; [apply renders_as_nil|].
  simpl in Hs. simpl.
  destruct (is_char "{" c) eqn:Hc.
  - destruct r as [|d r']; [discriminate|].
    apply andb_true_iff in Hs as [Hd Hr]. apply negb_true_iff in Hd.
    simpl. rewrite (render_source_brace c d (r' ++ rest) Hd).
    change (d :: r' ++ rest) with ((d :: r') ++ rest).
    rewrite (IH Hr rest), fmap_fmap_outcome. reflexivity.
  - rewrite (render_source_char c (r ++ rest) Hc).
    rewrite (IH Hs rest), fmap_fmap_outcome. reflexivity.
Qed.

Lemma renders_as_text written printed :
  renders_as written printed -> render_source written = Ok printed.
Proof.
  intros H. specialize (H []). rewrite app_nil_r in H. rewrite H.
  unfold render_source, render. simpl. rewrite app_nil_r. reflexivity.
Qed.

Lemma lex_name acc name rest :
  Forall (fun d => is_ident_char d = true) name ->
  lex (InName acc) (name ++ " "%char :: "}"%char :: "}"%char :: rest)
  = close_tag (rev acc ++ name) (lex InData rest).
Proof.
  revert acc. induction name as [|c r IH]; intros acc Hname.
  - rewrite app_nil_r. reflexivity.
  - inversion Hname as [|? ? Hc Hr]; subst.
    cbn [app lex]. rewrite Hc. rewrite (IH (c :: acc) Hr).
    simpl. rewrite <- app_assoc. reflexivity.
Qed.

Lemma renders_as_placeholder name value :
  jinja_name name ->
  resolve env context name = Ok value ->
  renders_as (placeholder name) value.
Proof.
  intros Hname Hvalue rest. unfold placeholder.
  destruct name as [|c r]; [contradiction|].
  destruct Hname as (Hstart & Hrest & Hfree).
  unfold render_source at 1.
  replace (lex InData ((("{{ " : pystr) ++ (c :: r) ++ (" }}" : pystr)) ++ rest))
    with (cons (Name (c :: r)) <$> lex InData rest).
  - unfold render_source.
    destruct (lex InData rest) as [nodes|]; simpl; [|reflexivity].
    unfold render. simpl. rewrite Hvalue. simpl.
    destruct (walk_list (render_node env context) nodes); reflexivity.
  - rewrite <- !app_assoc. cbn [list_ascii_of_string app lex].
    change (is_char "{" "{") with true. cbv iota.
    change (py_isspace " ") with true. cbv iota.
    rewrite Hstart.
    replace (py_isspace c) with false.
    + rewrite (lex_name [c] r rest Hrest). simpl.
      unfold close_tag. rewrite bool_decide_eq_false_2 by exact Hfree. reflexivity.
    + symmetry. revert Hstart. clear. unfold is_ident_start, py_isspace.
      generalize (code c). intros n Hn. lia.
Qed.

End Rendering.

(** ** Characters *)

Lemma forall_ascii (P : ascii -> bool) :
  forallb P all_ascii = true -> forall c, P c = true.
Proof.
  intros H c. rewrite forallb_forall in H. apply H, in_all_ascii.
Qed.

Lemma escape_char_no_cr c d : In d (escape_char c) -> is_char CR d = false.
Proof.
  intros Hd.
  assert (H : escape_has_no_cr c = true)
    by (revert c Hd; intros c _; apply forall_ascii; vm_compute; reflexivity).
  unfold escape_has_no_cr in H. rewrite forallb_forall in H.
  apply negb_true_iff, H, Hd.
Qed.

Lemma escape_char_verbatim c : json_verbatim c = true -> escape_char c = [c].
Proof.
  intros Hc.
  assert (H : verbatim_is_kept c = true)
    by (revert c Hc; intros c _; apply forall_ascii; vm_compute; reflexivity).
  unfold verbatim_is_kept in H. rewrite Hc in H. simpl in H.
  apply bool_decide_eq_true in H. exact H.
Qed.

Lemma ident_char_verbatim c :
  is_ident_char c = true -> json_verbatim c = true /\ py_isspace c = false.
Proof.
  intros Hc.
  assert (H : ident_is_verbatim c = true)
    by (revert c Hc; intros c _; apply forall_ascii; vm_compute; reflexivity).
  unfold ident_is_verbatim in H. rewrite Hc in H. simpl in H.
  apply andb_true_iff in H as [H1 H2]. apply negb_true_iff in H2. auto.
Qed.

Lemma plain_char_quiet c :
  plain_char c = true ->
  json_verbatim c = true /\ is_char "{" c = false /\ is_char CR c = false.
Proof.
  intros Hc.
  assert (H : plain_is_quiet c = true)
    by (revert c Hc; intros c _; apply forall_ascii; vm_compute; reflexivity).
  unfold plain_is_quiet in H. rewrite Hc in H. simpl in H.
  apply andb_true_iff in H as [H H3]. apply andb_true_iff in H as [H1 H2].
  apply negb_true_iff in H2, H3. auto.
Qed.

(** ** Text written by [json.dumps] *)

Lemma plain_brace_free s : plain s -> brace_free s.
Proof.
  intros H. eapply Forall_impl; [exact H|].
  intros c Hc. apply plain_char_quiet in Hc. tauto.
Qed.

Lemma plain_no_cr s : plain s -> no_cr s.
Proof.
  intros H. eapply Forall_impl; [exact H|].
  intros c Hc. apply plain_char_quiet in Hc. tauto.
Qed.

Lemma plain_verbatim s : plain s -> verbatim s.
Proof.
  intros H. eapply Forall_impl; [exact H|].
  intros c Hc. apply plain_char_quiet in Hc. tauto.
Qed.

Lemma escape_verbatim s : verbatim s -> concat (map escape_char s) = s.
Proof.
  induction 1 as [|c r Hc _ IH]; simpl; [reflexivity|].
  rewrite (escape_char_verbatim c Hc), IH. reflexivity.
Qed.

Lemma escape_no_cr s : no_cr (concat (map escape_char s)).
Proof.
  induction s as [|c r IH]; simpl; [constructor|].
  apply Forall_app. split; [|exact IH].
  apply List.Forall_forall. intros d Hd. eapply escape_char_no_cr, Hd.
Qed.

Lemma brace_free_inert s : brace_free s -> inert s = true.
Proof.
  induction 1 as [|c r Hc _ IH]; simpl; [reflexivity|]. rewrite Hc. exact IH.
Qed.

Lemma inert_app a b : inert a = true -> inert b = true -> inert (a ++ b) = true.
Proof.
  intros Ha Hb. induction a as [|c r IH]; simpl; [exact Hb|].
  simpl in Ha. destruct (is_char "{" c); [|auto].
  destruct r as [|d r']; [discriminate|].
  apply andb_true_iff in Ha as [Hd Hr]. simpl. rewrite Hd. simpl. apply IH, Hr.
Qed.

Lemma unify_newlines_no_cr s : no_cr s -> unify_newlines s = s.
Proof.
  induction 1 as [|c r Hc _ IH]; simpl; [reflexivity|]. rewrite Hc, IH. reflexivity.
Qed.

Lemma drop_trailing_newline_last s c :
  is_char LF c = false -> drop_trailing_newline (s ++ [c]) = s ++ [c].
Proof.
  intros Hc. unfold drop_trailing_newline. rewrite rev_app_distr. simpl.
  rewrite Hc. reflexivity.
Qed.

Lemma string_of_uint_plain (u : Decimal.uint) :
  plain (NilEmpty.string_of_uint u).
Proof. induction u; simpl; constructor; auto. Qed.

Lemma decimal_plain n : plain (decimal n).
Proof.
  unfold decimal. destruct (Z.to_int n) as [u|u]; simpl.
  - apply string_of_uint_plain.
  - constructor; [reflexivity|apply string_of_uint_plain].
Qed.

Lemma newline_indent_brace_free level : brace_free (newline_indent level).
Proof.
  unfold newline_indent. constructor; [reflexivity|].
  induction (4 * level)%nat; simpl; constructor; auto.
Qed.

Lemma newline_indent_no_cr level : no_cr (newline_indent level).
Proof.
  unfold newline_indent. constructor; [reflexivity|].
  induction (4 * level)%nat; simpl; constructor; auto.
Qed.

Lemma build_map_from (m : gmap (list ascii) (list ascii * bool))
    (palette : dict pystr) n key flag :
  fold_left
    (fun color_map '(base16_key, color) =>
       <[normalize_color color := (base16_key, true)]> color_map)
    palette m !! n = Some (key, flag) ->
  m !! n = Some (key, flag)
  \/ exists color, In (key, color) palette /\ normalize_color color = n.
Proof.
  revert m. induction palette as [|[k v] r IH]; simpl; intros m H; [auto|].
  apply IH in H as [H|(color & Hin & Hn)].
  - destruct (decide (normalize_color v = n)) as [<-|Hne].
    + rewrite lookup_insert_eq in H. injection H as <- <-. right. eauto.
    + rewrite lookup_insert_ne in H by exact Hne. auto.
  - right. eauto.
Qed.

Lemma build_map_lookup (palette : dict pystr) n key flag :
  build_color_to_base16_map palette !! n = Some (key, flag) ->
  exists color, In (key, color) palette /\ normalize_color color = n.
Proof.
  intros H. apply build_map_from in H as [H|H]; [|exact H].
  rewrite lookup_empty in H. discriminate.
Qed.

Section RoundTripFacts.

Variable color_delta_e : pystr -> pystr -> option float.
Variable float_repr : float -> pystr.
Hypothesis float_repr_plain : forall f, plain (float_repr f).
Variable palette : dict pystr.
Variable context : dict yaml.
Hypothesis context_binds :
  forall k v, dict_get palette k = Some v -> dict_get context k = Some (YStr v).

Local Abbreviation encode := (encode float_repr).
Local Abbreviation renders := (renders_as loader_environment context).

Lemma no_cr_app a b : no_cr a -> no_cr b -> no_cr (a ++ b).
Proof. intros Ha Hb. apply Forall_app. auto. Qed.

Lemma brace_free_app a b : brace_free a -> brace_free b -> brace_free (a ++ b).
Proof. intros Ha Hb. apply Forall_app. auto. Qed.

Lemma no_cr_literal (s : pystr) :
  forallb (fun c => negb (is_char CR c)) s = true -> no_cr s.
Proof.
  intros H. apply List.Forall_forall. intros c Hc.
  rewrite forallb_forall in H. apply negb_true_iff, H, Hc.
Qed.

Lemma brace_free_literal (s : pystr) :
  forallb (fun c => negb (is_char "{" c)) s = true -> brace_free s.
Proof.
  intros H. apply List.Forall_forall. intros c Hc.
  rewrite forallb_forall in H. apply negb_true_iff, H, Hc.
Qed.

Lemma encode_block_no_cr open_ close_ level items :
  no_cr open_ -> no_cr close_ -> Forall no_cr items ->
  no_cr (encode_block open_ close_ level items).
Proof.
  intros Ho Hc Hitems. unfold encode_block.
  destruct Hitems as [|first rest Hfirst Hrest].
  - apply no_cr_app; assumption.
  - apply no_cr_app; [exact Ho|].
    apply no_cr_app; [apply newline_indent_no_cr|].
    apply no_cr_app; [exact Hfirst|].
    apply no_cr_app; [|apply no_cr_app; [apply newline_indent_no_cr|exact Hc]].
    induction Hrest as [|x r Hx _ IH]; [constructor|].
    rewrite map_cons, concat_cons.
    apply no_cr_app; [|exact IH].
    apply (no_cr_app ","); [apply no_cr_literal; reflexivity|].
    apply no_cr_app; [apply newline_indent_no_cr|exact Hx].
Qed.

Lemma encode_basestring_no_cr s : no_cr (encode_basestring s).
Proof.
  unfold encode_basestring.
  apply no_cr_app; [repeat constructor|].
  apply no_cr_app; [apply escape_no_cr|repeat constructor].
Qed.

Lemma encode_no_cr v : forall level, no_cr (encode level v).
Proof.
  induction v as [|b|n|f|s|items IH|items IH] using json_ind'; intros level; simpl.
  - apply no_cr_literal. reflexivity.
  - destruct b; apply no_cr_literal; reflexivity.
  - apply plain_no_cr, decimal_plain.
  - apply plain_no_cr, float_repr_plain.
  - apply encode_basestring_no_cr.
  - apply encode_block_no_cr; [apply no_cr_literal; reflexivity..|].
    apply Forall_fmap. eapply Forall_impl; [exact IH|]. intros x Hx. apply Hx.
  - apply encode_block_no_cr; [apply no_cr_literal; reflexivity..|].
    apply Forall_fmap. eapply Forall_impl; [exact IH|]. intros [k x] Hx.
    change (no_cr (encode_basestring k ++ ": " ++ encode (S level) x)).
    apply no_cr_app; [apply encode_basestring_no_cr|].
    apply (no_cr_app ": "); [apply no_cr_literal; reflexivity|apply Hx].
Qed.

Lemma renders_brace_free s : brace_free s -> renders s s.
Proof. intros Hs. apply renders_as_inert, brace_free_inert, Hs. Qed.

Lemma renders_quiet_string s :
  quiet s -> renders (encode_basestring s) (encode_basestring s).
Proof. apply renders_as_inert. Qed.

Lemma renders_separated sep written printed :
  brace_free sep ->
  Forall2 renders written printed ->
  renders (concat (map (fun item => sep ++ item) written))
          (concat (map (fun item => sep ++ item) printed)).
Proof.
  intros Hsep. induction 1 as [|x' x r' r Hx _ IH]; [apply renders_as_nil|].
  rewrite !map_cons, !concat_cons.
  apply renders_as_app; [|exact IH].
  apply renders_as_app; [apply renders_brace_free, Hsep|exact Hx].
Qed.

Lemma renders_block open_ close_ level written printed :
  inert (open_ ++ close_) = true ->
  inert (open_ ++ newline_indent (S level)) = true ->
  brace_free close_ ->
  Forall2 renders written printed ->
  renders (encode_block open_ close_ level written)
          (encode_block open_ close_ level printed).
Proof.
  intros Hempty Hopen Hclose Hitems. unfold encode_block.
  destruct Hitems as [|first' first rest' rest Hfirst Hrest].
  - apply renders_as_inert, Hempty.
  - rewrite !(app_assoc open_).
    apply renders_as_app; [apply renders_as_inert, Hopen|].
    apply renders_as_app; [exact Hfirst|].
    apply renders_as_app.
    + assert (Hsep : brace_free ("," ++ newline_indent (S level)))
        by (apply brace_free_app;
            [apply brace_free_literal; reflexivity|apply newline_indent_brace_free]).
      exact (renders_separated _ _ _ Hsep Hrest).
    + apply renders_brace_free, brace_free_app;
        [apply newline_indent_brace_free|exact Hclose].
Qed.

Lemma inert_object_open level : inert ("{" ++ newline_indent level) = true.
Proof.
  change (inert (newline_indent level) = true).
  apply brace_free_inert, newline_indent_brace_free.
Qed.

Lemma inert_array_open level : inert ("[" ++ newline_indent level) = true.
Proof.
  apply brace_free_inert, brace_free_app;
    [apply brace_free_literal; reflexivity|apply newline_indent_brace_free].
Qed.

Lemma renders_array level written printed :
  Forall2 renders written printed ->
  renders (encode_block "[" "]" level written) (encode_block "[" "]" level printed).
Proof.
  apply renders_block;
    [reflexivity|apply inert_array_open|apply brace_free_literal; reflexivity].
Qed.

Lemma renders_object level written printed :
  Forall2 renders written printed ->
  renders (encode_block "{" "}" level written) (encode_block "{" "}" level printed).
Proof.
  apply renders_block;
    [reflexivity|apply inert_object_open|apply brace_free_literal; reflexivity].
Qed.

(** One object item: a quiet key, a colon, and the value. *)
Lemma renders_item level key written printed :
  quiet key ->
  (forall level, renders (encode level written) (encode level printed)) ->
  renders (encode_basestring key ++ ": " ++ encode (S level) written)
          (encode_basestring key ++ ": " ++ encode (S level) printed).
Proof.
  intros Hkey Hvalue.
  apply renders_as_app; [apply renders_quiet_string, Hkey|].
  apply (renders_as_app _ _ ": " ": ");
    [apply renders_brace_free, brace_free_literal; reflexivity|].
  apply Hvalue.
Qed.

Lemma placeholder_verbatim key : jinja_name key -> verbatim (placeholder key).
Proof.
  intros Hname. unfold placeholder.
  apply Forall_app. split; [repeat constructor|].
  apply Forall_app. split; [|repeat constructor].
  destruct key as [|c r]; [contradiction|]. destruct Hname as (Hc & Hr & _).
  constructor.
  - apply ident_char_verbatim. unfold is_ident_char. rewrite Hc. reflexivity.
  - eapply Forall_impl; [exact Hr|]. intros d Hd. apply ident_char_verbatim, Hd.
Qed.

Lemma jinja_name_not_self (name : pystr) : jinja_name name -> name <> ("self" : pystr).
Proof.
  intros Hname ->. destruct Hname as (_ & _ & Hfree). apply Hfree.
  apply list_elem_of_In. vm_compute. tauto.
Qed.

Lemma resolve_bound name bound text :
  jinja_name name ->
  dict_get context name = Some bound ->
  py_str bound = Ok text ->
  resolve loader_environment context name = Ok text.
Proof.
  intros Hname Hbound Htext. unfold resolve.
  rewrite pystr_eqb_neq by (apply jinja_name_not_self, Hname).
  rewrite Hbound. exact Htext.
Qed.

Lemma encode_basestring_escaped s : encode_basestring s = quote ++ escaped s ++ quote.
Proof. reflexivity. Qed.

Lemma escaped_app a b : escaped (a ++ b) = escaped a ++ escaped b.
Proof. unfold escaped. rewrite map_app, concat_app. reflexivity. Qed.

Lemma escaped_verbatim s : verbatim s -> escaped s = s.
Proof. apply escape_verbatim. Qed.

Lemma replace_no_threshold color :
  replace_color_with_variable color_delta_e color
    (build_color_to_base16_map palette) palette None
  = Ok match exact_slot palette color with
       | Some key => with_alpha key (normalize_color color)
       | None => color
       end.
Proof.
  unfold replace_color_with_variable, exact_slot.
  destruct color as [|c r]; [reflexivity|].
  destruct (is_sentinel (c :: r)); [reflexivity|].
  destruct (build_color_to_base16_map palette !! strip_alpha (c :: r)) as [[k flag]|];
    reflexivity.
Qed.

Lemma with_alpha_digits key color :
  with_alpha key (normalize_color color) = placeholder key ++ alpha_digits color.
Proof.
  unfold with_alpha, alpha_digits.
  destruct (length (normalize_color color) =? 8)%nat;
    [reflexivity|rewrite app_nil_r; reflexivity].
Qed.

(** A string of the theme, as the template holds it, prints as the theme
    has it. *)
Lemma renders_string s s' :
  restored palette s ->
  (if startswith_hash s
   then replace_color_with_variable color_delta_e s
          (build_color_to_base16_map palette) palette None = Ok s'
   else s' = s) ->
  renders (encode_basestring s') (encode_basestring s).
Proof.
  unfold restored. destruct (startswith_hash s).
  - rewrite replace_no_threshold. intros Hrest [= <-].
    destruct (exact_slot palette s) as [key|];
      [|apply renders_quiet_string, Hrest].
    destruct Hrest as (Hname & value & Hget & Hverb & Hs & Halpha).
    rewrite with_alpha_digits.
    remember (alpha_digits s) as alpha eqn:Heq. clear Heq.
    rewrite Hs. clear Hs.
    rewrite !encode_basestring_escaped, !escaped_app.
    rewrite (escaped_verbatim _ (placeholder_verbatim key Hname)).
    rewrite (escaped_verbatim _ Hverb).
    rewrite <- !app_assoc.
    apply renders_as_app; [apply renders_brace_free; repeat constructor|].
    apply renders_as_app; [|apply renders_as_inert, Halpha].
    apply renders_as_placeholder; [exact Hname|].
    apply (resolve_bound key (YStr value) value Hname (context_binds _ _ Hget)).
    reflexivity.
  - intros Hrest ->. apply renders_quiet_string, Hrest.
Qed.

Lemma renders_items level
    (items items' : list (list ascii * json)) :
  Forall (fun kv => quiet (fst kv)) items ->
  Forall2 (fun kv kv' =>
             fst kv = fst kv'
             /\ forall level, renders (encode level (snd kv')) (encode level (snd kv)))
    items items' ->
  Forall2 renders
    (map (fun '(k, item) => encode_basestring k ++ ": " ++ encode (S level) item) items')
    (map (fun '(k, item) => encode_basestring k ++ ": " ++ encode (S level) item) items).
Proof.
  intros Hkeys H. induction H as [|[k x] [k' x'] r r' [Hk Hx] _ IH]; [constructor|].
  simpl in Hk, Hx. subst k'.
  inversion Hkeys as [|? ? Hkey Hkeys']; subst. simpl in Hkey.
  rewrite !map_cons. constructor; [|apply IH, Hkeys'].
  apply renders_item; assumption.
Qed.

Lemma renders_subtree value :
  restorable palette value ->
  forall value',
    process_theme_value color_delta_e value
      (build_color_to_base16_map palette) palette None = Ok value' ->
    forall level, renders (encode level value') (encode level value).
Proof.
  induction value as [|b|n|f|s|items IH|items IH] using json_ind';
    intros Hgen value' Hrun level; simpl in Hrun.
  - injection Hrun as <-. apply renders_brace_free, brace_free_literal. reflexivity.
  - injection Hrun as <-.
    destruct b; apply renders_brace_free, brace_free_literal; reflexivity.
  - injection Hrun as <-. apply renders_brace_free, plain_brace_free, decimal_plain.
  - injection Hrun as <-. apply renders_brace_free, plain_brace_free, float_repr_plain.
  - inversion Hgen as [| | | |? Hs| |]; subst.
    destruct (startswith_hash s) eqn:Hhash.
    + destruct (replace_color_with_variable _ s _ _ None) as [s'|] eqn:Hreplace;
        simpl in Hrun; [|discriminate].
      injection Hrun as <-. apply (renders_string s s' Hs).
      rewrite Hhash. exact Hreplace.
    + injection Hrun as <-. apply (renders_string s s Hs).
      rewrite Hhash. reflexivity.
  - inversion Hgen as [| | | | |? Hitems|]; subst.
    destruct (walk_list _ items) as [items'|] eqn:Hwalk; simpl in Hrun; [|discriminate].
    injection Hrun as <-.
    apply (walk_list_related _
             (fun x x' => forall level, renders (encode level x') (encode level x)))
      in Hwalk.
    + change (renders (encode_block "[" "]" level (map (encode (S level)) items'))
                (encode_block "[" "]" level (map (encode (S level)) items))).
      apply renders_array. apply Forall2_fmap, Forall2_flip.
      eapply Forall2_impl; [exact Hwalk|]. intros x x' Hx. apply Hx.
    + rewrite List.Forall_forall in IH, Hitems. apply List.Forall_forall.
      intros x Hin x' Hx. apply IH; auto.
  - inversion Hgen as [| | | | | |? Hitems]; subst.
    destruct (walk_items _ items) as [items'|] eqn:Hwalk; simpl in Hrun; [|discriminate].
    injection Hrun as <-.
    apply (walk_items_related _
             (fun x x' => forall level, renders (encode level x') (encode level x)))
      in Hwalk.
    + change (renders
                (encode_block "{" "}" level
                   (map (fun '(k, item) =>
                           encode_basestring k ++ ": " ++ encode (S level) item) items'))
                (encode_block "{" "}" level
                   (map (fun '(k, item) =>
                           encode_basestring k ++ ": " ++ encode (S level) item) items))).
      apply renders_object, renders_items; [|exact Hwalk].
      eapply Forall_impl; [exact Hitems|]. intros kv Hkv. apply Hkv.
    + rewrite List.Forall_forall in IH, Hitems. apply List.Forall_forall.
      intros kv Hin x' Hx. apply IH; [exact Hin|apply Hitems, Hin|exact Hx].
Qed.

Lemma renders_placeholder_string name s bound :
  jinja_name name ->
  dict_get context name = Some bound ->
  py_str bound = Ok (escaped s) ->
  forall level,
    renders (encode level (JStr (placeholder name))) (encode level (JStr s)).
Proof.
  intros Hname Hbound Htext level. simpl.
  rewrite !encode_basestring_escaped.
  rewrite (escaped_verbatim _ (placeholder_verbatim name Hname)).
  apply renders_as_app; [apply renders_brace_free; repeat constructor|].
  apply renders_as_app; [|apply renders_brace_free; repeat constructor].
  apply renders_as_placeholder; [exact Hname|].
  exact (resolve_bound name bound _ Hname Hbound Htext).
Qed.

Lemma renders_fields level (written printed : dict json) :
  Forall (fun kv => quiet (fst kv)) printed ->
  Forall2 (fun kv kv' =>
             fst kv = fst kv'
             /\ forall level, renders (encode level (snd kv')) (encode level (snd kv)))
    printed written ->
  renders (encode level (JObj written)) (encode level (JObj printed)).
Proof.
  intros Hkeys H. simpl. apply renders_object, renders_items; assumption.
Qed.

End RoundTripFacts.

(** ** The theme as a list of fields *)

Lemma closed_schema_fields theme_data :
  closed_schema theme_data
  = opt_field "name" (dict_get theme_data "name")
    ++ opt_field "type" (dict_get theme_data "type")
    ++ opt_field "colors" (dict_get theme_data "colors")
    ++ opt_field "tokenColors" (dict_get theme_data "tokenColors").
Proof.
  unfold closed_schema.
  destruct (dict_get theme_data "name"), (dict_get theme_data "type"),
    (dict_get theme_data "colors"), (dict_get theme_data "tokenColors");
    reflexivity.
Qed.

Lemma generate_template_no_threshold_returns color_delta_e theme_data palette :
  returns (generate_template color_delta_e theme_data palette None).
Proof.
  unfold generate_template.
  destruct (dict_get theme_data "colors") as [colors|];
    [destruct (process_no_threshold_returns color_delta_e
                 (build_color_to_base16_map palette) palette colors) as [colors' ->]|];
    (destruct (dict_get theme_data "tokenColors") as [tokens|];
     [destruct (process_no_threshold_returns color_delta_e
                  (build_color_to_base16_map palette) palette tokens) as [tokens' ->]|]);
    eexists; reflexivity.
Qed.

(** ** The round trip *)

Lemma dict_get_yaml_of_palette (palette : dict pystr) k :
  dict_get (map (fun '(k, v) => (k, YStr v)) palette) k = YStr <$> dict_get palette k.
Proof.
  induction palette as [|[k' v] r IH]; simpl; [reflexivity|].
  destruct (pystr_eqb k' k); [reflexivity|exact IH].
Qed.

Lemma dict_wf_yaml_of_palette (palette : dict pystr) :
  dict_wf palette -> dict_wf (map (fun '(k, v) => (k, YStr v)) palette).
Proof.
  unfold dict_wf, dict_keys. rewrite map_map.
  erewrite map_ext; [intros H; exact H|]. intros [k v]. reflexivity.
Qed.

Lemma encode_block_last open_ c level items :
  exists text, encode_block open_ [c] level items = text ++ [c].
Proof.
  unfold encode_block. destruct items as [|first rest].
  - exists open_. reflexivity.
  - eexists. rewrite !app_assoc. reflexivity.
Qed.

Lemma dict_get_opt_field {V} key (value : option V) (rest : dict V) k :
  dict_get (opt_field key value ++ rest) k
  = match value with
    | Some v => if pystr_eqb key k then Some v else dict_get rest k
    | None => dict_get rest k
    end.
Proof. destruct value; reflexivity. Qed.

Lemma closed_schema_lookup theme_data :
  Forall (fun k => k ∈ schema_keys) (dict_keys theme_data) ->
  forall k, dict_get (closed_schema theme_data) k = dict_get theme_data k.
Proof.
  intros Hkeys k. rewrite closed_schema_fields.
  destruct (decide (k ∈ schema_keys)) as [Hin|Hout].
  - unfold schema_keys in Hin. rewrite !elem_of_cons in Hin.
    destruct Hin as [->|[->|[->|[->|Hin]]]]; [..|apply elem_of_nil in Hin; contradiction];
      destruct (dict_get theme_data "name"), (dict_get theme_data "type"),
        (dict_get theme_data "colors"), (dict_get theme_data "tokenColors");
      reflexivity.
  - assert (Hmiss : dict_get theme_data k = None).
    { apply dict_get_none. intros Hin. apply Hout.
      rewrite List.Forall_forall in Hkeys. apply Hkeys, Hin. }
    rewrite Hmiss.
    assert (Hne : forall key : pystr, key ∈ schema_keys -> pystr_eqb key k = false).
    { intros key Hkey. apply pystr_eqb_neq. intros ->. contradiction. }
    rewrite <- (app_nil_r (opt_field "tokenColors" _)), !dict_get_opt_field.
    rewrite !Hne by (apply list_elem_of_In; simpl; tauto).
    destruct (dict_get theme_data "name"), (dict_get theme_data "type"),
      (dict_get theme_data "colors"), (dict_get theme_data "tokenColors");
      reflexivity.
Qed.

Lemma not_reserved (name : pystr) :
  bool_decide (name ∈ reserved_names) = false -> name ∉ reserved_names.
Proof. apply bool_decide_eq_false_1. Qed.

Lemma plain_literal (s : pystr) : forallb plain_char s = true -> plain s.
Proof.
  intros H. apply List.Forall_forall. intros c Hc.
  rewrite forallb_forall in H. apply H, Hc.
Qed.

Lemma verbatim_literal (s : pystr) : forallb json_verbatim s = true -> verbatim s.
Proof.
  intros H. apply List.Forall_forall. intros c Hc.
  rewrite forallb_forall in H. apply H, Hc.
Qed.

Lemma restored_kept (palette : dict pystr) (s : pystr) :
  (if startswith_hash s then exact_slot palette s else None) = None ->
  quiet s -> restored palette s.
Proof. unfold restored. intros ->. auto. Qed.

Lemma restored_slot (palette : dict pystr) (s key value : pystr) :
  (if startswith_hash s then exact_slot palette s else None) = Some key ->
  jinja_name key ->
  dict_get palette key = Some value ->
  verbatim value ->
  s = value ++ alpha_digits s ->
  inert (escaped (alpha_digits s) ++ quote) = true ->
  restored palette s.
Proof. unfold restored. intros ->. eauto 10. Qed.

Section RoundTripTop.

Variable color_delta_e : pystr -> pystr -> option float.
Variable float_repr : float -> pystr.
Hypothesis float_repr_plain : forall f, plain (float_repr f).
Variable palette : dict pystr.
Variable context : dict yaml.
Hypothesis context_binds :
  forall k v, dict_get palette k = Some v -> dict_get context k = Some (YStr v).

Local Abbreviation renders := (renders_as loader_environment context).
Local Abbreviation encode := (encode float_repr).

Lemma renders_metadata theme_data field name :
  jinja_name name ->
  quiet field ->
  metadata_restored theme_data field context name ->
  Forall (fun kv => quiet (fst kv)) (opt_field field (dict_get theme_data field))
  /\ Forall2 (fun kv kv' =>
               fst kv = fst kv'
               /\ forall level, renders (encode level (snd kv')) (encode level (snd kv)))
       (opt_field field (dict_get theme_data field))
       (opt_field field ((fun _ => JStr (placeholder name)) <$> dict_get theme_data field)).
Proof.
  intros Hname Hfield Hmeta. unfold metadata_restored in Hmeta.
  destruct (dict_get theme_data field) as [v|]; simpl; [|split; constructor].
  destruct (Hmeta v eq_refl) as (s & bound & -> & Hbound & Htext).
  split; [repeat constructor; exact Hfield|].
  constructor; [|constructor]. split; [reflexivity|]. simpl.
  intros level.
  apply (renders_placeholder_string float_repr context name s bound Hname Hbound Htext
           level).
Qed.

Lemma renders_section theme_data field section' :
  quiet field ->
  section_restorable palette theme_data field ->
  process_section color_delta_e (dict_get theme_data field) palette None = Ok section' ->
  Forall (fun kv => quiet (fst kv)) (opt_field field (dict_get theme_data field))
  /\ Forall2 (fun kv kv' =>
               fst kv = fst kv'
               /\ forall level, renders (encode level (snd kv')) (encode level (snd kv)))
       (opt_field field (dict_get theme_data field))
       (opt_field field section').
Proof.
  intros Hfield Hgen Hrun. unfold section_restorable in Hgen.
  unfold process_section in Hrun.
  destruct (dict_get theme_data field) as [v|].
  - destruct (process_theme_value color_delta_e v _ palette None) as [v'|] eqn:Hv;
      simpl in Hrun; [|discriminate].
    injection Hrun as <-. simpl.
    split; [repeat constructor; exact Hfield|].
    constructor; [|constructor]. split; [reflexivity|]. simpl.
    eapply renders_subtree; eauto.
  - injection Hrun as <-. simpl. split; constructor.
Qed.

Lemma renders_template theme_data template_data :
  metadata_restored theme_data "name" context "theme_name" ->
  metadata_restored theme_data "type" context "theme_type" ->
  section_restorable palette theme_data "colors" ->
  section_restorable palette theme_data "tokenColors" ->
  generate_template color_delta_e theme_data palette None = Ok template_data ->
  renders (format_jinja2_template float_repr template_data)
          (format_jinja2_template float_repr (closed_schema theme_data)).
Proof.
  intros Hname Htype Hcolors Htokens Hgen.
  apply generate_template_fields in Hgen as (colors & tokens & Hc & Ht & ->).
  rewrite closed_schema_fields. unfold format_jinja2_template, template_fields.
  destruct (renders_metadata theme_data "name" "theme_name") as [K1 R1];
    [ simpl; repeat split; [repeat constructor|apply not_reserved; reflexivity]
    | reflexivity | exact Hname |].
  destruct (renders_metadata theme_data "type" "theme_type") as [K2 R2];
    [ simpl; repeat split; [repeat constructor|apply not_reserved; reflexivity]
    | reflexivity | exact Htype |].
  destruct (renders_section theme_data "colors" colors) as [K3 R3];
    [reflexivity | exact Hcolors | exact Hc |].
  destruct (renders_section theme_data "tokenColors" tokens) as [K4 R4];
    [reflexivity | exact Htokens | exact Ht |].
  apply renders_fields.
  - repeat (apply Forall_app; split); assumption.
  - repeat (apply Forall2_app); assumption.
Qed.

End RoundTripTop.

Lemma context_binds_slots (palette : dict pystr) (source context : dict yaml) :
  dict_wf palette ->
  dict_get_default source "palette" (YMap []) = yaml_of_palette palette ->
  parse_base16_palette source = Ok context ->
  (forall k v, dict_get palette k = Some v -> dict_get context k = Some (YStr v))
  /\ dict_has context "self" = dict_has palette "self".
Proof.
  intros Hwf Hsource Hparse.
  destruct (parse_context_lookup source _ Hsource
              (dict_wf_yaml_of_palette palette Hwf))
    as (context' & Hparse' & Hlookup).
  assert (context' = context) as -> by congruence.
  split.
  - intros k v Hget. rewrite Hlookup, dict_get_yaml_of_palette, Hget. reflexivity.
  - unfold dict_has. rewrite Hlookup, dict_get_yaml_of_palette.
    destruct (dict_get palette "self"); reflexivity.
Qed.

Lemma load_generated_template source :
  no_cr source ->
  (exists text, source = text ++ ["}"%char]) ->
  load_template (single_file "generated-theme.json.j2" source) "generated-theme.json.j2"
  = (nodes ← lex InData source;
     mret {| environment := loader_environment; body := nodes |}).
Proof.
  intros Hcr [text ->]. unfold load_template, single_file.
  rewrite pystr_eqb_refl. unfold from_string, normalize_newlines.
  rewrite (unify_newlines_no_cr _ Hcr).
  rewrite drop_trailing_newline_last by reflexivity. reflexivity.
Qed.



(** * Properties of the rest of the scripts *)

(** ** Trimming *)

Lemma lstrip_while_kept p (s : pystr) :
  match s with c :: _ => p c = false | [] => True end -> lstrip_while p s = s.
Proof. destruct s as [|c r]; simpl; [reflexivity|]. intros ->. reflexivity. Qed.

Lemma rstrip_while_kept p (s : pystr) (c : ascii) :
  p c = false -> rstrip_while p (s ++ [c]) = s ++ [c].
Proof.
  intros Hc. unfold rstrip_while. rewrite rev_app_distr. simpl. rewrite Hc.
  simpl. rewrite rev_involutive. reflexivity.
Qed.

Lemma lstrip_while_head p (s : pystr) :
  match lstrip_while p s with c :: _ => p c = false | [] => True end.
Proof.
  induction s as [|c r IH]; simpl; [exact I|].
  destruct (p c) eqn:Hc; [exact IH|exact Hc].
Qed.

(** A normalised colour does not begin with [#], and neither does what
    [strip_alpha] returns. *)
Lemma normalize_color_head color :
  startswith_hash (normalize_color color) = false.
Proof.
  unfold normalize_color. destruct color as [|c r]; [reflexivity|].
  unfold py_lstrip_hash. pose proof (lstrip_while_head (is_char "#")
    (py_strip (py_lower (c :: r)))) as H.
  destruct (lstrip_while _ _); [reflexivity|exact H].
Qed.

Lemma strip_alpha_head color : startswith_hash (strip_alpha color) = false.
Proof.
  unfold strip_alpha. pose proof (normalize_color_head color) as H.
  destruct (length (normalize_color color) =? 8)%nat; [|exact H].
  destruct (normalize_color color); [reflexivity|exact H].
Qed.

(** ** Hexadecimal digits *)

Lemma hex_digit_lower c d :
  hex_digit c = Some d ->
  hex_digit (lower_char c) = Some d /\ 0 <= d <= 15
  /\ py_isspace (lower_char c) = false /\ is_char "#" (lower_char c) = false.
Proof.
  intros Hc.
  assert (H : digit_lowers c = true)
    by (revert c Hc; intros c _; apply forall_ascii; vm_compute; reflexivity).
  unfold digit_lowers in H. rewrite Hc in H.
  destruct (hex_digit (lower_char c)) as [d'|]; [|discriminate].
  repeat (apply andb_true_iff in H as [H ?]).
  repeat match goal with
         | H : negb _ = true |- _ => apply negb_true_iff in H
         end.
  assert (d' = d) as -> by lia.
  repeat split; try assumption; lia.
Qed.

Lemma lower_char_twice c : lower_char (lower_char c) = lower_char c.
Proof.
  assert (H : lower_twice c = true)
    by (apply forall_ascii; vm_compute; reflexivity).
  apply bool_decide_eq_true in H. exact H.
Qed.

Lemma py_lower_twice s : py_lower (py_lower s) = py_lower s.
Proof.
  unfold py_lower. rewrite map_map. apply map_ext. intros c. apply lower_char_twice.
Qed.

Lemma hex_digits_lower h : hex_digits h -> hex_digits (py_lower h).
Proof.
  unfold hex_digits, py_lower. intros H. apply Forall_fmap.
  eapply Forall_impl; [exact H|]. intros c [d Hd]. simpl.
  apply hex_digit_lower in Hd as [Hd _]. eauto.
Qed.

(** Lower-cased digits are neither blanks nor [#]: the normaliser has only
    the case to change, and one leading [#] to drop. *)
Lemma strip_digits (s : pystr) :
  Forall (fun c => py_isspace c = false) s -> py_strip s = s.
Proof.
  intros Hs. unfold py_strip. rewrite lstrip_while_kept.
  - destruct s as [|c r] using rev_ind; [reflexivity|].
    apply rstrip_while_kept. apply Forall_app in Hs as [_ Hc].
    inversion Hc; assumption.
  - destruct Hs; [exact I|assumption].
Qed.

Lemma lower_digits_quiet h :
  hex_digits h ->
  Forall (fun c => py_isspace c = false) (py_lower h)
  /\ match py_lower h with c :: _ => is_char "#" c = false | [] => True end.
Proof.
  intros H. split.
  - unfold py_lower. apply Forall_fmap. eapply Forall_impl; [exact H|].
    intros c [d Hd]. simpl. apply hex_digit_lower in Hd. tauto.
  - destruct H as [|c r [d Hd] _]; simpl; [exact I|].
    apply hex_digit_lower in Hd. tauto.
Qed.

Lemma normalize_digits h :
  hex_digits h ->
  normalize_color h = py_lower h /\ normalize_color ("#" ++ h) = py_lower h.
Proof.
  intros H. destruct (lower_digits_quiet h H) as [Hsp Hhash]. split.
  - unfold normalize_color. destruct h as [|c r]; [reflexivity|].
    rewrite strip_digits by exact Hsp.
    unfold py_lstrip_hash. apply lstrip_while_kept. exact Hhash.
  - change ("#" ++ h) with ("#"%char :: h). unfold normalize_color.
    change (py_lower ("#"%char :: h)) with ("#"%char :: py_lower h).
    rewrite strip_digits by (constructor; [reflexivity|exact Hsp]).
    unfold py_lstrip_hash. simpl. apply lstrip_while_kept. exact Hhash.
Qed.

Lemma int_base16_digit_pair a b x y :
  hex_digit a = Some x -> hex_digit b = Some y ->
  int_base16 [a; b] = Ok (16 * x + y).
Proof.
  intros Ha Hb.
  assert (H : forallb (fun a => forallb (digit_pair_decodes a) all_ascii) all_ascii
              = true) by (vm_compute; reflexivity).
  rewrite forallb_forall in H. specialize (H a (in_all_ascii a)).
  rewrite forallb_forall in H. specialize (H b (in_all_ascii b)).
  unfold digit_pair_decodes in H. rewrite Ha, Hb in H.
  destruct (int_base16 [a; b]) as [v|]; [|discriminate].
  f_equal. lia.
Qed.

Lemma hex_value_pair a b x y :
  hex_digit a = Some x -> hex_digit b = Some y -> hex_value [a; b] = 16 * x + y.
Proof. intros Ha Hb. unfold hex_value. simpl. rewrite Ha, Hb. simpl. lia. Qed.

(** Six lower-cased digits, and whatever digits follow, decode to three
    bytes. *)
Lemma hex_to_rgb_digits (h rest : pystr) :
  hex_digits h -> length h = 6%nat -> hex_digits rest ->
  hex_to_rgb (h ++ rest)
  = Ok (hex_value (slice 0 2 h), hex_value (slice 2 4 h), hex_value (slice 4 6 h))
  /\ hex_to_rgb ("#" ++ h ++ rest) = hex_to_rgb (h ++ rest)
  /\ 0 <= hex_value (slice 0 2 h) <= 255
  /\ 0 <= hex_value (slice 2 4 h) <= 255
  /\ 0 <= hex_value (slice 4 6 h) <= 255.
Proof.
  intros Hh Hlen Hrest.
  assert (Hall : hex_digits (h ++ rest)) by (apply Forall_app; auto).
  destruct (normalize_digits _ Hall) as [Hn Hn'].
  destruct h as [|c0 [|c1 [|c2 [|c3 [|c4 [|c5 [|]]]]]]]; try discriminate.
  unfold hex_digits in Hh.
  apply Forall_cons in Hh as [[d Hd] Hh]. apply Forall_cons in Hh as [[d0 Hd0] Hh].
  apply Forall_cons in Hh as [[d1 Hd1] Hh]. apply Forall_cons in Hh as [[d2 Hd2] Hh].
  apply Forall_cons in Hh as [[d3 Hd3] Hh]. apply Forall_cons in Hh as [[d4 Hd4] _].
  destruct (hex_digit_lower _ _ Hd) as (L0 & B0 & _).
  destruct (hex_digit_lower _ _ Hd0) as (L1 & B1 & _).
  destruct (hex_digit_lower _ _ Hd1) as (L2 & B2 & _).
  destruct (hex_digit_lower _ _ Hd2) as (L3 & B3 & _).
  destruct (hex_digit_lower _ _ Hd3) as (L4 & B4 & _).
  destruct (hex_digit_lower _ _ Hd4) as (L5 & B5 & _).
  unfold slice. simpl drop. simpl take.
  rewrite (hex_value_pair _ _ _ _ Hd Hd0), (hex_value_pair _ _ _ _ Hd1 Hd2),
    (hex_value_pair _ _ _ _ Hd3 Hd4).
  assert (Hrgb : hex_to_rgb ([c0; c1; c2; c3; c4; c5] ++ rest)
                 = Ok (16 * d + d0, 16 * d1 + d2, 16 * d3 + d4)).
  { unfold hex_to_rgb. rewrite Hn. simpl. unfold slice. simpl. rewrite take_0.
    rewrite (int_base16_digit_pair _ _ _ _ L0 L1),
      (int_base16_digit_pair _ _ _ _ L2 L3), (int_base16_digit_pair _ _ _ _ L4 L5).
    reflexivity. }
  split; [exact Hrgb|]. split; [|lia].
  unfold hex_to_rgb at 1. rewrite Hn'. unfold hex_to_rgb. rewrite Hn. reflexivity.
Qed.

(** ** Colour display *)

(** X1: whatever it is given, [color_for_display] returns one [#] followed
    by a non-empty text that does not itself begin with [#].  It is the
    black [#000000] when the colour is empty, when it is the transparent
    [#0000] in either case, and when it normalises to nothing; in every
    other case it is [#] followed by the alpha-stripped normalised
    colour. *)
Theorem color_for_display_shape (color : pystr) :
  (exists body : pystr,
     color_for_display color = "#" ++ body
     /\ body <> []
     /\ startswith_hash body = false)
  /\ (color = [] \/ py_lower color = ("#0000" : pystr) \/ strip_alpha color = [] ->
      color_for_display color = ("#000000" : pystr))
  /\ (color <> [] -> py_lower color <> ("#0000" : pystr) -> strip_alpha color <> [] ->
      color_for_display color = "#" ++ strip_alpha color).
Proof.
  unfold color_for_display, pystr_eqb. destruct color as [|c r].
  - split; [|split]; [|reflexivity|congruence].
    exists ("000000" : pystr). repeat split. discriminate.
  - destruct (decide (py_lower (c :: r) = ("#0000" : pystr))) as [Hlow|Hlow].
    + rewrite (bool_decide_eq_true_2 _ Hlow).
      split; [|split]; [|reflexivity|congruence].
      exists ("000000" : pystr). repeat split. discriminate.
    + rewrite (bool_decide_eq_false_2 _ Hlow).
      pose proof (strip_alpha_head (c :: r)) as Hhead.
      destruct (strip_alpha (c :: r)) as [|c' r'] eqn:Hs.
      * split; [|split]; [|reflexivity|congruence].
        exists ("000000" : pystr). repeat split. discriminate.
      * split; [|split]; [|intros [H|[H|H]]; congruence|reflexivity].
        exists (c' :: r'). repeat split; [discriminate|exact Hhead].
Qed.

(** ** Well-formed colours *)

(** X2: on a colour of six hexadecimal digits, in either case, with or
    without two alpha digits, behind one [#]: the alpha is dropped and
    the case lowered by [strip_alpha], [color_for_display] puts the [#]
    back, and [hex_to_rgb] returns the three bytes the digit pairs write,
    with or without the [#]. *)
Theorem well_formed_colour_decodes (h alpha : pystr) :
  hex_digits h -> length h = 6%nat ->
  hex_digits alpha -> length alpha = 2%nat ->
  strip_alpha ("#" ++ h) = py_lower h
  /\ strip_alpha ("#" ++ h ++ alpha) = py_lower h
  /\ color_for_display ("#" ++ h ++ alpha) = "#" ++ py_lower h
  /\ color_for_display ("#" ++ h) = "#" ++ py_lower h
  /\ hex_to_rgb ("#" ++ h ++ alpha)
     = Ok (hex_value (slice 0 2 h), hex_value (slice 2 4 h), hex_value (slice 4 6 h))
  /\ hex_to_rgb ("#" ++ h) = hex_to_rgb ("#" ++ h ++ alpha)
  /\ hex_to_rgb h = hex_to_rgb ("#" ++ h)
  /\ 0 <= hex_value (slice 0 2 h) <= 255
  /\ 0 <= hex_value (slice 2 4 h) <= 255
  /\ 0 <= hex_value (slice 4 6 h) <= 255.
Proof.
  intros Hh Hlen Ha Hlena.
  assert (Hall : hex_digits (h ++ alpha)) by (apply Forall_app; auto).
  destruct (normalize_digits _ Hh) as [_ Hn].
  destruct (normalize_digits _ Hall) as [_ Hna].
  assert (Hs : strip_alpha ("#" ++ h) = py_lower h).
  { unfold strip_alpha. rewrite Hn. unfold py_lower. rewrite length_map, Hlen.
    reflexivity. }
  assert (Hsa : strip_alpha ("#" ++ h ++ alpha) = py_lower h).
  { unfold strip_alpha. rewrite Hna. unfold py_lower.
    rewrite length_map, length_app, Hlen, Hlena. simpl Nat.eqb. cbv iota.
    rewrite map_app, take_app_length' by (rewrite length_map; symmetry; exact Hlen).
    reflexivity. }
  assert (Hlow : forall rest : pystr,
             pystr_eqb (py_lower ("#" ++ h ++ rest)) "#0000" = false).
  { intros rest. apply pystr_eqb_neq. intros Heq. apply (f_equal length) in Heq.
    unfold py_lower in Heq. rewrite length_map in Heq. simpl in Heq.
    rewrite length_app, Hlen in Heq. simpl in Heq. lia. }
  assert (Hne : py_lower h <> []).
  { intros Heq. apply (f_equal length) in Heq. unfold py_lower in Heq.
    rewrite length_map, Hlen in Heq. discriminate. }
  destruct (hex_to_rgb_digits h alpha Hh Hlen Ha) as (Hrgb & Hhash & Hbytes).
  destruct (hex_to_rgb_digits h [] Hh Hlen (List.Forall_nil _)) as (Hrgb0 & Hhash0 & _).
  rewrite app_nil_r in Hrgb0, Hhash0.
  split; [exact Hs|]. split; [exact Hsa|]. split.
  { unfold color_for_display. change ("#" ++ h ++ alpha) with ("#"%char :: h ++ alpha).
    change ("#"%char :: h ++ alpha) with ("#" ++ h ++ alpha). rewrite Hlow, Hsa.
    destruct (py_lower h); [contradiction|reflexivity]. }
  split.
  { unfold color_for_display. change ("#" ++ h) with ("#"%char :: h).
    specialize (Hlow []). rewrite app_nil_r in Hlow.
    change ("#"%char :: h) with ("#" ++ h). rewrite Hlow, Hs.
    destruct (py_lower h); [contradiction|reflexivity]. }
  split; [rewrite Hhash; exact Hrgb|].
  split; [rewrite Hhash, Hhash0, Hrgb, Hrgb0; reflexivity|].
  split; [symmetry; exact Hhash0|exact Hbytes].
Qed.

Lemma well_formed_colour_witness :
  strip_alpha ("#" ++ "EA9a97" ++ "E6") = py_lower "EA9a97"
  /\ hex_to_rgb ("#" ++ "EA9a97" ++ "E6") = Ok (234, 154, 151).
Proof.
  assert (H1 : hex_digits "EA9a97") by (repeat constructor; vm_compute; eauto).
  assert (H2 : hex_digits "E6") by (repeat constructor; vm_compute; eauto).
  pose proof (well_formed_colour_decodes "EA9a97" "E6" H1 eq_refl H2 eq_refl)
    as (_ & Hs & _ & _ & Hrgb & _).
  split; [exact Hs|exact Hrgb].
Defined.

(** ** Channels *)

Lemma int_base16_raises s e : int_base16 s = Raise e -> e = ValueError.
Proof.
  unfold int_base16. intros H. repeat case_match; congruence.
Qed.

Lemma hex_to_rgb_raises s e :
  hex_to_rgb s = Raise e ->
  e = ValueError /\ (6 <= length (normalize_color s))%nat.
Proof.
  unfold hex_to_rgb.
  destruct (Nat.leb_spec 6 (length (normalize_color s))) as [Hlen|Hlen]; [|discriminate].
  intros H. split; [|exact Hlen].
  destruct (int_base16 (slice 0 2 (normalize_color s))) as [r|e0] eqn:Hr; simpl in H.
  - destruct (int_base16 (slice 2 4 (normalize_color s))) as [g|e1] eqn:Hg; simpl in H.
    + destruct (int_base16 (slice 4 6 (normalize_color s))) as [b|e2] eqn:Hb;
        simpl in H; [discriminate|].
      injection H as <-. eapply int_base16_raises, Hb.
    + injection H as <-. eapply int_base16_raises, Hg.
  - injection H as <-. eapply int_base16_raises, Hr.
Qed.

(** X3: the channels [hex_to_rgb] returns are integers between -15 and
    255, and both ends are reached: a digit pair is read by [int], which
    takes a sign.  A colour shorter than six characters once normalised
    decodes to black, and the only exception is [ValueError], on a colour
    of six characters or more. *)
Theorem hex_to_rgb_channel_range :
  (forall (s : pystr) r g b,
     hex_to_rgb s = Ok (r, g, b) ->
     -15 <= r <= 255 /\ -15 <= g <= 255 /\ -15 <= b <= 255)
  /\ (forall (s : pystr) e,
        hex_to_rgb s = Raise e ->
        e = ValueError /\ (6 <= length (normalize_color s))%nat)
  /\ (forall s : pystr,
        (length (normalize_color s) < 6)%nat -> hex_to_rgb s = Ok (0, 0, 0))
  /\ hex_to_rgb "#-f-Fff" = Ok (-15, -15, 255).
Proof.
  split; [exact hex_to_rgb_bounds|]. split; [exact hex_to_rgb_raises|].
  split; [|reflexivity].
  intros s Hlen. unfold hex_to_rgb.
  destruct (Nat.leb_spec 6 (length (normalize_color s))); [lia|reflexivity].
Qed.

(** ** The RGB distance as a metric *)

Lemma square_gap (a b : Z) : (a - b) ^ 2 = (b - a) ^ 2.
Proof. rewrite !Z.pow_2_r. ring. Qed.

(** X4: the RGB distance is symmetric, the error included: the distance
    from [a] to [b] and the distance from [b] to [a] are the same number,
    or both calls raise [ValueError]. *)
Theorem rgb_distance_symmetric (a b : pystr) :
  rgb_distance a b = rgb_distance b a.
Proof.
  unfold rgb_distance.
  destruct (hex_to_rgb (strip_alpha a)) as [[[r1 g1] b1]|e1] eqn:Ha,
    (hex_to_rgb (strip_alpha b)) as [[[r2 g2] b2]|e2] eqn:Hb; simpl;
    try reflexivity.
  - rewrite (square_gap r1 r2), (square_gap g1 g2), (square_gap b1 b2). reflexivity.
  - apply hex_to_rgb_raises in Ha as [-> _], Hb as [-> _]. reflexivity.
Qed.

Lemma sqrt_positive_checked : all_from sqrt_positive (Z.to_nat 218701) 0 = true.
Proof. vm_compute. reflexivity. Qed.

Lemma sqrt_in_range_checked : all_from sqrt_in_range (Z.to_nat 195076) 0 = true.
Proof. vm_compute. reflexivity. Qed.

Lemma squares_vanish (x y z : Z) : x ^ 2 + y ^ 2 + z ^ 2 = 0 -> x = 0 /\ y = 0 /\ z = 0.
Proof. rewrite !Z.pow_2_r. intros H. repeat split; nia. Qed.

(** X5: a distance that is returned is not negative, and it is null
    exactly when the two colours decode to the same three channels. *)
Theorem rgb_distance_null (a b : pystr) (d : float) :
  rgb_distance a b = Ok d ->
  (0 <=? d)%float = true
  /\ (d = 0%float <-> hex_to_rgb (strip_alpha a) = hex_to_rgb (strip_alpha b)).
Proof.
  unfold rgb_distance.
  destruct (hex_to_rgb (strip_alpha a)) as [[[r1 g1] b1]|] eqn:H1; simpl; [|easy].
  destruct (hex_to_rgb (strip_alpha b)) as [[[r2 g2] b2]|] eqn:H2; simpl; [|easy].
  intros [= <-].
  apply hex_to_rgb_bounds in H1 as (Hr1 & Hg1 & Hb1).
  apply hex_to_rgb_bounds in H2 as (Hr2 & Hg2 & Hb2).
  pose proof (channel_gap_bound r1 r2 Hr1 Hr2).
  pose proof (channel_gap_bound g1 g2 Hg1 Hg2).
  pose proof (channel_gap_bound b1 b2 Hb1 Hb2).
  set (n := (r1 - r2) ^ 2 + (g1 - g2) ^ 2 + (b1 - b2) ^ 2) in *.
  assert (Hn : sqrt_positive n = true).
  { apply (all_from_spec sqrt_positive (Z.to_nat 218701) 0);
      [apply sqrt_positive_checked|]. rewrite Z2Nat.id; lia. }
  unfold sqrt_positive in Hn. apply andb_true_iff in Hn as [Hpos Hnull].
  split; [exact Hpos|]. split.
  - intros Hd. rewrite Hd in Hnull.
    destruct (Z.eqb_spec n 0) as [Hz|Hz]; [|discriminate].
    apply squares_vanish in Hz as (? & ? & ?).
    replace r1 with r2 by lia. replace g1 with g2 by lia.
    replace b1 with b2 by lia. reflexivity.
  - intros [= -> -> ->]. subst n.
    replace ((r2 - r2) ^ 2 + (g2 - g2) ^ 2 + (b2 - b2) ^ 2) with 0
      by (rewrite !Z.sub_diag; reflexivity).
    reflexivity.
Qed.

Lemma rgb_distance_null_witness :
  (0 <=? 0)%float = true
  /\ (0%float = 0%float
      <-> hex_to_rgb (strip_alpha "#EA9A97") = hex_to_rgb (strip_alpha "ea9a97ff")).
Proof.
  apply (rgb_distance_null "#EA9A97" "ea9a97ff" 0%float). vm_compute. reflexivity.
Defined.

(** The alpha-stripped form of a well-formed colour: its six digits,
    lower-cased, and perhaps more digits. *)
Lemma strip_alpha_digits (h rest : pystr) :
  hex_digits h -> length h = 6%nat -> hex_digits rest ->
  exists rest' : pystr,
    strip_alpha ("#" ++ h ++ rest) = py_lower h ++ rest' /\ hex_digits rest'.
Proof.
  intros Hh Hlen Hrest.
  assert (Hall : hex_digits (h ++ rest)) by (apply Forall_app; auto).
  destruct (normalize_digits _ Hall) as [_ Hn].
  unfold strip_alpha. rewrite Hn. unfold py_lower at 2 3. rewrite map_app.
  destruct (length (py_lower (h ++ rest)) =? 8)%nat.
  - exists []. split; [|constructor].
    rewrite take_app_length' by (rewrite length_map; symmetry; exact Hlen).
    rewrite app_nil_r. reflexivity.
  - exists (py_lower rest). split; [reflexivity|]. apply hex_digits_lower, Hrest.
Qed.

(** X6: between two colours of six hexadecimal digits, each with or
    without further digits (an alpha), the distance is returned and lies
    between 0 and the distance from black to white, the square root of
    195075. *)
Theorem rgb_distance_range (h1 rest1 h2 rest2 : pystr) :
  hex_digits h1 -> length h1 = 6%nat -> hex_digits rest1 ->
  hex_digits h2 -> length h2 = 6%nat -> hex_digits rest2 ->
  exists d,
    rgb_distance ("#" ++ h1 ++ rest1) ("#" ++ h2 ++ rest2) = Ok d
    /\ (0 <=? d)%float = true
    /\ (d <=? black_white)%float = true
    /\ rgb_distance "#000000" "#ffffff" = Ok black_white.
Proof.
  intros Hh1 Hlen1 Hrest1 Hh2 Hlen2 Hrest2.
  destruct (strip_alpha_digits h1 rest1 Hh1 Hlen1 Hrest1) as (r1 & Hs1 & Hr1).
  destruct (strip_alpha_digits h2 rest2 Hh2 Hlen2 Hrest2) as (r2 & Hs2 & Hr2).
  assert (Hl1 : length (py_lower h1) = 6%nat)
    by (unfold py_lower; rewrite length_map; exact Hlen1).
  assert (Hl2 : length (py_lower h2) = 6%nat)
    by (unfold py_lower; rewrite length_map; exact Hlen2).
  destruct (hex_to_rgb_digits (py_lower h1) r1 (hex_digits_lower _ Hh1) Hl1 Hr1)
    as (Hrgb1 & _ & B1 & B2 & B3).
  destruct (hex_to_rgb_digits (py_lower h2) r2 (hex_digits_lower _ Hh2) Hl2 Hr2)
    as (Hrgb2 & _ & B4 & B5 & B6).
  unfold rgb_distance at 1. rewrite Hs1, Hs2, Hrgb1, Hrgb2. simpl.
  eexists. split; [reflexivity|].
  set (x1 := hex_value (slice 0 2 (py_lower h1))) in *.
  set (y1 := hex_value (slice 2 4 (py_lower h1))) in *.
  set (z1 := hex_value (slice 4 6 (py_lower h1))) in *.
  set (x2 := hex_value (slice 0 2 (py_lower h2))) in *.
  set (y2 := hex_value (slice 2 4 (py_lower h2))) in *.
  set (z2 := hex_value (slice 4 6 (py_lower h2))) in *.
  assert (Hsq : forall u v, 0 <= u <= 255 -> 0 <= v <= 255 -> 0 <= (u - v) ^ 2 <= 65025).
  { intros u v Hu Hv. rewrite Z.pow_2_r. assert (Hd : -255 <= u - v <= 255) by lia.
    revert Hd. generalize (u - v). intros w Hw. nia. }
  pose proof (Hsq x1 x2 B1 B4). pose proof (Hsq y1 y2 B2 B5).
  pose proof (Hsq z1 z2 B3 B6).
  set (n := (x1 - x2) ^ 2 + (y1 - y2) ^ 2 + (z1 - z2) ^ 2) in *.
  assert (Hpos : sqrt_positive n = true).
  { apply (all_from_spec sqrt_positive (Z.to_nat 218701) 0);
      [apply sqrt_positive_checked|]. rewrite Z2Nat.id; lia. }
  assert (Hmax : sqrt_in_range n = true).
  { apply (all_from_spec sqrt_in_range (Z.to_nat 195076) 0);
      [apply sqrt_in_range_checked|]. rewrite Z2Nat.id; lia. }
  unfold sqrt_positive in Hpos. apply andb_true_iff in Hpos as [Hpos _].
  split; [exact Hpos|]. split; [exact Hmax|]. vm_compute. reflexivity.
Qed.

Lemma rgb_distance_range_witness :
  exists d,
    rgb_distance ("#" ++ "EA9a97" ++ "e6") ("#" ++ "3e8fb0" ++ []) = Ok d
    /\ (0 <=? d)%float = true
    /\ (d <=? black_white)%float = true
    /\ rgb_distance "#000000" "#ffffff" = Ok black_white.
Proof.
  apply (rgb_distance_range "EA9a97" "e6" "3e8fb0" []);
    try reflexivity; repeat constructor; vm_compute; eauto.
Defined.

(** ** Order of binary64 numbers, continued *)

Lemma SFltb_leb a b : SFltb a b = true -> SFleb a b = true.
Proof.
  unfold SFleb, SFltb.
  destruct a as [[|]|[|]| |[|] ma ea], b as [[|]|[|]| |[|] mb eb];
    simpl; try discriminate; try reflexivity; intros H1; compare_cases.
Qed.

Lemma SFleb_total a b :
  SFltb a (S754_infinity false) = true -> SFltb b (S754_infinity false) = true ->
  SFltb a b = false -> SFleb b a = true.
Proof.
  unfold SFleb, SFltb.
  destruct a as [[|]|[|]| |[|] ma ea], b as [[|]|[|]| |[|] mb eb];
    simpl; try discriminate; try reflexivity; intros H1 H2 H3; compare_cases.
Qed.

Lemma float_ltb_leb (a b : float) :
  (a <? b)%float = true -> (a <=? b)%float = true.
Proof. rewrite FloatAxioms.ltb_spec, FloatAxioms.leb_spec. apply SFltb_leb. Qed.

Lemma float_leb_total (a b : float) :
  (a <? infinity)%float = true -> (b <? infinity)%float = true ->
  (a <? b)%float = false -> (b <=? a)%float = true.
Proof.
  rewrite !FloatAxioms.ltb_spec, FloatAxioms.leb_spec.
  change (Prim2SF infinity) with (S754_infinity false). apply SFleb_total.
Qed.

(** ** The nearest slot is the first minimum *)

Section NearestSlot.

Variable color_delta_e : pystr -> pystr -> option float.

Local Abbreviation farther target d :=
  (fun entry : list ascii * list ascii =>
     exists d', rgb_distance target (snd entry) = Ok d' /\ (d <? d')%float = true).
Local Abbreviation not_nearer target d :=
  (fun entry : list ascii * list ascii =>
     exists d', rgb_distance target (snd entry) = Ok d' /\ (d <=? d')%float = true).

Lemma closest_scan_minimum target items :
  forall before key color mid m de res,
    rgb_distance target color = Ok m ->
    de = delta_e_distance color_delta_e target color ->
    Forall (farther target m) before ->
    Forall (not_nearer target m) mid ->
    closest_scan color_delta_e target items (key, m, de) = Ok res ->
    exists before' color' after',
      before ++ (key, color) :: mid ++ items
      = before' ++ (fst (fst res), color') :: after'
      /\ rgb_distance target color' = Ok (snd (fst res))
      /\ snd res = delta_e_distance color_delta_e target color'
      /\ Forall (farther target (snd (fst res))) before'
      /\ Forall (not_nearer target (snd (fst res))) after'.
Proof.
  induction items as [|[k c] rest IH]; simpl;
    intros before key color mid m de res Hm Hde Hbefore Hmid Hres.
  - injection Hres as <-. simpl. exists before, color, mid.
    rewrite app_nil_r. auto.
  - destruct (rgb_distance target c) as [x|] eqn:Hx; simpl in Hres; [|discriminate].
    destruct (x <? m)%float eqn:Hlt.
    + destruct (IH (before ++ (key, color) :: mid) k c [] x
                  (delta_e_distance color_delta_e target c) res Hx eq_refl) as
        (before' & color' & after' & Heq & Hrest); [| |exact Hres|].
      * apply Forall_app. split; [|constructor].
        -- eapply Forall_impl; [exact Hbefore|]. intros e (d' & Hd' & Hgt).
           exists d'. split; [exact Hd'|].
           eapply float_ltb_leb_trans; [exact Hlt|apply float_ltb_leb, Hgt].
        -- exists m. auto.
        -- eapply Forall_impl; [exact Hmid|]. intros e (d' & Hd' & Hge).
           exists d'. split; [exact Hd'|].
           eapply float_ltb_leb_trans; [exact Hlt|exact Hge].
      * constructor.
      * exists before', color', after'. split; [|exact Hrest].
        rewrite <- Heq. simpl. rewrite <- app_assoc. reflexivity.
    + destruct (IH before key color (mid ++ [(k, c)]) m de res Hm Hde Hbefore) as
        (before' & color' & after' & Heq & Hrest); [|exact Hres|].
      * apply Forall_app. split; [exact Hmid|]. constructor; [|constructor].
        exists x. split; [exact Hx|].
        apply float_leb_total;
          [eapply rgb_distance_finite, Hx|eapply rgb_distance_finite, Hm|exact Hlt].
      * exists before', color', after'. split; [|exact Hrest].
        rewrite <- Heq. rewrite <- app_assoc. reflexivity.
Qed.

Lemma find_closest_minimum (target : pystr) (palette : dict pystr)
    (key : pystr) (d : float) (de : option float) :
  palette <> [] ->
  find_closest_base16_color color_delta_e target palette = Ok (key, d, de) ->
  exists before color after,
    palette = before ++ (key, color) :: after
    /\ rgb_distance (strip_alpha target) color = Ok d
    /\ de = delta_e_distance color_delta_e (strip_alpha target) color
    /\ Forall (farther (strip_alpha target) d) before
    /\ Forall (not_nearer (strip_alpha target) d) after.
Proof.
  intros Hne Hres.
  destruct palette as [|[k c] rest]; [congruence|].
  unfold find_closest_base16_color in Hres. simpl in Hres.
  destruct (rgb_distance (strip_alpha target) c) as [x|] eqn:Hx; simpl in Hres;
    [|discriminate].
  rewrite (rgb_distance_finite _ _ _ Hx) in Hres.
  destruct (closest_scan_minimum _ rest [] k c [] x _ _ Hx eq_refl
              (List.Forall_nil _) (List.Forall_nil _) Hres)
    as (before & color & after & Heq & Hd & Hde & Hbefore & Hafter).
  simpl in *. exists before, color, after. auto.
Qed.

(** X7: on a non-empty palette the slot [find_closest_base16_color]
    names is the first slot at the least RGB distance from the
    alpha-stripped target: every slot before it is strictly farther, no
    slot after it is nearer.  On an empty palette the answer is the slot
    [unknown] at an infinite distance. *)
Theorem closest_is_first_minimum (target : pystr) (palette : dict pystr)
    (key : pystr) (d : float) (de : option float) :
  palette <> [] ->
  find_closest_base16_color color_delta_e target palette = Ok (key, d, de) ->
  (exists before color after,
     palette = before ++ (key, color) :: after
     /\ rgb_distance (strip_alpha target) color = Ok d
     /\ Forall (farther (strip_alpha target) d) before
     /\ Forall (not_nearer (strip_alpha target) d) after)
  /\ find_closest_base16_color color_delta_e target []
     = Ok (("unknown" : pystr), infinity, None).
Proof.
  intros Hne Hres. split; [|reflexivity].
  destruct (find_closest_minimum target palette key d de Hne Hres)
    as (before & color & after & Hsplit & Hd & _ & Hbefore & Hafter).
  exists before, color, after. auto.
Qed.

(** X27: a similar colour is matched against one slot only.  When a
    colour with no exact match is rewritten, the slot in its placeholder is
    the first slot at the least RGB distance, and it is the perceptual
    distance to that slot that is within the threshold: a slot that is
    perceptually near but is not the nearest in RGB is never used. *)
Theorem similar_colour_takes_nearest_slot (color : pystr)
    (color_map : gmap (list ascii) (list ascii * bool)) (palette : dict pystr)
    (threshold : option float) (r : pystr) :
  replace_color_with_variable color_delta_e color color_map palette threshold = Ok r ->
  r <> color ->
  color_map !! strip_alpha color = None ->
  exists t key before slot_color after d delta_e,
    threshold = Some t
    /\ r = with_alpha key (normalize_color color)
    /\ palette = before ++ (key, slot_color) :: after
    /\ rgb_distance (strip_alpha color) slot_color = Ok d
    /\ Forall (farther (strip_alpha color) d) before
    /\ Forall (not_nearer (strip_alpha color) d) after
    /\ delta_e_distance color_delta_e (strip_alpha color) slot_color = Some delta_e
    /\ (delta_e <=? t)%float = true.
Proof.
  intros Hres Hne Hmiss.
  destruct (replace_fuzzy color_delta_e _ _ _ _ _ Hres Hne Hmiss)
    as (t & key & d & de & -> & Hpos & Hclosest & Hle & ->).
  assert (Hpalette : palette <> []).
  { intros ->. unfold find_closest_base16_color in Hclosest. discriminate. }
  destruct (find_closest_minimum _ _ _ _ _ Hpalette Hclosest)
    as (before & slot_color & after & Hsplit & Hd & Hde & Hbefore & Hafter).
  exists t, key, before, slot_color, after, d, de.
  repeat split; try assumption. symmetry. exact Hde.
Qed.

End NearestSlot.

Lemma closest_is_first_minimum_witness :
  (exists before color after,
     rose_palette = before ++ (("base0A" : pystr), color) :: after
     /\ rgb_distance (strip_alpha "#ea9b98") color
        = Ok (PrimFloat.sqrt (float_of_Z 2))
     /\ Forall (fun entry =>
                  exists d', rgb_distance (strip_alpha "#ea9b98") (snd entry) = Ok d'
                             /\ (PrimFloat.sqrt (float_of_Z 2) <? d')%float = true)
          before
     /\ Forall (fun entry =>
                  exists d', rgb_distance (strip_alpha "#ea9b98") (snd entry) = Ok d'
                             /\ (PrimFloat.sqrt (float_of_Z 2) <=? d')%float = true)
          after)
  /\ find_closest_base16_color delta_none "#ea9b98" []
     = Ok (("unknown" : pystr), infinity, None).
Proof.
  apply (closest_is_first_minimum delta_none "#ea9b98" rose_palette "base0A"
           (PrimFloat.sqrt (float_of_Z 2)) None).
  - discriminate.
  - vm_compute. reflexivity.
Defined.

Lemma similar_colour_witness :
  exists t key before slot_color after d delta_e,
    Some 5%float = Some t
    /\ ("{{ base0A }}" : pystr) = with_alpha key (normalize_color "#ea9b98")
    /\ rose_palette = before ++ (key, slot_color) :: after
    /\ rgb_distance (strip_alpha "#ea9b98") slot_color = Ok d
    /\ Forall (fun entry =>
                 exists d', rgb_distance (strip_alpha "#ea9b98") (snd entry) = Ok d'
                            /\ (d <? d')%float = true) before
    /\ Forall (fun entry =>
                 exists d', rgb_distance (strip_alpha "#ea9b98") (snd entry) = Ok d'
                            /\ (d <=? d')%float = true) after
    /\ delta_e_distance (delta_const 1.5) (strip_alpha "#ea9b98") slot_color
       = Some delta_e
    /\ (delta_e <=? t)%float = true.
Proof.
  apply (similar_colour_takes_nearest_slot (delta_const 1.5) "#ea9b98"
           (build_color_to_base16_map rose_palette) rose_palette (Some 5%float)
           "{{ base0A }}").
  - vm_compute. reflexivity.
  - discriminate.
  - vm_compute. reflexivity.
Defined.

(** ** The exact index *)

Lemma build_map_snoc (palette : dict pystr) key color :
  build_color_to_base16_map (palette ++ [(key, color)])
  = <[normalize_color color := (key, true)]> (build_color_to_base16_map palette).
Proof. unfold build_color_to_base16_map. rewrite fold_left_app. reflexivity. Qed.

(** X8: the index [build_color_to_base16_map] builds binds a normalised
    colour to the last palette slot that has it, flagged as exact; a
    normalised colour no slot has is not bound. *)
Theorem index_binds_last_slot (palette : dict pystr) (n : pystr) :
  match build_color_to_base16_map palette !! n with
  | Some (key, flag) =>
      flag = true
      /\ exists before color after,
           palette = before ++ (key, color) :: after
           /\ normalize_color color = n
           /\ Forall (fun entry => normalize_color (snd entry) <> n) after
  | None => Forall (fun entry => normalize_color (snd entry) <> n) palette
  end.
Proof.
  induction palette as [|[key color] palette IH] using rev_ind.
  - unfold build_color_to_base16_map. simpl. rewrite lookup_empty. constructor.
  - rewrite build_map_snoc.
    destruct (decide (normalize_color color = n)) as [Heq|Hne].
    + rewrite <- Heq, lookup_insert_eq. split; [reflexivity|].
      exists palette, color, []. repeat split. constructor.
    + rewrite lookup_insert_ne by exact Hne.
      destruct (build_color_to_base16_map palette !! n) as [[k flag]|].
      * destruct IH as (Hflag & before & c & after & -> & Hn & Hafter).
        split; [exact Hflag|].
        exists before, c, (after ++ [(key, color)]). split; [|split].
        -- rewrite <- app_assoc. reflexivity.
        -- exact Hn.
        -- apply Forall_app. split; [exact Hafter|]. constructor; [exact Hne|constructor].
      * apply Forall_app. split; [exact IH|]. constructor; [exact Hne|constructor].
Qed.

(** ** The fields of a template *)

(** X9: the template [generate_template] returns holds, of the theme's
    top-level keys, only [name], [type], [colors] and [tokenColors], in
    that order, each when the theme has it: every other key of the theme
    is dropped.  [name] and [type] become the two metadata placeholders
    whatever the theme holds under them. *)
Theorem template_keeps_schema_fields
    (color_delta_e : pystr -> pystr -> option float) (theme_data : dict json)
    (palette : dict pystr) (threshold : option float) (template_data : dict json) :
  generate_template color_delta_e theme_data palette threshold = Ok template_data ->
  dict_keys template_data = filter (fun k => dict_has theme_data k = true) schema_keys
  /\ (dict_has theme_data "name" = true ->
      dict_get template_data "name" = Some (JStr "{{ theme_name }}"))
  /\ (dict_has theme_data "type" = true ->
      dict_get template_data "type" = Some (JStr "{{ theme_type }}"))
  /\ (forall k, k ∉ schema_keys -> dict_get template_data k = None).
Proof.
  intros Hrun.
  apply generate_template_fields in Hrun as (colors & tokens & Hc & Hk & ->).
  assert (Hcolors : dict_has theme_data "colors" = match colors with Some _ => true | None => false end).
  { unfold dict_has, process_section in *.
    destruct (dict_get theme_data "colors") as [v|]; simpl in Hc.
    - destruct (process_theme_value _ v _ _ _); [|discriminate].
      injection Hc as <-. reflexivity.
    - injection Hc as <-. reflexivity. }
  assert (Htokens : dict_has theme_data "tokenColors" = match tokens with Some _ => true | None => false end).
  { unfold dict_has, process_section in *.
    destruct (dict_get theme_data "tokenColors") as [v|]; simpl in Hk.
    - destruct (process_theme_value _ v _ _ _); [|discriminate].
      injection Hk as <-. reflexivity.
    - injection Hk as <-. reflexivity. }
  unfold schema_keys. rewrite !filter_cons, filter_nil.
  repeat match goal with
         | |- context [decide ?P] => destruct (decide P)
         end;
    rewrite ?Hcolors, ?Htokens in *; unfold template_fields, dict_has in *;
    destruct (dict_get theme_data "name"), (dict_get theme_data "type"),
      colors, tokens; try discriminate; try congruence;
    (split; [reflexivity|]); (split; [intros; try reflexivity; discriminate|]);
    (split; [intros; try reflexivity; discriminate|]);
    intros k Hk'; rewrite !not_elem_of_cons in Hk';
    destruct Hk' as (H1 & H2 & H3 & H4 & _);
    cbn [opt_field fmap option_fmap option_map app];
    rewrite ?dict_get_cons, ?pystr_eqb_neq by congruence; reflexivity.
Qed.

Lemma template_keeps_schema_fields_witness :
  dict_keys (cursor_template "{{ base0A }}")
  = filter (fun k => dict_has (cursor_theme "#ea9a97") k = true) schema_keys
  /\ (dict_has (cursor_theme "#ea9a97") "name" = true ->
      dict_get (cursor_template "{{ base0A }}") "name" = Some (JStr "{{ theme_name }}"))
  /\ (dict_has (cursor_theme "#ea9a97") "type" = true ->
      dict_get (cursor_template "{{ base0A }}") "type" = Some (JStr "{{ theme_type }}"))
  /\ (forall k, k ∉ schema_keys -> dict_get (cursor_template "{{ base0A }}") k = None).
Proof.
  apply (template_keeps_schema_fields delta_none (cursor_theme "#ea9a97")
           rose_palette None).
  vm_compute. reflexivity.
Defined.

(** ** Thresholds that are not positive *)

Lemma walk_list_ext {A B} (f g : A -> outcome B) l :
  Forall (fun x => f x = g x) l -> walk_list f l = walk_list g l.
Proof.
  induction 1 as [|x r Hx _ IH]; simpl; [reflexivity|]. rewrite Hx, IH. reflexivity.
Qed.

Lemma walk_items_ext {A B} (f g : A -> outcome B) l :
  Forall (fun kv => f (snd kv) = g (snd kv)) l -> walk_items f l = walk_items g l.
Proof.
  induction 1 as [|[k x] r Hx _ IH]; simpl in *; [reflexivity|].
  rewrite Hx, IH. reflexivity.
Qed.

Section Thresholds.

Variable color_delta_e : pystr -> pystr -> option float.

Lemma replace_not_positive color color_map palette (t : float) :
  (0 <? t)%float = false ->
  replace_color_with_variable color_delta_e color color_map palette (Some t)
  = replace_color_with_variable color_delta_e color color_map palette None.
Proof.
  intros Ht. unfold replace_color_with_variable. rewrite Ht. reflexivity.
Qed.

Lemma process_not_positive color_map palette (t : float) value :
  (0 <? t)%float = false ->
  process_theme_value color_delta_e value color_map palette (Some t)
  = process_theme_value color_delta_e value color_map palette None.
Proof.
  intros Ht.
  induction value as [| | | |s|items IH|items IH] using json_ind'; simpl;
    try reflexivity.
  - rewrite replace_not_positive by exact Ht. reflexivity.
  - rewrite (walk_list_ext
               (fun v => process_theme_value color_delta_e v color_map palette (Some t))
               (fun v => process_theme_value color_delta_e v color_map palette None)
               items IH).
    reflexivity.
  - rewrite (walk_items_ext
               (fun v => process_theme_value color_delta_e v color_map palette (Some t))
               (fun v => process_theme_value color_delta_e v color_map palette None)
               items IH).
    reflexivity.
Qed.

(** X10: a threshold that is not above zero (zero, a negative number,
    not-a-number) is no threshold: [generate_template] returns, and what
    it returns is the exact-match template. *)
Theorem threshold_not_positive_is_exact (theme_data : dict json)
    (palette : dict pystr) (t : float) :
  (0 <? t)%float = false ->
  generate_template color_delta_e theme_data palette (Some t)
  = generate_template color_delta_e theme_data palette None
  /\ returns (generate_template color_delta_e theme_data palette (Some t)).
Proof.
  intros Ht.
  assert (Heq : generate_template color_delta_e theme_data palette (Some t)
                = generate_template color_delta_e theme_data palette None).
  { rewrite !generate_template_sections. unfold process_section.
    destruct (dict_get theme_data "colors") as [colors|],
      (dict_get theme_data "tokenColors") as [tokens|];
      rewrite ?process_not_positive by exact Ht; reflexivity. }
  split; [exact Heq|]. rewrite Heq. apply generate_template_no_threshold_returns.
Qed.

End Thresholds.

Lemma threshold_not_positive_witness :
  generate_template (delta_const 1.5) (cursor_theme "#ea9b98") rose_palette
    (Some 0%float)
  = generate_template (delta_const 1.5) (cursor_theme "#ea9b98") rose_palette None
  /\ returns (generate_template (delta_const 1.5) (cursor_theme "#ea9b98")
                rose_palette (Some 0%float)).
Proof.
  apply (threshold_not_positive_is_exact (delta_const 1.5) (cursor_theme "#ea9b98")
           rose_palette 0%float).
  vm_compute. reflexivity.
Defined.

(** ** A slot called [self] *)

(** X11: a palette slot called [self] stops every rendering: the binding
    context [parse_base16_palette] builds from such a source keeps the
    slot, and [render_theme] raises [TypeError] on it, whatever the
    template. *)
Theorem self_slot_stops_rendering (data : dict yaml) (palette : dict yaml)
    (template : Template) :
  dict_get_default data "palette" (YMap []) = YMap palette ->
  dict_wf palette ->
  dict_has palette "self" = true ->
  exists context,
    parse_base16_palette data = Ok context
    /\ dict_get context "self" = dict_get palette "self"
    /\ render_theme template context = Raise TypeError.
Proof.
  intros Hpal Hwf Hself.
  destruct (parse_context_lookup data palette Hpal Hwf) as (context & Hrun & Hget).
  exists context. split; [exact Hrun|].
  unfold render_theme, dict_has in *. rewrite Hget.
  destruct (dict_get palette "self"); [auto|discriminate].
Qed.

Lemma self_slot_witness :
  exists context,
    parse_base16_palette
      [ (("palette" : pystr), YMap [ (("self" : pystr), YStr "#ea9a97") ]) ]
    = Ok context
    /\ dict_get context "self" = Some (YStr "#ea9a97")
    /\ render_theme accent_template context = Raise TypeError.
Proof.
  apply (self_slot_stops_rendering
           [ (("palette" : pystr), YMap [ (("self" : pystr), YStr "#ea9a97") ]) ]
           [ (("self" : pystr), YStr "#ea9a97") ] accent_template).
  - reflexivity.
  - refine (bool_decide_unpack _ _). vm_compute. exact I.
  - reflexivity.
Defined.

(** ** Dictionaries, continued *)

Lemma dict_set_in {V} (d : dict V) k v k' v' :
  In (k', v') (dict_set d k v) -> (k' = k /\ v' = v) \/ In (k', v') d.
Proof.
  induction d as [|[k0 v0] r IH]; simpl.
  - intros [[= <- <-]|[]]. auto.
  - destruct (pystr_eqb k0 k) eqn:Hk; simpl.
    + apply pystr_eqb_eq in Hk as ->. intros [[= <- <-]|Hin]; auto.
    + intros [Heq|Hin]; [auto|]. destruct (IH Hin); auto.
Qed.

Lemma dict_set_keys {V} (d : dict V) k v :
  dict_keys (dict_set d k v)
  = if dict_has d k then dict_keys d else dict_keys d ++ [k].
Proof.
  unfold dict_has. induction d as [|[k0 v0] r IH]; simpl; [reflexivity|].
  destruct (pystr_eqb k0 k) eqn:Hk; simpl; [reflexivity|].
  rewrite IH. destruct (dict_get r k); reflexivity.
Qed.

Lemma dict_set_wf {V} (d : dict V) k v : dict_wf d -> dict_wf (dict_set d k v).
Proof.
  unfold dict_wf. rewrite dict_set_keys. unfold dict_has.
  destruct (dict_get d k) eqn:Hk; [auto|].
  intros Hwf. apply NoDup_app. split; [exact Hwf|]. split.
  - intros x Hx Hx'. apply list_elem_of_singleton in Hx' as ->.
    apply dict_get_none in Hk. apply Hk, list_elem_of_In, Hx.
  - apply NoDup_singleton.
Qed.

Lemma dict_wf_nil {V} : dict_wf ([] : dict V).
Proof. apply NoDup_nil_2. Qed.

(** ** Theme colours by key path *)

Lemma scan_colors_cons key value rest color_map :
  scan_colors ((key, value) :: rest) color_map
  = scan_colors rest
      match value with
      | JStr s =>
          if startswith_hash s then dict_set color_map ("colors." ++ key) value
          else color_map
      | _ => color_map
      end.
Proof. reflexivity. Qed.

Lemma scan_colors_entries colors :
  forall color_map k v,
    In (k, v) (scan_colors colors color_map) ->
    In (k, v) color_map
    \/ exists key s,
         k = "colors." ++ key /\ v = JStr s /\ startswith_hash s = true
         /\ In (key, JStr s) colors.
Proof.
  induction colors as [|[key value] rest IH]; intros color_map k v Hin;
    [left; exact Hin|].
  rewrite scan_colors_cons in Hin. apply IH in Hin as [Hin|(key' & s & H)].
  - destruct value as [| | | |s| |]; try (left; exact Hin).
    destruct (startswith_hash s) eqn:Hs; [|left; exact Hin].
    apply dict_set_in in Hin as [[-> ->]|Hin]; [|left; exact Hin].
    right. exists key, s. repeat split; [exact Hs|now left].
  - right. exists key', s. destruct H as (? & ? & ? & ?). repeat split; try assumption.
    now right.
Qed.

Lemma scan_colors_wf colors :
  forall color_map, dict_wf color_map -> dict_wf (scan_colors colors color_map).
Proof.
  induction colors as [|[key value] rest IH]; intros color_map Hwf; [exact Hwf|].
  rewrite scan_colors_cons. apply IH.
  destruct value as [| | | |s| |]; try exact Hwf.
  destruct (startswith_hash s); [apply dict_set_wf|]; exact Hwf.
Qed.

Lemma scan_token_entries idx token color_map color_map' :
  scan_token idx token color_map = Ok color_map' ->
  (dict_wf color_map -> dict_wf color_map')
  /\ forall k v, In (k, v) color_map' -> In (k, v) color_map \/ token_key k.
Proof.
  unfold scan_token. intros H.
  destruct (contains token "settings") as [[|]|]; cbn [mbind outcome_bind] in H;
    try discriminate.
  2: { injection H as <-. auto. }
  destruct (subscript token "settings") as [settings|]; cbn [mbind outcome_bind] in H;
    [|discriminate].
  destruct (get_default token "scope" (JArr [])) as [scope|];
    cbn [mbind outcome_bind] in H; [|discriminate].
  destruct (scope_str scope idx) as [text|]; cbn [mbind outcome_bind] in H;
    [|discriminate].
  destruct (contains settings "foreground") as [has_fg|];
    cbn [mbind outcome_bind] in H; [|discriminate].
  assert (Hfg : exists m1,
             (if has_fg
              then foreground ← subscript settings "foreground";
                   mret (dict_set color_map
                           ("tokenColors[" ++ text ++ "].foreground") foreground)
              else mret color_map) = Ok m1
             /\ (dict_wf color_map -> dict_wf m1)
             /\ forall k v, In (k, v) m1 -> In (k, v) color_map \/ token_key k).
  { destruct has_fg.
    - destruct (subscript settings "foreground") as [fg|]; cbn [mbind outcome_bind] in *;
        [|discriminate].
      eexists. split; [reflexivity|]. split; [apply dict_set_wf|].
      intros k v Hin. apply dict_set_in in Hin as [[-> ->]|Hin]; [|auto].
      right. exists text. auto.
    - eexists. split; [reflexivity|]. auto. }
  destruct Hfg as (m1 & Hm1 & Hwf1 & Hin1). rewrite Hm1 in H.
  cbn [mbind outcome_bind] in H.
  destruct (contains settings "background") as [[|]|];
    cbn [mbind outcome_bind] in H; try discriminate.
  - destruct (subscript settings "background") as [bg|]; cbn [mbind outcome_bind] in H;
      [|discriminate].
    injection H as <-. split; [intros; apply dict_set_wf; auto|].
    intros k v Hin. apply dict_set_in in Hin as [[-> ->]|Hin]; [|auto].
    right. exists text. auto.
  - injection H as <-. auto.
Qed.

Lemma scan_tokens_entries tokens :
  forall idx color_map color_map',
    scan_tokens idx tokens color_map = Ok color_map' ->
    (dict_wf color_map -> dict_wf color_map')
    /\ forall k v, In (k, v) color_map' -> In (k, v) color_map \/ token_key k.
Proof.
  induction tokens as [|token rest IH]; simpl; intros idx color_map color_map' H.
  - injection H as <-. auto.
  - destruct (scan_token idx token color_map) as [m1|] eqn:H1;
      cbn [mbind outcome_bind] in H; [|discriminate].
    apply scan_token_entries in H1 as [Hwf1 Hin1].
    apply IH in H as [Hwf2 Hin2]. split; [auto|].
    intros k v Hin. apply Hin2 in Hin as [Hin|Hin]; auto.
Qed.

(** X12: the map [parse_vscode_theme] returns has each key once.  A key
    [colors.<name>] is bound to a string of the theme's [colors] section
    that begins with [#]; every other key is
    [tokenColors[<scope>].foreground] or [tokenColors[<scope>].background].
    A theme with neither section gives the empty map. *)
Theorem theme_colours_by_key (theme : dict json) (color_map : dict json) :
  parse_vscode_theme theme = Ok color_map ->
  dict_wf color_map
  /\ (forall k v,
        In (k, v) color_map ->
        (exists key s colors,
           k = "colors." ++ key /\ v = JStr s /\ startswith_hash s = true
           /\ dict_get theme "colors" = Some (JObj colors)
           /\ In (key, JStr s) colors)
        \/ token_key k)
  /\ (dict_get theme "colors" = None -> dict_get theme "tokenColors" = None ->
      color_map = []).
Proof.
  unfold parse_vscode_theme. intros H.
  assert (Hcolors : exists m0,
             match dict_get theme "colors" with
             | Some (JObj colors) => mret (scan_colors colors [])
             | Some _ => Raise OutsideFragment
             | None => mret []
             end = Ok m0
             /\ dict_wf m0
             /\ (dict_get theme "colors" = None -> m0 = [])
             /\ forall k v, In (k, v) m0 ->
                  exists key s colors,
                    k = "colors." ++ key /\ v = JStr s /\ startswith_hash s = true
                    /\ dict_get theme "colors" = Some (JObj colors)
                    /\ In (key, JStr s) colors).
  { destruct (dict_get theme "colors") as [[| | | | | |colors]|];
      cbn [mbind outcome_bind] in H; try discriminate.
    - eexists. split; [reflexivity|]. split; [apply scan_colors_wf, dict_wf_nil|].
      split; [discriminate|].
      intros k v Hin. apply scan_colors_entries in Hin as [[]|(key & s & Hk)].
      exists key, s, colors. tauto.
    - eexists. split; [reflexivity|]. split; [apply dict_wf_nil|].
      split; [reflexivity|]. intros k v []. }
  destruct Hcolors as (m0 & Hm0 & Hwf0 & Hnil0 & Hin0). rewrite Hm0 in H.
  cbn [mbind outcome_bind] in H.
  destruct (dict_get theme "tokenColors") as [token_colors|].
  - destruct (iterate token_colors) as [tokens|]; cbn [mbind outcome_bind] in H;
      [|discriminate].
    apply scan_tokens_entries in H as [Hwf Hin]. split; [auto|]. split.
    + intros k v Hkv. apply Hin in Hkv as [Hkv|Hkv]; auto.
    + discriminate.
  - injection H as <-. split; [exact Hwf0|]. split; [auto|]. auto.
Qed.

Lemma theme_colours_by_key_witness :
  dict_wf [ (("colors.editor.background" : pystr), JStr "#ea9a97");
            (("colors.errorForeground" : pystr), JStr "#eb6f92");
            (("tokenColors[string, string.quoted].foreground" : pystr),
             JStr "#3e8fb0") ]
  /\ (forall k v,
        In (k, v) [ (("colors.editor.background" : pystr), JStr "#ea9a97");
                    (("colors.errorForeground" : pystr), JStr "#eb6f92");
                    (("tokenColors[string, string.quoted].foreground" : pystr),
                     JStr "#3e8fb0") ] ->
        (exists key s colors,
           k = "colors." ++ key /\ v = JStr s /\ startswith_hash s = true
           /\ dict_get rose_theme "colors" = Some (JObj colors)
           /\ In (key, JStr s) colors)
        \/ token_key k)
  /\ (dict_get rose_theme "colors" = None ->
      dict_get rose_theme "tokenColors" = None ->
      [ (("colors.editor.background" : pystr), JStr "#ea9a97");
        (("colors.errorForeground" : pystr), JStr "#eb6f92");
        (("tokenColors[string, string.quoted].foreground" : pystr),
         JStr "#3e8fb0") ] = []).
Proof.
  apply (theme_colours_by_key rose_theme). vm_compute. reflexivity.
Defined.

Lemma scope_str_total scope idx : schema_scope scope -> returns (scope_str scope idx).
Proof.
  destruct scope as [| | | |s|items|]; cbv [schema_scope]; try contradiction.
  - intros _. eexists; reflexivity.
  - intros Hall. destruct items as [|item rest]; [eexists; reflexivity|].
    destruct (walk_list_total as_str (item :: rest)) as [parts Hparts].
    + eapply Forall_impl; [exact Hall|]. intros v [s ->]. eexists; reflexivity.
    + change (returns (parts ← walk_list as_str (item :: rest);
                       mret (join ", " parts))).
      rewrite Hparts. eexists; reflexivity.
Qed.

Lemma scan_token_total idx token color_map :
  schema_token token -> returns (scan_token idx token color_map).
Proof.
  destruct token as [| | | | | |items]; cbv [schema_token]; try contradiction.
  intros [Hsettings Hscope]. unfold scan_token.
  cbn [contains mbind outcome_bind mret outcome_ret]. unfold dict_has.
  destruct (dict_get items "settings") as [settings|] eqn:Hget;
    [|eexists; reflexivity].
  destruct settings as [| | | | | |fields]; try contradiction.
  cbn [subscript]. rewrite Hget. cbn [mbind outcome_bind mret outcome_ret get_default].
  destruct (scope_str_total (dict_get_default items "scope" (JArr [])) idx)
    as [text ->].
  { unfold dict_get_default. destruct (dict_get items "scope"); [exact Hscope|].
    constructor. }
  cbn [contains subscript mbind outcome_bind mret outcome_ret]. unfold dict_has.
  destruct (dict_get fields "foreground") as [fg|];
    cbn [contains subscript mbind outcome_bind mret outcome_ret]; unfold dict_has;
    destruct (dict_get fields "background") as [bg|];
    cbn [mbind outcome_bind mret outcome_ret]; eexists; reflexivity.
Qed.

Lemma scan_tokens_total tokens :
  forall idx color_map,
    Forall schema_token tokens -> returns (scan_tokens idx tokens color_map).
Proof.
  induction tokens as [|token rest IH]; simpl; intros idx color_map Hall.
  - eexists; reflexivity.
  - apply Forall_cons in Hall as [Htoken Hrest].
    destruct (scan_token_total idx token color_map Htoken) as [m ->].
    cbn [mbind outcome_bind]. apply IH, Hrest.
Qed.

(** X13: on a theme of the documented shape ([colors] an object,
    [tokenColors] an array of objects whose [settings] is an object and
    whose [scope] is a string or an array of strings, either section
    possibly absent) [parse_vscode_theme] returns a map: it raises
    nothing, whatever the values found under [colors], [foreground] and
    [background]. *)
Theorem theme_of_schema_shape_parses (theme : dict json) :
  schema_theme theme -> returns (parse_vscode_theme theme).
Proof.
  intros [Hcolors Htokens]. unfold parse_vscode_theme.
  destruct (dict_get theme "colors") as [[| | | | | |colors]|]; try contradiction;
    cbn [mbind outcome_bind mret outcome_ret];
    (destruct (dict_get theme "tokenColors") as [[| | | | |tokens|]|];
     try contradiction; [|eexists; reflexivity]);
    cbn [iterate mbind outcome_bind mret outcome_ret]; apply scan_tokens_total, Htokens.
Qed.

Lemma theme_of_schema_shape_witness : returns (parse_vscode_theme rose_theme).
Proof.
  apply (theme_of_schema_shape_parses rose_theme).
  split; vm_compute; [exact I|].
  constructor; [|constructor]. split; [exact I|].
  constructor; [eexists; reflexivity|]. constructor; [eexists; reflexivity|constructor].
Defined.

(** ** Buckets *)

Lemma dict_in_get {V} (d : dict V) k v :
  In (k, v) d -> exists v', dict_get d k = Some v'.
Proof.
  intros Hin. destruct (dict_get d k) eqn:Hk; [eauto|].
  apply dict_get_none in Hk. exfalso. apply Hk.
  unfold dict_keys. apply in_map_iff. exists (k, v). auto.
Qed.

Lemma dict_append_wf {V} (d : dict (list V)) k x :
  dict_wf d -> dict_wf (dict_append d k x).
Proof. apply dict_set_wf. Qed.

Lemma dict_append_in {V} (d : dict (list V)) k x k' entries :
  In (k', entries) (dict_append d k x) ->
  In (k', entries) d
  \/ (k' = k /\ exists old,
        entries = old ++ [x] /\ (old = [] \/ In (k, old) d)).
Proof.
  unfold dict_append, dict_get_default. intros Hin.
  apply dict_set_in in Hin as [[-> ->]|Hin]; [|auto].
  right. split; [reflexivity|].
  destruct (dict_get d k) as [old|] eqn:Hk.
  - exists old. split; [reflexivity|]. right. apply dict_get_in, Hk.
  - exists []. auto.
Qed.

Lemma dict_append_concat {V} (d : dict (list V)) k x :
  concat (map snd (dict_append d k x)) ≡ₚ concat (map snd d) ++ [x].
Proof.
  unfold dict_append, dict_get_default.
  induction d as [|[k0 v0] r IH]; simpl; [reflexivity|].
  destruct (pystr_eqb k0 k) eqn:Hk; simpl.
  - rewrite <- !app_assoc. apply Permutation_app_head.
    apply Permutation_app_comm.
  - rewrite IH, app_assoc. reflexivity.
Qed.

Lemma dict_set_concat_new {V} (d : dict (list V)) k entries :
  dict_get d k = None ->
  concat (map snd (dict_set d k entries)) = concat (map snd d) ++ entries.
Proof.
  induction d as [|[k0 v0] r IH]; simpl; intros Hk.
  - rewrite app_nil_r. reflexivity.
  - destruct (pystr_eqb k0 k); [discriminate|]. simpl.
    rewrite IH by exact Hk. rewrite app_assoc. reflexivity.
Qed.

(** ** Colour usage *)

Lemma frequency_map_snoc (vscode_colors : dict pystr) key color :
  build_color_frequency_map (vscode_colors ++ [(key, color)])
  = match normalize_color color with
    | [] => build_color_frequency_map vscode_colors
    | _ => dict_append (build_color_frequency_map vscode_colors)
             (normalize_color color) key
    end.
Proof. unfold build_color_frequency_map. rewrite fold_left_app. reflexivity. Qed.

(** X14: the frequency map has each normalised colour once; under a
    non-empty normalised colour it holds the keys of the theme colours that
    normalise to it, all of them, in the order the theme has them; a colour
    no key uses, and the empty normalised colour, are not in it. *)
Theorem frequency_map_buckets (vscode_colors : dict pystr) :
  dict_wf (build_color_frequency_map vscode_colors)
  /\ forall n : pystr,
       dict_get (build_color_frequency_map vscode_colors) n
       = match map fst (filter (fun entry => normalize_color (snd entry) = n)
                          vscode_colors) with
         | [] => None
         | keys => if bool_decide (n = []) then None else Some keys
         end.
Proof.
  induction vscode_colors as [|[key color] colors [IHwf IH]] using rev_ind.
  - split; [apply dict_wf_nil|]. reflexivity.
  - rewrite frequency_map_snoc. split.
    + destruct (normalize_color color); [exact IHwf|apply dict_append_wf, IHwf].
    + intros n. rewrite filter_app, map_app, filter_cons, filter_nil. simpl snd.
      destruct (normalize_color color) as [|c0 n0] eqn:Hcolor.
      * rewrite IH. destruct (decide ([] = n)) as [<-|Hne].
        -- rewrite bool_decide_eq_true_2 by reflexivity.
           destruct (map fst (filter _ colors)); reflexivity.
        -- simpl. rewrite app_nil_r. reflexivity.
      * unfold dict_append, dict_get_default.
        destruct (decide (c0 :: n0 = n)) as [<-|Hne].
        -- rewrite dict_get_set_eq, IH.
           rewrite bool_decide_eq_false_2 by discriminate. simpl map at 2.
           destruct (map fst (filter _ colors)) as [|k0 ks]; reflexivity.
        -- rewrite dict_get_set_ne by exact Hne. rewrite IH. simpl.
           rewrite app_nil_r. reflexivity.
Qed.

(** ** Theme colours by palette slot *)

Lemma base16_lookup_snoc (palette : dict pystr) key color :
  base16_lookup (palette ++ [(key, color)])
  = <[normalize_color color := key]> (base16_lookup palette).
Proof. unfold base16_lookup. rewrite fold_left_app. reflexivity. Qed.

Lemma base16_lookup_some (palette : dict pystr) n key :
  base16_lookup palette !! n = Some key ->
  exists color, In (key, color) palette /\ normalize_color color = n.
Proof.
  induction palette as [|[k c] palette IH] using rev_ind.
  - unfold base16_lookup. simpl. rewrite lookup_empty. discriminate.
  - rewrite base16_lookup_snoc. destruct (decide (normalize_color c = n)) as [Heq|Hne].
    + rewrite <- Heq, lookup_insert_eq. intros [= <-]. exists c.
      split; [apply in_or_app; right; now left|reflexivity].
    + rewrite lookup_insert_ne by exact Hne. intros H.
      destruct (IH H) as (color & Hin & Hn). exists color.
      split; [apply in_or_app; now left|exact Hn].
Qed.

Lemma base16_lookup_none (palette : dict pystr) n :
  base16_lookup palette !! n = None ->
  Forall (fun entry => normalize_color (snd entry) <> n) palette.
Proof.
  induction palette as [|[k c] palette IH] using rev_ind; [constructor|].
  rewrite base16_lookup_snoc. destruct (decide (normalize_color c = n)) as [Heq|Hne].
  - rewrite <- Heq, lookup_insert_eq. discriminate.
  - rewrite lookup_insert_ne by exact Hne. intros H.
    apply Forall_app. split; [apply IH, H|]. constructor; [exact Hne|constructor].
Qed.

Lemma lookup_is_index (palette : dict pystr) :
  base16_lookup palette = fst <$> build_color_to_base16_map palette.
Proof.
  induction palette as [|[k c] palette IH] using rev_ind.
  - unfold base16_lookup, build_color_to_base16_map. simpl. rewrite fmap_empty.
    reflexivity.
  - rewrite base16_lookup_snoc, build_map_snoc, fmap_insert, IH. reflexivity.
Qed.

Section Buckets.

Variable palette : dict pystr.

(** [color] is found in the lookup under [slot], as it is or, failing
    that, once its alpha is stripped. *)
Local Abbreviation slotted slot color :=
  (base16_lookup palette !! normalize_color color = Some slot
   \/ (base16_lookup palette !! normalize_color color = None
       /\ strip_alpha color <> []
       /\ base16_lookup palette !! strip_alpha color = Some slot)).

Local Abbreviation unslotted color :=
  (base16_lookup palette !! normalize_color color = None
   /\ (strip_alpha color = [] \/ base16_lookup palette !! strip_alpha color = None)).

(** [color] has the colour of [slot], as it is or once its alpha is
    stripped. *)
Local Abbreviation matched slot color :=
  (exists slot_color : list ascii,
     In (slot, slot_color) palette
     /\ (normalize_color slot_color = normalize_color color
         \/ (normalize_color slot_color = strip_alpha color
             /\ strip_alpha color <> []))).

(** No slot has [color], as it is or once its alpha is stripped. *)
Local Abbreviation unmatched color :=
  (Forall (fun entry : list ascii * list ascii =>
             normalize_color (snd entry) <> normalize_color color
             /\ (strip_alpha color = []
                 \/ normalize_color (snd entry) <> strip_alpha color))
     palette).

Lemma slotted_matched slot color : slotted slot color -> matched slot color.
Proof.
  intros [Hn|(_ & Hne & Hs)].
  - apply base16_lookup_some in Hn as (c & Hin & Hc). eauto.
  - apply base16_lookup_some in Hs as (c & Hin & Hc). eauto.
Qed.

Lemma unslotted_unmatched color : unslotted color -> unmatched color.
Proof.
  intros [Hn Hs]. apply base16_lookup_none in Hn.
  apply Forall_forall. intros e He. rewrite Forall_forall in Hn.
  split; [apply Hn, He|]. destruct Hs as [Hs|Hs]; [auto|].
  apply base16_lookup_none in Hs. rewrite Forall_forall in Hs. right. apply Hs, He.
Qed.

Lemma map_entry_cases mapping unmapped key color :
  (exists slot,
     map_entry (base16_lookup palette) (mapping, unmapped) (key, color)
     = (dict_append mapping slot (key, color), unmapped)
     /\ slotted slot color)
  \/ (map_entry (base16_lookup palette) (mapping, unmapped) (key, color)
      = (mapping, unmapped ++ [(key, color)])
      /\ unslotted color).
Proof.
  unfold map_entry.
  destruct (base16_lookup palette !! normalize_color color) as [slot|] eqn:Hn.
  - left. exists slot. auto.
  - destruct (strip_alpha color) as [|c0 s0] eqn:Hs.
    + right. auto.
    + destruct (base16_lookup palette !! (c0 :: s0)) as [slot|] eqn:Hl.
      * left. exists slot. split; [reflexivity|]. right.
        split; [reflexivity|]. split; [discriminate|reflexivity].
      * right. auto.
Qed.

Lemma map_fold_invariant (vscode_colors : dict pystr) :
  forall mapping unmapped,
    fold_left (map_entry (base16_lookup palette)) vscode_colors ([], [])
    = (mapping, unmapped) ->
    dict_wf mapping
    /\ concat (map snd mapping) ++ unmapped ≡ₚ vscode_colors
    /\ (forall slot entries,
          In (slot, entries) mapping ->
          entries <> []
          /\ forall key color,
               In (key, color) entries ->
               In (key, color) vscode_colors /\ slotted slot color)
    /\ (forall key color,
          In (key, color) unmapped ->
          In (key, color) vscode_colors /\ unslotted color).
Proof.
  induction vscode_colors as [|[key color] colors IH] using rev_ind;
    intros mapping unmapped Hfold.
  - injection Hfold as <- <-. split; [apply dict_wf_nil|]. split; [reflexivity|].
    split; intros ? ? [].
  - rewrite fold_left_app in Hfold. simpl in Hfold.
    destruct (fold_left _ colors _) as [mapping0 unmapped0] eqn:Hfold0.
    destruct (IH mapping0 unmapped0 eq_refl) as (Hwf & Hperm & Hmapped & Hunmapped).
    destruct (map_entry_cases mapping0 unmapped0 key color)
      as [(slot & Hstep & Hmatch)|[Hstep Hmatch]];
      rewrite Hstep in Hfold; injection Hfold as <- <-.
    + split; [apply dict_append_wf, Hwf|]. split; [|split].
      * rewrite dict_append_concat, <- Hperm, <- !app_assoc.
        apply Permutation_app_head, Permutation_app_comm.
      * intros slot' entries Hin.
        apply dict_append_in in Hin as [Hin|(-> & old & -> & Hold)].
        -- destruct (Hmapped _ _ Hin) as [Hne Hall]. split; [exact Hne|].
           intros k c Hkc. destruct (Hall k c Hkc) as [Hc Hm].
           split; [apply in_or_app; now left|exact Hm].
        -- split; [destruct old; discriminate|].
           intros k c Hkc. apply in_app_or in Hkc as [Hkc|[[= <- <-]|[]]].
           ++ destruct Hold as [->|Hold]; [destruct Hkc|].
              destruct (Hmapped _ _ Hold) as [_ Hall].
              destruct (Hall k c Hkc) as [Hc Hm].
              split; [apply in_or_app; now left|exact Hm].
           ++ split; [apply in_or_app; right; now left|exact Hmatch].
      * intros k c Hkc. destruct (Hunmapped k c Hkc) as [Hc Hm].
        split; [apply in_or_app; now left|exact Hm].
    + split; [exact Hwf|]. split; [|split].
      * rewrite app_assoc, Hperm. reflexivity.
      * intros slot' entries Hin. destruct (Hmapped _ _ Hin) as [Hne Hall].
        split; [exact Hne|]. intros k c Hkc. destruct (Hall k c Hkc) as [Hc Hm].
        split; [apply in_or_app; now left|exact Hm].
      * intros k c Hkc. apply in_app_or in Hkc as [Hkc|[[= <- <-]|[]]].
        -- destruct (Hunmapped k c Hkc) as [Hc Hm].
           split; [apply in_or_app; now left|exact Hm].
        -- split; [apply in_or_app; right; now left|exact Hmatch].
Qed.

(** A bucket is named after a slot of the palette. *)
Lemma mapping_keys_are_slots (vscode_colors : dict pystr) mapping unmapped slot :
  fold_left (map_entry (base16_lookup palette)) vscode_colors ([], [])
  = (mapping, unmapped) ->
  In slot (dict_keys mapping) -> In slot (dict_keys palette).
Proof.
  intros Hfold Hin. apply map_fold_invariant in Hfold as (_ & _ & Hmapped & _).
  unfold dict_keys in Hin. apply in_map_iff in Hin as ([slot' entries] & <- & Hin).
  destruct (Hmapped _ _ Hin) as [Hne Hall].
  destruct entries as [|[k c] rest]; [contradiction|].
  destruct (Hall k c (or_introl eq_refl)) as (_ & Hslotted).
  apply slotted_matched in Hslotted as (slot_color & Hslot & _).
  unfold dict_keys. apply in_map_iff. exists (slot', slot_color). auto.
Qed.

(** What a bucket holds, in terms of the lookup. *)
Lemma bucket_entries (vscode_colors : dict pystr) slot entries :
  ~ In ("unmapped" : pystr) (dict_keys palette) ->
  dict_get (map_vscode_to_base16 vscode_colors palette) slot = Some entries ->
  entries <> []
  /\ forall key color,
       In (key, color) entries ->
       In (key, color) vscode_colors
       /\ if bool_decide (slot = ("unmapped" : pystr)) then unslotted color
          else slotted slot color.
Proof.
  intros Hslot Hget. unfold map_vscode_to_base16 in Hget.
  destruct (fold_left _ vscode_colors _) as [mapping unmapped] eqn:Hfold.
  pose proof (mapping_keys_are_slots _ _ _ "unmapped" Hfold) as Hkeys.
  apply map_fold_invariant in Hfold as (Hwf & _ & Hmapped & Hunmapped).
  assert (Hbucket : forall slot' entries',
             In (slot', entries') mapping -> slot' <> ("unmapped" : pystr)).
  { intros slot' entries' Hin ->. apply Hslot, Hkeys.
    unfold dict_keys. apply in_map_iff. exists (("unmapped" : pystr), entries'). auto. }
  assert (Hplain : forall entries',
             In (slot, entries') mapping ->
             entries' <> []
             /\ forall key color,
                  In (key, color) entries' ->
                  In (key, color) vscode_colors
                  /\ if bool_decide (slot = ("unmapped" : pystr)) then unslotted color
                     else slotted slot color).
  { intros entries' Hin. pose proof (Hbucket _ _ Hin) as Hne.
    rewrite bool_decide_eq_false_2 by exact Hne. apply Hmapped, Hin. }
  destruct unmapped as [|entry rest].
  - apply Hplain, dict_get_in, Hget.
  - destruct (decide (slot = ("unmapped" : pystr))) as [->|Hne].
    + rewrite dict_get_set_eq in Hget. injection Hget as <-.
      split; [discriminate|]. rewrite bool_decide_eq_true_2 by reflexivity.
      apply Hunmapped.
    + rewrite dict_get_set_ne in Hget by congruence.
      apply Hplain, dict_get_in, Hget.
Qed.

(** The buckets hold every theme colour once. *)
Lemma buckets_partition_colours (vscode_colors : dict pystr) :
  ~ In ("unmapped" : pystr) (dict_keys palette) ->
  dict_wf (map_vscode_to_base16 vscode_colors palette)
  /\ concat (map snd (map_vscode_to_base16 vscode_colors palette)) ≡ₚ vscode_colors.
Proof.
  intros Hslot. unfold map_vscode_to_base16.
  destruct (fold_left _ vscode_colors _) as [mapping unmapped] eqn:Hfold.
  pose proof (mapping_keys_are_slots _ _ _ "unmapped" Hfold) as Hkeys.
  apply map_fold_invariant in Hfold as (Hwf & Hperm & _).
  destruct unmapped as [|entry rest].
  - rewrite app_nil_r in Hperm. auto.
  - split; [apply dict_set_wf, Hwf|].
    rewrite dict_set_concat_new; [exact Hperm|].
    apply dict_get_none. tauto.
Qed.

(** X15: when no palette slot is called [unmapped], the buckets of
    [map_vscode_to_base16] hold every theme colour exactly once: put end
    to end they are a rearrangement of the theme's entries, and each bucket
    name occurs once. *)
Theorem every_colour_in_one_bucket (vscode_colors : dict pystr) :
  ~ In ("unmapped" : pystr) (dict_keys palette) ->
  dict_wf (map_vscode_to_base16 vscode_colors palette)
  /\ concat (map snd (map_vscode_to_base16 vscode_colors palette)) ≡ₚ vscode_colors
  /\ length (concat (map snd (map_vscode_to_base16 vscode_colors palette)))
     = length vscode_colors.
Proof.
  intros Hslot.
  destruct (buckets_partition_colours vscode_colors Hslot) as [Hwf Hperm].
  split; [exact Hwf|]. split; [exact Hperm|]. apply Permutation_length, Hperm.
Qed.

(** X16: when no palette slot is called [unmapped], a bucket of
    [map_vscode_to_base16] is not empty and holds theme entries only; in
    the bucket of a slot, every colour normalises to the colour of that
    slot, as it is or once its alpha is stripped; in the bucket
    [unmapped], no colour does so for any slot. *)
Theorem buckets_hold_matching_colours (vscode_colors : dict pystr)
    (slot : pystr) (entries : list (list ascii * list ascii)) :
  ~ In ("unmapped" : pystr) (dict_keys palette) ->
  dict_get (map_vscode_to_base16 vscode_colors palette) slot = Some entries ->
  entries <> []
  /\ forall key color,
       In (key, color) entries ->
       In (key, color) vscode_colors
       /\ if bool_decide (slot = ("unmapped" : pystr)) then unmatched color
          else matched slot color.
Proof.
  intros Hslot Hget.
  destruct (bucket_entries _ _ _ Hslot Hget) as [Hne Hall]. split; [exact Hne|].
  intros key color Hin. destruct (Hall key color Hin) as [Hc Hm]. split; [exact Hc|].
  destruct (bool_decide (slot = ("unmapped" : pystr)));
    [apply unslotted_unmatched|apply slotted_matched]; exact Hm.
Qed.

(** X17: the analyzer predicts the templatizer.  When no palette slot is
    called [unmapped] and no slot colour is eight characters long once
    normalised, a theme colour (not empty, not a transparent sentinel) that
    [map_vscode_to_base16] puts in the bucket of a slot is rewritten by
    [replace_color_with_variable], without a threshold, to the placeholder
    of that very slot, followed by its alpha if it has one; a colour in the
    bucket [unmapped] is left as it is. *)
Theorem analyzer_predicts_templatizer
    (color_delta_e : pystr -> pystr -> option float)
    (vscode_colors : dict pystr) (slot : pystr)
    (entries : list (list ascii * list ascii)) (key color : pystr) :
  ~ In ("unmapped" : pystr) (dict_keys palette) ->
  Forall (fun entry => length (normalize_color (snd entry)) <> 8%nat) palette ->
  dict_get (map_vscode_to_base16 vscode_colors palette) slot = Some entries ->
  In (key, color) entries ->
  color <> [] ->
  is_sentinel color = false ->
  replace_color_with_variable color_delta_e color
    (build_color_to_base16_map palette) palette None
  = Ok (if bool_decide (slot = ("unmapped" : pystr)) then color
        else with_alpha slot (normalize_color color)).
Proof.
  intros Hslot Hshort Hget Hin Hcolor Hsentinel.
  destruct (bucket_entries _ _ _ Hslot Hget) as [_ Hall].
  destruct (Hall key color Hin) as [_ Hm]. clear Hall.
  assert (Hindex : forall n,
             base16_lookup palette !! n
             = fst <$> (build_color_to_base16_map palette !! n)).
  { intros n. rewrite lookup_is_index, lookup_fmap. reflexivity. }
  assert (Height : forall s,
             base16_lookup palette !! normalize_color color = Some s ->
             strip_alpha color = normalize_color color).
  { intros s Hs. apply base16_lookup_some in Hs as (c & Hc & Hn).
    rewrite List.Forall_forall in Hshort. specialize (Hshort _ Hc). simpl in Hshort.
    unfold strip_alpha. rewrite <- Hn.
    destruct (Nat.eqb_spec (length (normalize_color c)) 8); [contradiction|reflexivity]. }
  unfold replace_color_with_variable.
  destruct color as [|c0 r0]; [contradiction|]. rewrite Hsentinel.
  destruct (bool_decide (slot = ("unmapped" : pystr))).
  - destruct Hm as [Hn Hs].
    assert (Hnone : base16_lookup palette !! strip_alpha (c0 :: r0) = None).
    { destruct Hs as [Hs|Hs]; [|exact Hs].
      unfold strip_alpha in Hs |- *.
      destruct (Nat.eqb_spec (length (normalize_color (c0 :: r0))) 8) as [Hlen|Hlen].
      - destruct (normalize_color (c0 :: r0)); discriminate.
      - exact Hn. }
    rewrite Hindex in Hnone.
    destruct (build_color_to_base16_map palette !! strip_alpha (c0 :: r0));
      [discriminate|reflexivity].
  - assert (Hsome : base16_lookup palette !! strip_alpha (c0 :: r0) = Some slot).
    { destruct Hm as [Hn|(_ & _ & Hs)]; [|exact Hs].
      rewrite (Height _ Hn). exact Hn. }
    rewrite Hindex in Hsome.
    destruct (build_color_to_base16_map palette !! strip_alpha (c0 :: r0))
      as [[k flag]|]; [|discriminate].
    injection Hsome as ->. reflexivity.
Qed.

End Buckets.

Lemma every_colour_in_one_bucket_witness :
  dict_wf (map_vscode_to_base16 rose_colors rose_palette)
  /\ concat (map snd (map_vscode_to_base16 rose_colors rose_palette)) ≡ₚ rose_colors
  /\ length (concat (map snd (map_vscode_to_base16 rose_colors rose_palette)))
     = length rose_colors.
Proof.
  apply (every_colour_in_one_bucket rose_palette rose_colors).
  vm_compute. intuition discriminate.
Defined.

Lemma buckets_hold_matching_colours_witness :
  [ (("colors.editor.background" : pystr), ("#ea9a97" : pystr));
    (("colors.editorCursor.foreground" : pystr), ("#EA9A97e6" : pystr)) ] <> []
  /\ forall key color,
       In (key, color)
         [ (("colors.editor.background" : pystr), ("#ea9a97" : pystr));
           (("colors.editorCursor.foreground" : pystr), ("#EA9A97e6" : pystr)) ] ->
       In (key, color) rose_colors
       /\ if bool_decide (("base0A" : pystr) = ("unmapped" : pystr))
          then Forall (fun entry : list ascii * list ascii =>
                         normalize_color (snd entry) <> normalize_color color
                         /\ (strip_alpha color = []
                             \/ normalize_color (snd entry) <> strip_alpha color))
                 rose_palette
          else exists slot_color : list ascii,
                 In (("base0A" : pystr), slot_color) rose_palette
                 /\ (normalize_color slot_color = normalize_color color
                     \/ (normalize_color slot_color = strip_alpha color
                         /\ strip_alpha color <> [])).
Proof.
  apply (buckets_hold_matching_colours rose_palette rose_colors "base0A").
  - vm_compute. intuition discriminate.
  - vm_compute. reflexivity.
Defined.

Lemma analyzer_predicts_templatizer_witness :
  replace_color_with_variable delta_none "#EA9A97e6"
    (build_color_to_base16_map rose_palette) rose_palette None
  = Ok (if bool_decide (("base0A" : pystr) = ("unmapped" : pystr))
        then ("#EA9A97e6" : pystr)
        else with_alpha "base0A" (normalize_color "#EA9A97e6")).
Proof.
  apply (analyzer_predicts_templatizer rose_palette delta_none rose_colors "base0A"
           [ (("colors.editor.background" : pystr), ("#ea9a97" : pystr));
             (("colors.editorCursor.foreground" : pystr), ("#EA9A97e6" : pystr)) ]
           "colors.editorCursor.foreground" "#EA9A97e6").
  - vm_compute. intuition discriminate.
  - repeat constructor; vm_compute; discriminate.
  - vm_compute. reflexivity.
  - right. left. reflexivity.
  - discriminate.
  - vm_compute. reflexivity.
Defined.

(** ** Characters and literal text *)

Lemma is_char_refl c : is_char c c = true.
Proof. unfold is_char. apply Z.eqb_refl. Qed.

Lemma is_char_true c d : is_char c d = true -> c = d.
Proof.
  unfold is_char, code. intros H. apply Z.eqb_eq, N2Z.inj in H.
  rewrite <- (ascii_N_embedding c), <- (ascii_N_embedding d), H. reflexivity.
Qed.

Lemma startswith_app (prefix rest : pystr) : startswith prefix (prefix ++ rest) = true.
Proof.
  induction prefix as [|p prefix IH]; simpl; [reflexivity|].
  rewrite is_char_refl. exact IH.
Qed.

Lemma endswith_app (s suffix : pystr) : endswith suffix (s ++ suffix) = true.
Proof. unfold endswith. rewrite rev_app_distr. apply startswith_app. Qed.

(** ** The output file name *)

Lemma replace_char_free old new (s : pystr) (P : ascii -> Prop) :
  Forall P new ->
  Forall (fun c => is_char old c = false -> P c) s ->
  Forall P (replace_char old new s).
Proof.
  intros Hnew Hs. unfold replace_char. apply Forall_concat, Forall_fmap.
  eapply Forall_impl; [exact Hs|]. intros c Hc. simpl.
  destruct (is_char old c) eqn:Hold; [exact Hnew|].
  constructor; [apply Hc, Hold|constructor].
Qed.



(** ** The repository address *)

Lemma literal_app (text rest : pystr) : fetcher.literal text (text ++ rest) = Some rest.
Proof.
  induction text as [|t text IH]; simpl; [reflexivity|].
  rewrite is_char_refl. exact IH.
Qed.

Lemma literal_some (text : pystr) :
  forall s rest : pystr, fetcher.literal text s = Some rest -> s = text ++ rest.
Proof.
  induction text as [|t text IH]; simpl; intros s rest H.
  - congruence.
  - destruct s as [|c r]; [discriminate|].
    destruct (is_char t c) eqn:Hc; [|discriminate].
    apply is_char_true in Hc as ->. rewrite (IH _ _ H). reflexivity.
Qed.

Lemma span_app p (run rest : pystr) :
  Forall (fun c => p c = true) run ->
  match rest with c :: _ => p c = false | [] => True end ->
  fetcher.span p (run ++ rest) = (run, rest).
Proof.
  intros Hrun Hrest. induction Hrun as [|c run Hc _ IH]; simpl.
  - destruct rest as [|c r]; [reflexivity|]. simpl. rewrite Hrest. reflexivity.
  - rewrite Hc, IH. reflexivity.
Qed.

Lemma span_spec p (s : pystr) :
  forall run rest,
    fetcher.span p s = (run, rest) ->
    s = run ++ rest
    /\ Forall (fun c => p c = true) run
    /\ match rest with c :: _ => p c = false | [] => True end.
Proof.
  induction s as [|c r IH]; simpl; intros run rest H.
  - injection H as <- <-. repeat split. constructor.
  - destruct (p c) eqn:Hc.
    + destruct (fetcher.span p r) as [run' rest'] eqn:Hspan.
      injection H as <- <-. destruct (IH _ _ eq_refl) as (-> & Hrun & Hrest).
      repeat split; [constructor; assumption|exact Hrest].
    + injection H as <- <-. repeat split; [constructor|exact Hc].
Qed.

(** X19: an address written as
    [https://github.com/<owner>/<repo>/tree/<ref>/<path>], where owner,
    repository and ref are non-empty and hold no [/], and the path is
    non-empty and holds no line feed, is read back into exactly these four
    fields; the address the downloader uses is one. *)
Theorem repo_address_round_trip (owner repo ref path : pystr) :
  fetcher.segment owner -> fetcher.segment repo -> fetcher.segment ref ->
  fetcher.line path ->
  fetcher.GitHubRepo_init
    ("https://github.com/" ++ owner ++ "/" ++ repo ++ "/tree/" ++ ref ++ "/" ++ path)
  = Ok {| fetcher.owner := owner; fetcher.repo := repo;
          fetcher.ref := ref; fetcher.path := path |}
  /\ fetcher.GitHubRepo_init fetcher.REPO_PATH
     = Ok {| fetcher.owner := "tinted-theming"; fetcher.repo := "schemes";
             fetcher.ref := "spec-0.11"; fetcher.path := "base16" |}.
Proof.
  intros [Ho Hos] [Hr Hrs] [Hf Hfs] [Hp Hps]. split; [|reflexivity].
  unfold fetcher.GitHubRepo_init. rewrite literal_app.
  rewrite (span_app _ owner) by (exact Hos || reflexivity).
  destruct owner as [|o owner]; [contradiction|]. rewrite literal_app.
  rewrite (span_app _ repo) by (exact Hrs || reflexivity).
  destruct repo as [|r repo]; [contradiction|]. rewrite literal_app.
  rewrite (span_app _ ref) by (exact Hfs || reflexivity).
  destruct ref as [|f ref]; [contradiction|]. rewrite literal_app.
  rewrite <- (app_nil_r path) at 1.
  rewrite (span_app _ path []) by (exact Hps || exact I).
  destruct path as [|p path]; [contradiction|]. reflexivity.
Qed.

Lemma repo_address_round_trip_witness :
  fetcher.GitHubRepo_init
    ("https://github.com/" ++ "tinted-theming" ++ "/" ++ "schemes" ++ "/tree/"
     ++ "main" ++ "/" ++ "base24/themes")
  = Ok {| fetcher.owner := "tinted-theming"; fetcher.repo := "schemes";
          fetcher.ref := "main"; fetcher.path := "base24/themes" |}
  /\ fetcher.GitHubRepo_init fetcher.REPO_PATH
     = Ok {| fetcher.owner := "tinted-theming"; fetcher.repo := "schemes";
             fetcher.ref := "spec-0.11"; fetcher.path := "base16" |}.
Proof.
  apply (repo_address_round_trip "tinted-theming" "schemes" "main" "base24/themes");
    (split; [discriminate|repeat constructor]).
Defined.

(** X20: whatever [GitHubRepo] accepts begins with
    [https://github.com/<owner>/<repo>/tree/<ref>/<path>], where the four
    fields it returns are non-empty, the first three hold no [/] and the
    path no line feed; what follows the path, if anything, begins with a
    line feed and is ignored.  Any other text is refused with
    [ValueError]. *)
Theorem repo_address_fields (url : pystr) :
  match fetcher.GitHubRepo_init url with
  | Ok r =>
      exists rest : pystr,
        url = "https://github.com/" ++ fetcher.owner r ++ "/" ++ fetcher.repo r
              ++ "/tree/" ++ fetcher.ref r ++ "/" ++ fetcher.path r ++ rest
        /\ match rest with c :: _ => c = LF | [] => True end
        /\ fetcher.segment (fetcher.owner r) /\ fetcher.segment (fetcher.repo r)
        /\ fetcher.segment (fetcher.ref r) /\ fetcher.line (fetcher.path r)
  | Raise e => e = ValueError
  end.
Proof.
  unfold fetcher.GitHubRepo_init.
  destruct (fetcher.literal "https://github.com/" url) as [s0|] eqn:H0; [|reflexivity].
  apply literal_some in H0 as ->.
  destruct (fetcher.span fetcher.not_slash s0) as [owner s1] eqn:H1.
  apply span_spec in H1 as (-> & Ho & _).
  destruct owner as [|o owner]; [reflexivity|].
  destruct (fetcher.literal "/" s1) as [s2|] eqn:H2; [|reflexivity].
  apply literal_some in H2 as ->.
  destruct (fetcher.span fetcher.not_slash s2) as [repo s3] eqn:H3.
  apply span_spec in H3 as (-> & Hr & _).
  destruct repo as [|r repo]; [reflexivity|].
  destruct (fetcher.literal "/tree/" s3) as [s4|] eqn:H4; [|reflexivity].
  apply literal_some in H4 as ->.
  destruct (fetcher.span fetcher.not_slash s4) as [ref s5] eqn:H5.
  apply span_spec in H5 as (-> & Hf & _).
  destruct ref as [|f ref]; [reflexivity|].
  destruct (fetcher.literal "/" s5) as [s6|] eqn:H6; [|reflexivity].
  apply literal_some in H6 as ->.
  destruct (fetcher.span fetcher.dot s6) as [path rest] eqn:H7.
  apply span_spec in H7 as (-> & Hp & Hrest).
  destruct path as [|p path]; [reflexivity|].
  exists rest. cbn [fetcher.owner fetcher.repo fetcher.ref fetcher.path].
  split; [rewrite <- ?app_assoc; reflexivity|]. split.
  - destruct rest as [|c rest]; [exact I|]. unfold fetcher.dot in Hrest.
    apply negb_false_iff, is_char_true in Hrest. symmetry. exact Hrest.
  - unfold fetcher.segment, fetcher.line. repeat split; (discriminate || assumption).
Qed.

(** ** The summary of the analysis *)

Lemma sum_len_from {A} (buckets : list (list A)) :
  forall n, fold_left (fun acc v => (acc + length v)%nat) buckets n
            = (n + length (concat buckets))%nat.
Proof.
  induction buckets as [|v r IH]; simpl; intros n; [lia|].
  rewrite IH, length_app. lia.
Qed.

Lemma sum_len_concat {A} (buckets : list (list A)) :
  sum_len buckets = length (concat buckets).
Proof. unfold sum_len. rewrite sum_len_from. reflexivity. Qed.

(** The buckets other than [key], and the bucket [key]. *)
Lemma sum_len_split {A} (d : dict (list A)) (key : pystr) :
  dict_wf d ->
  sum_len (map snd d)
  = (sum_len (map snd (filter (fun kv => fst kv <> key) d))
     + length (dict_get_default d key []))%nat.
Proof.
  rewrite !sum_len_concat. unfold dict_wf, dict_get_default.
  induction d as [|[k v] r IH]; simpl; intros Hwf; [reflexivity|].
  apply NoDup_cons in Hwf as [Hnew Hwf]. rewrite filter_cons. simpl.
  destruct (decide (k <> key)) as [Hne|Heq].
  - rewrite pystr_eqb_neq by exact Hne. simpl. rewrite !length_app, IH by exact Hwf.
    lia.
  - apply dec_stable in Heq as ->. rewrite pystr_eqb_refl.
    assert (Hrest : filter (fun kv : list ascii * list A => fst kv <> key) r = r).
    { clear IH Hwf. induction r as [|[k' v'] r IHr]; [reflexivity|].
      rewrite filter_cons. simpl.
      destruct (decide (k' <> key)) as [_|Heq].
      - f_equal. apply IHr. intros Hin. apply Hnew. simpl. now right.
      - apply dec_stable in Heq as ->. exfalso. apply Hnew. simpl. now left. }
    rewrite Hrest, length_app. lia.
Qed.

(** X21: when no palette slot is called [unmapped], the summary of an
    analysis, when it is returned, opens with three counts that add up:
    the total is the number of theme colours, and it is the sum of the
    mapped and of the unmapped ones. *)
Theorem summary_counts_every_colour
    (color_delta_e : pystr -> pystr -> option float)
    (vscode_colors palette : dict pystr) (frequency_map : dict (list (list ascii)))
    (text : pystr) :
  ~ In ("unmapped" : pystr) (dict_keys palette) ->
  _build_summary_text color_delta_e palette
    (map_vscode_to_base16 vscode_colors palette) frequency_map = Ok text ->
  exists (mapped unmapped : nat) (rest : list (list ascii)),
    text = join [LF]
             ([ "Total VS Code theme keys: " ++ count_text (length vscode_colors);
                "Mapped to base16: " ++ count_text mapped;
                "Unmapped colors: " ++ count_text unmapped ] ++ rest)
    /\ (mapped + unmapped = length vscode_colors)%nat
    /\ unmapped
       = length (dict_get_default (map_vscode_to_base16 vscode_colors palette)
                   "unmapped" []).
Proof.
  intros Hslot Hrun.
  destruct (buckets_partition_colours palette vscode_colors Hslot)
    as [Hwf Hperm].
  pose proof (sum_len_split _ "unmapped" Hwf) as Hsplit.
  rewrite (sum_len_concat (map snd (map_vscode_to_base16 _ _))) in Hsplit.
  rewrite (Permutation_length Hperm) in Hsplit.
  unfold _build_summary_text in Hrun.
  rewrite (sum_len_concat (map snd (map_vscode_to_base16 _ _))) in Hrun.
  rewrite (Permutation_length Hperm) in Hrun.
  destruct (count_similar _ _ _ _) as [[similar different]|];
    cbn [mbind outcome_bind] in Hrun; [|discriminate].
  cbv [mret outcome_ret] in Hrun. injection Hrun as <-.
  match goal with
  | |- context [match ?u with [] => _ | _ :: _ => _ end] => destruct u
  end;
    eexists _, _, _;
    (split; [|split; [symmetry; exact Hsplit|reflexivity]]);
    f_equal; rewrite <- !app_assoc; reflexivity.
Qed.

Lemma summary_counts_witness :
  exists (mapped unmapped : nat) (rest : list (list ascii)),
    join [LF] rose_summary
    = join [LF]
        ([ "Total VS Code theme keys: " ++ count_text (length rose_colors);
           "Mapped to base16: " ++ count_text mapped;
           "Unmapped colors: " ++ count_text unmapped ] ++ rest)
    /\ (mapped + unmapped = length rose_colors)%nat
    /\ unmapped
       = length (dict_get_default (map_vscode_to_base16 rose_colors rose_palette)
                   "unmapped" []).
Proof.
  apply (summary_counts_every_colour delta_none rose_colors rose_palette
           (build_color_frequency_map rose_colors)).
  - vm_compute. intuition discriminate.
  - vm_compute. reflexivity.
Defined.

(** A slot called [unmapped] shares its bucket with the unmapped colours,
    which replace it: of the five sample colours, the one that has the
    slot's colour is lost. *)
Example unmapped_slot_loses_colours :
  length (concat (map snd (map_vscode_to_base16 rose_colors unmapped_palette)))
  = 4%nat.
Proof. reflexivity. Qed.

(** ** Sanity checks of the analyzer *)

Example color_for_display_cases :
  color_for_display "#0000" = ("#000000" : pystr)
  /\ color_for_display "  #EA9A97E6 " = ("#ea9a97" : pystr)
  /\ color_for_display "###" = ("#000000" : pystr).
Proof. repeat split; reflexivity. Qed.

Example scope_str_cases :
  scope_str (JArr [JStr "string"; JStr "string.quoted"]) 3
  = Ok ("string, string.quoted" : pystr)
  /\ scope_str (JStr "comment") 3 = Ok ("comment" : pystr)
  /\ scope_str (JArr []) 13 = Ok ("token[13]" : pystr)
  /\ scope_str (JArr [JInt 1]) 0 = Raise TypeError.
Proof. repeat split; reflexivity. Qed.

Example output_name_cases :
  output_name (Some ("my-theme" : pystr)) [] [] = Ok ("my-theme.json" : pystr)
  /\ output_name (Some ("my-theme.json" : pystr)) [] [] = Ok ("my-theme.json" : pystr)
  /\ output_name None [ (("slug" : pystr), YStr "rose-pine") ] []
     = Ok ("rose-pine.json" : pystr)
  /\ output_name None [ (("slug" : pystr), YInt 42) ] [] = Ok ("42.json" : pystr).
Proof. repeat split; reflexivity. Qed.

Example repo_address_cases :
  fetcher.GitHubRepo_init "https://github.com/a/b/tree/c/" = Raise ValueError
  /\ fetcher.GitHubRepo_init "http://github.com/a/b/tree/c/d" = Raise ValueError
  /\ fetcher.GitHubRepo_init "https://github.com/a/b/blob/c/d" = Raise ValueError.
Proof. repeat split; reflexivity. Qed.

(** ** Templates without placeholders *)

Lemma unify_newlines_in (n : nat) :
  forall (s : pystr) x,
    (length s <= n)%nat -> In x (unify_newlines s) -> In x s \/ x = LF.
Proof.
  induction n as [|n IH]; intros [|c r] x Hlen; simpl in *; try lia; try tauto.
  destruct (is_char CR c).
  - destruct r as [|d r']; simpl in *.
    + intros [<-|[]]. auto.
    + destruct (is_char LF d); intros [<-|Hin]; auto.
      * destruct (IH r' x ltac:(lia) Hin); auto.
      * destruct (IH (d :: r') x ltac:(simpl; lia) Hin); auto.
  - intros [<-|Hin]; [auto|]. destruct (IH r x ltac:(lia) Hin); auto.
Qed.

Lemma unify_newlines_brace_free s : brace_free s -> brace_free (unify_newlines s).
Proof.
  unfold brace_free. rewrite !List.Forall_forall. intros Hs x Hx.
  destruct (unify_newlines_in (length s) s x (le_n _) Hx) as [Hin| ->];
    [apply Hs, Hin|reflexivity].
Qed.

Lemma drop_trailing_newline_brace_free s :
  brace_free s -> brace_free (drop_trailing_newline s).
Proof.
  unfold brace_free, drop_trailing_newline. intros Hs.
  destruct (rev s) as [|c r] eqn:Hrev; [exact Hs|].
  destruct (is_char LF c); [|exact Hs].
  apply Forall_rev. apply Forall_rev in Hs. rewrite Hrev in Hs.
  apply Forall_cons in Hs as [_ Hr]. exact Hr.
Qed.

(** X22: a template file in which no brace occurs is written out as it
    is, but for its line ends: each becomes a line feed, and one at the
    very end is dropped.  This holds for every binding context without a
    key [self]. *)
Theorem template_without_braces_is_kept (fs : pystr -> option pystr)
    (template_path source : pystr) (palette_data : dict yaml) :
  fs template_path = Some source ->
  brace_free source ->
  dict_has palette_data "self" = false ->
  exists template,
    load_template fs template_path = Ok template
    /\ render_theme template palette_data = Ok (normalize_newlines source).
Proof.
  intros Hfile Hfree Hself. unfold load_template, from_string. rewrite Hfile.
  assert (Hclean : brace_free (normalize_newlines source))
    by (apply drop_trailing_newline_brace_free, unify_newlines_brace_free, Hfree).
  pose proof (renders_as_inert loader_environment palette_data _
                (brace_free_inert _ Hclean) []) as Hrender.
  rewrite app_nil_r in Hrender. unfold render_source in Hrender.
  destruct (lex InData (normalize_newlines source)) as [nodes|];
    cbn [mbind outcome_bind] in *; [|discriminate].
  eexists. split; [reflexivity|].
  unfold render_theme. rewrite Hself. cbn [body environment].
  fold loader_environment. rewrite Hrender. cbn. rewrite app_nil_r. reflexivity.
Qed.

Lemma template_without_braces_witness :
  exists template,
    load_template (single_file "plain.j2" ("[1, 2]" ++ [CR; LF])) "plain.j2"
    = Ok template
    /\ render_theme template rose_context
       = Ok (normalize_newlines ("[1, 2]" ++ [CR; LF])).
Proof.
  apply (template_without_braces_is_kept
           (single_file "plain.j2" ("[1, 2]" ++ [CR; LF])) "plain.j2"
           ("[1, 2]" ++ [CR; LF]) rose_context).
  - reflexivity.
  - repeat constructor.
  - reflexivity.
Defined.

(** ** A palette that is not a mapping *)



(** ** The template of a template *)

Lemma Forall2_right {A B} (P : B -> Prop) (l : list A) (l' : list B) :
  Forall2 (fun _ y => P y) l l' -> Forall P l'.
Proof. induction 1; constructor; assumption. Qed.

Section Idempotence.

Variable color_delta_e : pystr -> pystr -> option float.

(** A colour that was rewritten no longer begins with [#]. *)
Lemma replace_result color color_map palette threshold r :
  replace_color_with_variable color_delta_e color color_map palette threshold = Ok r ->
  r = color \/ startswith_hash r = false.
Proof.
  unfold replace_color_with_variable, with_alpha, placeholder.
  destruct color as [|c0 r0]; [intros [= <-]; auto|].
  destruct (is_sentinel (c0 :: r0)); [intros [= <-]; auto|].
  destruct (color_map !! strip_alpha (c0 :: r0)) as [[k flag]|].
  - intros [= <-]. right. destruct (length _ =? 8)%nat; reflexivity.
  - destruct threshold as [t|]; [|intros [= <-]; auto].
    destruct (0 <? t)%float; [|intros [= <-]; auto].
    destruct (find_closest_base16_color color_delta_e (c0 :: r0) palette)
      as [[[key d] de]|]; cbn [mbind outcome_bind]; [|discriminate].
    destruct de as [de|]; [|intros [= <-]; auto].
    destruct (de <=? t)%float; [|intros [= <-]; auto].
    destruct (print_replacing (c0 :: r0) key) as [[]|];
      cbn [mbind outcome_bind]; [|discriminate].
    intros [= <-]. right. destruct (length _ =? 8)%nat; reflexivity.
Qed.

Lemma process_twice color_map palette threshold value :
  forall value',
    process_theme_value color_delta_e value color_map palette threshold = Ok value' ->
    process_theme_value color_delta_e value' color_map palette threshold = Ok value'.
Proof.
  induction value as [| | | |s|items IH|items IH] using json_ind';
    simpl; intros value' Hrun; try (injection Hrun as <-; reflexivity).
  - destruct (startswith_hash s) eqn:Hs.
    + destruct (replace_color_with_variable color_delta_e s color_map palette threshold)
        as [r|] eqn:Hr; simpl in Hrun; [|discriminate].
      injection Hrun as <-. simpl.
      destruct (replace_result _ _ _ _ _ Hr) as [->|Hplain].
      * rewrite Hs, Hr. reflexivity.
      * rewrite Hplain. reflexivity.
    + injection Hrun as <-. simpl. rewrite Hs. reflexivity.
  - destruct (walk_list _ items) as [items'|] eqn:Hwalk; simpl in Hrun; [|discriminate].
    injection Hrun as <-. simpl.
    rewrite (walk_list_fixed
               (fun v => process_theme_value color_delta_e v color_map palette threshold)
               items'); [reflexivity|].
    eapply Forall2_right.
    exact (walk_list_related
             (fun v => process_theme_value color_delta_e v color_map palette threshold)
             (fun _ v' => process_theme_value color_delta_e v' color_map palette
                            threshold = Ok v')
             items IH items' Hwalk).
  - destruct (walk_items _ items) as [items'|] eqn:Hwalk; simpl in Hrun; [|discriminate].
    injection Hrun as <-. simpl.
    rewrite (walk_items_fixed
               (fun v => process_theme_value color_delta_e v color_map palette threshold)
               items'); [reflexivity|].
    pose proof (walk_items_related
                  (fun v => process_theme_value color_delta_e v color_map palette
                              threshold)
                  (fun _ v' => process_theme_value color_delta_e v' color_map palette
                                 threshold = Ok v')
                  items IH items' Hwalk) as Hall.
    eapply Forall2_right, Forall2_impl; [exact Hall|].
    intros kv kv' [_ H]. exact H.
Qed.

Lemma process_section_twice section palette threshold section' :
  process_section color_delta_e section palette threshold = Ok section' ->
  process_section color_delta_e section' palette threshold = Ok section'.
Proof.
  unfold process_section. destruct section as [v|].
  - destruct (process_theme_value _ v _ _ _) as [v'|] eqn:Hrun; simpl; [|discriminate].
    intros [= <-]. rewrite (process_twice _ _ _ _ _ Hrun). reflexivity.
  - intros [= <-]. reflexivity.
Qed.

(** X24: templatizing a template changes nothing: when
    [generate_template] returns a template, running it again on that
    template, with the same palette and threshold, returns the same
    template.  A rewritten colour is a placeholder, which does not
    begin with [#]; a colour left as it was is left again. *)
Theorem template_of_a_template (theme_data : dict json) (palette : dict pystr)
    (threshold : option float) (template_data : dict json) :
  generate_template color_delta_e theme_data palette threshold = Ok template_data ->
  generate_template color_delta_e template_data palette threshold = Ok template_data.
Proof.
  intros Hrun.
  apply generate_template_fields in Hrun as (colors & tokens & Hc & Hk & ->).
  rewrite generate_template_sections.
  destruct (template_fields_sections theme_data colors tokens) as [-> ->].
  rewrite (process_section_twice _ _ _ _ Hc), (process_section_twice _ _ _ _ Hk).
  cbn [mbind outcome_bind]. unfold template_fields.
  destruct (dict_get theme_data "name"), (dict_get theme_data "type"),
    colors, tokens; reflexivity.
Qed.

End Idempotence.

Lemma template_of_a_template_witness :
  generate_template delta_none (cursor_template "{{ base0A }}") rose_palette None
  = Ok (cursor_template "{{ base0A }}").
Proof.
  apply (template_of_a_template delta_none (cursor_theme "#ea9a97") rose_palette None).
  vm_compute. reflexivity.
Defined.

(** ** Alpha digits *)

Lemma strip_alpha_six (h alpha : pystr) :
  hex_digits h -> length h = 6%nat -> hex_digits alpha -> length alpha = 2%nat ->
  normalize_color ("#" ++ h) = py_lower h
  /\ normalize_color ("#" ++ h ++ alpha) = py_lower h ++ py_lower alpha
  /\ strip_alpha ("#" ++ h) = py_lower h
  /\ strip_alpha ("#" ++ h ++ alpha) = py_lower h.
Proof.
  intros Hh Hlen Ha Hlena.
  assert (Hall : hex_digits (h ++ alpha)) by (apply Forall_app; auto).
  destruct (normalize_digits _ Hh) as [_ Hn].
  destruct (normalize_digits _ Hall) as [_ Hna].
  unfold py_lower in Hna. rewrite map_app in Hna. fold (py_lower h) in Hna.
  fold (py_lower alpha) in Hna.
  assert (Hl : length (py_lower h) = 6%nat)
    by (unfold py_lower; rewrite length_map; exact Hlen).
  assert (Hla : length (py_lower alpha) = 2%nat)
    by (unfold py_lower; rewrite length_map; exact Hlena).
  split; [exact Hn|]. split; [exact Hna|]. unfold strip_alpha. rewrite Hn, Hna. split.
  - rewrite Hl. reflexivity.
  - rewrite length_app, Hl, Hla. simpl Nat.eqb. cbv iota.
    apply take_app_length'. symmetry. exact Hl.
Qed.

(** X25: a colour of six hexadecimal digits behind one [#] whose
    lower-cased digits are in the index is rewritten to the placeholder of
    its slot, whatever the threshold; with two alpha digits after it (the
    transparent [#00000000] apart) the placeholder is followed by the alpha
    digits in lower case. *)
Theorem alpha_digits_are_carried
    (color_delta_e : pystr -> pystr -> option float) (h alpha key : pystr)
    (flag : bool) (color_map : gmap (list ascii) (list ascii * bool))
    (palette : dict pystr) (threshold : option float) :
  hex_digits h -> length h = 6%nat -> hex_digits alpha -> length alpha = 2%nat ->
  color_map !! py_lower h = Some (key, flag) ->
  py_lower (h ++ alpha) <> ("00000000" : pystr) ->
  replace_color_with_variable color_delta_e ("#" ++ h ++ alpha) color_map palette
    threshold
  = Ok ("{{ " ++ key ++ " }}" ++ py_lower alpha)
  /\ replace_color_with_variable color_delta_e ("#" ++ h) color_map palette threshold
     = Ok ("{{ " ++ key ++ " }}").
Proof.
  intros Hh Hlen Ha Hlena Hkey Hopaque.
  destruct (strip_alpha_six h alpha Hh Hlen Ha Hlena) as (Hn & Hna & Hs & Hsa).
  assert (Hl : length (py_lower h) = 6%nat)
    by (unfold py_lower; rewrite length_map; exact Hlen).
  assert (Hla : length (py_lower alpha) = 2%nat)
    by (unfold py_lower; rewrite length_map; exact Hlena).
  split.
  - change ("#" ++ h ++ alpha) with ("#"%char :: h ++ alpha).
    unfold replace_color_with_variable.
    change ("#"%char :: h ++ alpha) with ("#" ++ h ++ alpha).
    assert (is_sentinel ("#" ++ h ++ alpha) = false) as ->.
    { unfold is_sentinel. apply bool_decide_eq_false. rewrite !elem_of_cons.
      intros [Heq|[Heq|Heq]].
      - apply (f_equal length) in Heq. unfold py_lower in Heq.
        rewrite length_map in Heq. simpl in Heq. rewrite length_app, Hlen, Hlena in Heq.
        discriminate.
      - apply Hopaque. change (py_lower ("#" ++ h ++ alpha))
          with ("#"%char :: py_lower (h ++ alpha)) in Heq.
        injection Heq as Heq. exact Heq.
      - apply elem_of_nil in Heq. exact Heq. }
    rewrite Hsa, Hkey, Hna. unfold with_alpha, placeholder, slice.
    rewrite length_app, Hl, Hla. simpl Nat.eqb. cbv iota.
    rewrite drop_app_length' by (symmetry; exact Hl).
    rewrite take_ge by lia. rewrite <- !app_assoc. reflexivity.
  - change ("#" ++ h) with ("#"%char :: h). unfold replace_color_with_variable.
    change ("#"%char :: h) with ("#" ++ h).
    assert (is_sentinel ("#" ++ h) = false) as ->.
    { unfold is_sentinel. apply bool_decide_eq_false. rewrite !elem_of_cons.
      intros [Heq|[Heq|Heq]]; [| |apply elem_of_nil in Heq; exact Heq];
        apply (f_equal length) in Heq; unfold py_lower in Heq;
        rewrite length_map in Heq; simpl in Heq; rewrite Hlen in Heq; discriminate. }
    rewrite Hs, Hkey, Hn. unfold with_alpha, placeholder. rewrite Hl. reflexivity.
Qed.

Lemma alpha_digits_witness :
  replace_color_with_variable delta_none ("#" ++ "EA9A97" ++ "E6")
    (build_color_to_base16_map rose_palette) rose_palette (Some 5%float)
  = Ok ("{{ " ++ "base0A" ++ " }}" ++ py_lower "E6")
  /\ replace_color_with_variable delta_none ("#" ++ "EA9A97")
       (build_color_to_base16_map rose_palette) rose_palette (Some 5%float)
     = Ok ("{{ " ++ "base0A" ++ " }}").
Proof.
  apply (alpha_digits_are_carried delta_none "EA9A97" "E6" "base0A" true);
    try reflexivity; try (repeat constructor; vm_compute; eauto).
  discriminate.
Defined.

(** ** Well-formed colours never raise *)

Lemma well_formed_stripped color :
  well_formed color ->
  exists h rest : pystr,
    strip_alpha color = h ++ rest
    /\ hex_digits h /\ length h = 6%nat /\ hex_digits rest.
Proof.
  intros (h & rest & Hcolor & Hh & Hlen & Hrest).
  assert (Hall : hex_digits (h ++ rest)) by (apply Forall_app; auto).
  destruct (normalize_digits _ Hall) as [Hplain Hhash].
  assert (Hn : normalize_color color = py_lower h ++ py_lower rest).
  { destruct Hcolor as [-> | ->]; [rewrite Hhash|rewrite Hplain];
      unfold py_lower; apply map_app. }
  assert (Hl : length (py_lower h) = 6%nat)
    by (unfold py_lower; rewrite length_map; exact Hlen).
  unfold strip_alpha. rewrite Hn.
  destruct (length (py_lower h ++ py_lower rest) =? 8)%nat.
  - exists (py_lower h), []. rewrite take_app_length' by (symmetry; exact Hl).
    rewrite app_nil_r. repeat split; [apply hex_digits_lower, Hh|exact Hl|constructor].
  - exists (py_lower h), (py_lower rest).
    repeat split; [apply hex_digits_lower, Hh|exact Hl|apply hex_digits_lower, Hrest].
Qed.

Lemma well_formed_decodes color : well_formed color -> returns (hex_to_rgb color).
Proof.
  intros (h & rest & Hcolor & Hh & Hlen & Hrest).
  destruct (hex_to_rgb_digits h rest Hh Hlen Hrest) as (Hrgb & Hhash & _).
  destruct Hcolor as [-> | ->]; [rewrite Hhash|]; rewrite Hrgb; eexists; reflexivity.
Qed.

Lemma well_formed_distance a b :
  well_formed a -> well_formed b -> returns (rgb_distance a b).
Proof.
  intros Ha Hb. unfold rgb_distance.
  destruct (well_formed_stripped a Ha) as (h1 & r1 & Hs1 & H1).
  destruct (well_formed_stripped b Hb) as (h2 & r2 & Hs2 & H2).
  destruct (well_formed_decodes (strip_alpha a)) as [[[x1 y1] z1] ->];
    [exists h1, r1; auto|].
  destruct (well_formed_decodes (strip_alpha b)) as [[[x2 y2] z2] ->];
    [exists h2, r2; auto|].
  eexists; reflexivity.
Qed.

Section WellFormed.

Variable color_delta_e : pystr -> pystr -> option float.

Lemma well_formed_closest target (palette : dict pystr) :
  well_formed target ->
  Forall (fun entry => well_formed (snd entry)) palette ->
  returns (find_closest_base16_color color_delta_e target palette).
Proof.
  intros Htarget Hpalette. unfold find_closest_base16_color.
  destruct palette as [|entry rest] eqn:Hpal; [eexists; reflexivity|].
  rewrite <- Hpal in *. apply closest_scan_total.
  eapply Forall_impl; [exact Hpalette|]. intros e He.
  apply well_formed_distance; [|exact He].
  destruct (well_formed_stripped target Htarget) as (h & r & Hs & H).
  exists h, r. auto.
Qed.

(** A well-formed colour holds no bracket. *)
Lemma hex_digits_bracket_free (s : pystr) : hex_digits s -> bracket_free s = true.
Proof.
  unfold bracket_free. induction 1 as [|c r [d Hd] _ IH]; [reflexivity|].
  cbn [forallb]. rewrite IH, andb_true_r. apply negb_true_iff.
  destruct (is_char "[" c) eqn:Hc; [|reflexivity].
  apply is_char_true in Hc. subst c. vm_compute in Hd. discriminate.
Qed.

Lemma well_formed_bracket_free (color : pystr) :
  well_formed color -> bracket_free color = true.
Proof.
  intros (h & rest & Hcolor & Hh & _ & Hrest).
  assert (Hall : bracket_free (h ++ rest) = true)
    by (apply hex_digits_bracket_free, Forall_app; auto).
  destruct Hcolor as [-> | ->]; [|exact Hall].
  unfold bracket_free in *. simpl. exact Hall.
Qed.

Lemma well_formed_replace color color_map (palette : dict pystr) threshold :
  well_formed color ->
  Forall (fun entry => well_formed (snd entry)) palette ->
  Forall (fun entry => bracket_free (fst entry) = true) palette ->
  returns (replace_color_with_variable color_delta_e color color_map palette threshold).
Proof.
  intros Hcolor Hpalette Hkeys. unfold replace_color_with_variable.
  destruct color as [|c0 r0]; [eexists; reflexivity|].
  destruct (is_sentinel (c0 :: r0)); [eexists; reflexivity|].
  destruct (color_map !! strip_alpha (c0 :: r0)) as [[k flag]|]; [eexists; reflexivity|].
  destruct threshold as [t|]; [|eexists; reflexivity].
  destruct (0 <? t)%float; [|eexists; reflexivity].
  destruct (well_formed_closest (c0 :: r0) palette Hcolor Hpalette)
    as [[[key d] de] Hclosest].
  rewrite Hclosest.
  cbn [mbind outcome_bind]. destruct de as [de|]; [|eexists; reflexivity].
  destruct (de <=? t)%float; [|eexists; reflexivity].
  destruct (find_closest_key _ _ _ _ _ _ Hclosest) as (slot & Hin).
  rewrite List.Forall_forall in Hkeys.
  pose proof (Hkeys _ Hin) as Hkey. simpl in Hkey.
  rewrite (print_replacing_free _ _ (well_formed_bracket_free _ Hcolor) Hkey).
  eexists; reflexivity.
Qed.

(** X26: when every palette colour, and every string of the theme's
    [colors] and [tokenColors] sections that begins with [#], is a
    well-formed colour (six hexadecimal digits, with or without a [#]
    before them and further digits after them), and no slot name holds an
    opening square bracket, [generate_template] returns a template, with
    any threshold: the [ValueError] of [hex_to_rgb] cannot occur, and the
    progress line of a fuzzy replacement holds no console markup but its
    own. *)
Theorem well_formed_theme_is_templatized (theme_data : dict json)
    (palette : dict pystr) (threshold : option float) :
  Forall (fun entry => well_formed (snd entry)) palette ->
  Forall (fun entry => bracket_free (fst entry) = true) palette ->
  (forall (field : pystr) value path s,
     field = ("colors" : pystr) \/ field = ("tokenColors" : pystr) ->
     dict_get theme_data field = Some value ->
     leaf_at path value = Some s -> startswith_hash s = true -> well_formed s) ->
  returns (generate_template color_delta_e theme_data palette threshold).
Proof.
  intros Hpalette Hkeys Hleaves. rewrite generate_template_sections.
  assert (Hsection : forall field : pystr,
             field = ("colors" : pystr) \/ field = ("tokenColors" : pystr) ->
             returns (process_section color_delta_e (dict_get theme_data field)
                        palette threshold)).
  { intros field Hfield. unfold process_section.
    destruct (dict_get theme_data field) as [v|] eqn:Hv; [|eexists; reflexivity].
    destruct (process_returns color_delta_e (build_color_to_base16_map palette)
                palette threshold v) as [v' ->]; [|eexists; reflexivity].
    intros path s Hleaf Hs. apply well_formed_replace; [|exact Hpalette|exact Hkeys].
    exact (Hleaves field v path s Hfield Hv Hleaf Hs). }
  destruct (Hsection "colors" (or_introl eq_refl)) as [colors ->].
  destruct (Hsection "tokenColors" (or_intror eq_refl)) as [tokens ->].
  eexists; reflexivity.
Qed.

End WellFormed.

Lemma well_formed_theme_witness :
  returns (generate_template (delta_const 1.5) (cursor_theme "#EA9B98e6")
             rose_palette (Some 5%float)).
Proof.
  apply (well_formed_theme_is_templatized (delta_const 1.5)
           (cursor_theme "#EA9B98e6") rose_palette (Some 5%float)).
  - repeat constructor; simpl;
      [exists ("eb6f92" : pystr), ([] : pystr)
      |exists ("ea9a97" : pystr), ([] : pystr)
      |exists ("3e8fb0" : pystr), ([] : pystr)];
      (split; [left; reflexivity|]);
      (split; [repeat constructor; vm_compute; eauto|]);
      (split; [reflexivity|constructor]).
  - repeat constructor.
  - intros field value path s [-> | ->] Hvalue Hleaf Hs; vm_compute in Hvalue;
      [|discriminate].
    injection Hvalue as <-.
    destruct path as [|[|i] [|j path]]; simpl in Hleaf; try discriminate.
    injection Hleaf as <-.
    exists ("EA9B98" : pystr), ("e6" : pystr).
    split; [left; reflexivity|].
    split; [repeat constructor; vm_compute; eauto|].
    split; [reflexivity|repeat constructor; vm_compute; eauto].
Defined.
